(** * netbox-automation: interface and cable reconciliation

    A shallow embedding of [scripts/interface_update.py] and
    [scripts/cable_update.py].  Both scripts run inside NetBox: they read
    live state through NAPALM, compare it with the inventory and write the
    difference back through the ORM.  The inventory is modelled as an
    explicit store that every ORM call reads or rewrites; an exception that
    the scripts do not catch ends the run. *)

From Stdlib Require Import List String Bool Arith Lia.
Import ListNotations.
Local Open Scope string_scope.
Local Open Scope list_scope.

(** ** Exceptions and results *)

(** The Python exceptions the two scripts can meet, and the error of a
    write that the store refuses. *)
Inductive exn : Type :=
| IndexError
| KeyError
| AttributeError
| DoesNotExist
| MultipleObjectsReturned
| PersistenceError.

(** A computation either returns or raises. *)
Inductive result (A : Type) : Type :=
| Ok (a : A)
| Raise (e : exn).
Arguments Ok {A} a.
Arguments Raise {A} e.

Definition bind {A B : Type} (r : result A) (k : A -> result B) : result B :=
  match r with
  | Ok a => k a
  | Raise e => Raise e
  end.

Notation "x <- r ;; k" := (bind r (fun x => k))
  (at level 61, r at next level, right associativity).
Notation "' p <- r ;; k" := (bind r (fun x => match x with p => k end))
  (at level 61, p pattern, r at next level, right associativity).

(** Dereferencing something that may be [None]: a missing row raises. *)
Definition deref {A : Type} (e : exn) (o : option A) : result A :=
  match o with
  | Some a => Ok a
  | None => Raise e
  end.

(** ** Regular expressions

    The scripts hand patterns to Python's [re] module and to the database.
    The regex engine is a parameter: [match_at p s k] says that pattern [p]
    matches in [s] starting at position [k].  [re.match] tries position 0
    only; the [name__regex] lookup of the ORM searches every position.  The
    engine answers for the patterns it accepts: a pattern that Python or the
    database refuses to compile is outside what is modelled here. *)
Module Re.
Section Regex.
Variable match_at : string -> string -> nat -> bool.

Definition re_match (pattern s : string) : bool := match_at pattern s 0.

Definition re_search (pattern s : string) : bool :=
  existsb (match_at pattern s) (seq 0 (S (String.length s))).
End Regex.

(** A concrete engine for literal patterns, used to run the scripts on
    examples. *)
Definition literal_at (pattern s : string) (k : nat) : bool :=
  String.prefix pattern (String.substring k (String.length s - k) s).
End Re.

(** ** The inventory store *)
Module Netbox.

Record Device : Type := mkDevice {
  dev_id : nat;
  dev_name : string
}.

(** [if_cable] is the interface's [cable] foreign key and [if_cable_peer]
    its [_cable_peer] reference, both by primary key. *)
Record Interface : Type := mkInterface {
  if_id : nat;
  if_device : nat;
  if_name : string;
  if_type : string;
  if_description : string;
  if_mac_address : option string;
  if_cable : option nat;
  if_cable_peer : option nat
}.

Record Cable : Type := mkCable {
  cable_id : nat;
  termination_a_id : nat;
  termination_b_id : nat
}.

(** The tables, in the order the store returns their rows, and the next
    primary key of the two tables the scripts insert into. *)
Record Store : Type := mkStore {
  devices : list Device;
  interfaces : list Interface;
  cables : list Cable;
  next_interface_id : nat;
  next_cable_id : nat
}.

(** [InterfaceTypeChoices.TYPE_OTHER] *)
Definition TYPE_OTHER : string := "other".

(** The answer of [Model.objects.get(...)]. *)
Inductive lookup (A : Type) : Type :=
| Found (a : A)
| NotFound
| Multiple.
Arguments Found {A} a.
Arguments NotFound {A}.
Arguments Multiple {A}.

Definition objects_get {A : Type} (p : A -> bool) (rows : list A) : lookup A :=
  match filter p rows with
  | [] => NotFound
  | [x] => Found x
  | _ :: _ :: _ => Multiple
  end.

(** [Device.objects.get(name=name)] *)
Definition Device_get (st : Store) (name : string) : lookup Device :=
  objects_get (fun d => String.eqb (dev_name d) name) (devices st).

(** [Interface.objects.get(device=device, name=name)] *)
Definition Interface_get (st : Store) (device : nat) (name : string)
  : lookup Interface :=
  objects_get (fun i => Nat.eqb (if_device i) device && String.eqb (if_name i) name)
              (interfaces st).

(** Following a reference by primary key. *)
Definition find_device (st : Store) (id : nat) : option Device :=
  find (fun d => Nat.eqb (dev_id d) id) (devices st).

Definition find_interface (st : Store) (id : nat) : option Interface :=
  find (fun i => Nat.eqb (if_id i) id) (interfaces st).

Definition find_cable (st : Store) (id : nat) : option Cable :=
  find (fun c => Nat.eqb (cable_id c) id) (cables st).

Definition holds_cable (cid : nat) (i : Interface) : bool :=
  match if_cable i with
  | Some c => Nat.eqb c cid
  | None => false
  end.

Definition set_cable (i : Interface) (cable peer : option nat) : Interface :=
  mkInterface (if_id i) (if_device i) (if_name i) (if_type i)
              (if_description i) (if_mac_address i) cable peer.

Definition set_description (i : Interface) (description : string) : Interface :=
  mkInterface (if_id i) (if_device i) (if_name i) (if_type i)
              description (if_mac_address i) (if_cable i) (if_cable_peer i).

(** [Cable(termination_a_id=a, termination_b_id=b).save()], when the
    store accepts it: the row is inserted under a new primary key and the
    store points both ends at the new cable and at each other.  Whether the
    store accepts a cable is not decided here; see [Cable_save_checked] and
    the platform parameter of [CableUpdate.run_device_on]. *)
Definition attach (cid a b : nat) (i : Interface) : Interface :=
  if Nat.eqb (if_id i) a then set_cable i (Some cid) (Some b)
  else if Nat.eqb (if_id i) b then set_cable i (Some cid) (Some a)
  else i.

Definition Cable_save (st : Store) (a b : nat) : Store :=
  let cid := next_cable_id st in
  mkStore (devices st)
          (map (attach cid a b) (interfaces st))
          (cables st ++ [mkCable cid a b])
          (next_interface_id st)
          (S cid).

(** [cable.delete()]: the row goes, and every interface that referred to
    the cable loses the reference and its peer. *)
Definition detach (cid : nat) (i : Interface) : Interface :=
  if holds_cable cid i then set_cable i None None else i.

Definition Cable_delete (st : Store) (cid : nat) : Store :=
  mkStore (devices st)
          (map (detach cid) (interfaces st))
          (filter (fun c => negb (Nat.eqb (cable_id c) cid)) (cables st))
          (next_interface_id st)
          (next_cable_id st).

(** [Interface.objects.create(...)] as [get_or_create] calls it. *)
Definition Interface_create (st : Store) (device : nat) (name type description : string)
           (mac_address : option string) : Store * Interface :=
  let i := mkInterface (next_interface_id st) device name type description
                       mac_address None None in
  (mkStore (devices st) (interfaces st ++ [i]) (cables st)
           (S (next_interface_id st)) (next_cable_id st), i).

(** [interface.save()] on an existing row: every column of the row with the
    object's primary key is rewritten from the object. *)
Definition Interface_save (st : Store) (i : Interface) : Store :=
  mkStore (devices st)
          (map (fun r => if Nat.eqb (if_id r) (if_id i) then i else r) (interfaces st))
          (cables st)
          (next_interface_id st)
          (next_cable_id st).

(** The number of cables an interface is an end of. *)
Definition terminates (id : nat) (c : Cable) : bool :=
  Nat.eqb (termination_a_id c) id || Nat.eqb (termination_b_id c) id.

Definition cables_of (st : Store) (id : nat) : list Cable :=
  filter (terminates id) (cables st).

(** Modelled from the spec: the platform's [Cable.save()] is not part of
    the scripts.  The data model has an interface in at most one cable at a
    time, the docstring of the cable script says that NetBox allows 1 to 1
    cable connections only, and a persistence error ends the run.  So a cable
    between two interfaces that are both free is inserted, and any other
    save raises. *)
Definition Cable_save_checked (st : Store) (a b : nat) : result Store :=
  match cables_of st a, cables_of st b with
  | [], [] => Ok (Cable_save st a b)
  | _, _ => Raise PersistenceError
  end.

End Netbox.

(** ** [scripts/cable_update.py] *)
Module CableUpdate.
Import Netbox.

(** One LLDP neighbour as NAPALM reports it. *)
Record Neighbor : Type := mkNeighbor {
  hostname : string;
  port : string
}.

(** [get_lldp_neighbors]: local interface name to its list of neighbours,
    in the order the dict iterates. *)
Definition lldp_neighbors : Type := list (string * list Neighbor).

(** The user input of the script. *)
Record data : Type := mkData {
  device_name : string;
  non_existent : bool
}.

(** The log lines of the script.  The first argument is the device the run
    is on; cables are shown as name and device of both ends. *)
Inductive message : Type :=
| LocalInterfaceMissing (device local_interface : string)
| RemoteDeviceMissing (device remote_device remote_interface : string)
| RemoteInterfaceMissing (device remote_interface remote_device : string)
| DeletingStaleCable (device a a_device b b_device : string)
| CreatingCable (device a a_device b b_device : string)
| DeletingOldCable (device a a_device b b_device : string).

Inductive level : Type := Info | Success | Warning.

Definition level_of (m : message) : level :=
  match m with
  | LocalInterfaceMissing _ _ => Warning
  | RemoteDeviceMissing _ _ _ => Info
  | RemoteInterfaceMissing _ _ _ => Info
  | DeletingStaleCable _ _ _ _ _ => Success
  | CreatingCable _ _ _ _ _ => Success
  | DeletingOldCable _ _ _ _ _ => Success
  end.

(** [interface.cable]: the foreign key is followed, a dangling key raises. *)
Definition cable_of (st : Store) (i : Interface) : result (option Cable) :=
  match if_cable i with
  | None => Ok None
  | Some cid => c <- deref DoesNotExist (find_cable st cid) ;; Ok (Some c)
  end.

(** [interface._cable_peer], about to be asked for an attribute. *)
Definition cable_peer (st : Store) (i : Interface) : result Interface :=
  p <- deref AttributeError (if_cable_peer i) ;;
  deref AttributeError (find_interface st p).

(** [interface.device] *)
Definition device_of (st : Store) (i : Interface) : result Device :=
  deref DoesNotExist (find_device st (if_device i)).

(** Lines 114-124: [None] is the [continue] of a cable that is already
    right, [Some delete_cable] goes on to the remote lookup. *)
Definition check_cable (st : Store) (netbox_local_interface : Interface)
           (remote_device_name remote_interface_name : string)
  : result (option bool) :=
  cable <- cable_of st netbox_local_interface ;;
  match cable with
  | None => Ok (Some false)
  | Some _ =>
      peer <- cable_peer st netbox_local_interface ;;
      if String.eqb (if_name peer) remote_interface_name then
        peer_device <- device_of st peer ;;
        if String.eqb (dev_name peer_device) remote_device_name
        then Ok None
        else Ok (Some true)
      else Ok (Some true)
  end.

(** Lines 146-156 *)
Definition delete_stale (device : Device) (st : Store)
           (netbox_local_interface : Interface) : result (Store * list message) :=
  cid <- deref AttributeError (if_cable netbox_local_interface) ;;
  let st1 := Cable_delete st cid in
  local_device <- device_of st1 netbox_local_interface ;;
  peer <- cable_peer st netbox_local_interface ;;
  peer_device <- device_of st1 peer ;;
  Ok (st1, [DeletingStaleCable (dev_name device)
              (if_name netbox_local_interface) (dev_name local_device)
              (if_name peer) (dev_name peer_device)]).

(** Lines 158-177 *)
Definition create_cable (device : Device) (st : Store)
           (netbox_local_interface netbox_remote_interface : Interface)
  : result (Store * list message) :=
  let st1 := Cable_save st (if_id netbox_local_interface)
                        (if_id netbox_remote_interface) in
  local_device <- device_of st1 netbox_local_interface ;;
  remote_device <- device_of st1 netbox_remote_interface ;;
  Ok (st1, [CreatingCable (dev_name device)
              (if_name netbox_local_interface) (dev_name local_device)
              (if_name netbox_remote_interface) (dev_name remote_device)]).

(** Lines 126-177 *)
Definition connect (show : bool) (device : Device) (st : Store)
           (netbox_local_interface : Interface) (delete_cable : bool)
           (remote_device_name remote_interface_name : string)
  : result (Store * list message) :=
  match Device_get st remote_device_name with
  | Multiple => Raise MultipleObjectsReturned
  | NotFound =>
      Ok (st, if show
              then [RemoteDeviceMissing (dev_name device) remote_device_name
                                        remote_interface_name]
              else [])
  | Found remote_device =>
      match Interface_get st (dev_id remote_device) remote_interface_name with
      | Multiple => Raise MultipleObjectsReturned
      | NotFound =>
          Ok (st, if show
                  then [RemoteInterfaceMissing (dev_name device)
                                               remote_interface_name remote_device_name]
                  else [])
      | Found netbox_remote_interface =>
          '(st1, log1) <- (if delete_cable
                           then delete_stale device st netbox_local_interface
                           else Ok (st, [])) ;;
          '(st2, log2) <- create_cable device st1 netbox_local_interface
                                       netbox_remote_interface ;;
          Ok (st2, log1 ++ log2)
      end
  end.

(** Lines 102-177: the body of the loop after the name has been recorded. *)
Definition reconcile (show : bool) (device : Device) (st : Store)
           (local_interface_name remote_device_name remote_interface_name : string)
  : result (Store * list message) :=
  match Interface_get st (dev_id device) local_interface_name with
  | Multiple => Raise MultipleObjectsReturned
  | NotFound =>
      Ok (st, if show
              then [LocalInterfaceMissing (dev_name device) local_interface_name]
              else [])
  | Found netbox_local_interface =>
      decision <- check_cable st netbox_local_interface
                              remote_device_name remote_interface_name ;;
      match decision with
      | None => Ok (st, [])
      | Some delete_cable =>
          connect show device st netbox_local_interface delete_cable
                  remote_device_name remote_interface_name
      end
  end.

(** Lines 96-177: the loop over the neighbour report.  The result carries
    the store, [lldp_interface_names] and the lines logged. *)
Fixpoint neighbors_loop (show : bool) (device : Device)
         (items : lldp_neighbors) (st : Store) (lldp_interface_names : list string)
  : result (Store * list string * list message) :=
  match items with
  | [] => Ok (st, lldp_interface_names, [])
  | (local_interface_name, remote_interface) :: rest =>
      first <- deref IndexError (hd_error remote_interface) ;;
      let remote_device_name := hostname first in
      let remote_interface_name := port first in
      let lldp_interface_names := lldp_interface_names ++ [local_interface_name] in
      '(st1, log1) <- reconcile show device st local_interface_name
                                remote_device_name remote_interface_name ;;
      '(st2, names, log2) <- neighbors_loop show device rest st1 lldp_interface_names ;;
      Ok (st2, names, log1 ++ log2)
  end.

(** The query of [remove_old_cables], lines 195-197. *)
Definition old_cable_interfaces (st : Store) (device : Device)
           (lldp_interface_names : list string) : list Interface :=
  filter (fun i => Nat.eqb (if_device i) (dev_id device)
                   && match if_cable i with Some _ => true | None => false end
                   && negb (existsb (String.eqb (if_name i)) lldp_interface_names))
         (interfaces st).

(** [termination.name] and [termination.device.name] of a cable end. *)
Definition end_names (st : Store) (id : nat) : result (string * string) :=
  t <- deref AttributeError (find_interface st id) ;;
  d <- device_of st t ;;
  Ok (if_name t, dev_name d).

(** Lines 199-214: the interfaces were read when the loop started; their
    cable is looked up again in the store as it is now. *)
Fixpoint remove_loop (device : Device) (rows : list Interface) (st : Store)
  : result (Store * list message) :=
  match rows with
  | [] => Ok (st, [])
  | oc_interface :: rest =>
      match if_cable oc_interface with
      | None => Raise AttributeError
      | Some cid =>
          match find_cable st cid with
          | None => remove_loop device rest st
          | Some old_cable =>
              let st1 := Cable_delete st (cable_id old_cable) in
              '(a, a_device) <- end_names st1 (termination_a_id old_cable) ;;
              '(b, b_device) <- end_names st1 (termination_b_id old_cable) ;;
              '(st2, log) <- remove_loop device rest st1 ;;
              Ok (st2, DeletingOldCable (dev_name device) a a_device b b_device :: log)
          end
      end
  end.

Definition remove_old_cables (st : Store) (device : Device)
           (lldp_interface_names : list string) : result (Store * list message) :=
  remove_loop device (old_cable_interfaces st device lldp_interface_names) st.

(** Lines 92-178: one device. *)
Definition run_device (show : bool) (st : Store) (device : Device)
           (napalm_lldp_neighbors : lldp_neighbors) : result (Store * list message) :=
  '(st1, lldp_interface_names, log1) <-
     neighbors_loop show device napalm_lldp_neighbors st [] ;;
  '(st2, log2) <- remove_old_cables st1 device lldp_interface_names ;;
  Ok (st2, log1 ++ log2).

(** *** The same lines over a store that may refuse a cable

    [save] stands for [new_cable.save()] of line 168, which the platform
    carries out and may refuse.  The definitions below are lines 126-178
    again, with that one call handed to [save]; everything else is shared
    with the definitions above. *)
Section Platform.
Variable save : Store -> nat -> nat -> result Store.

(** Lines 158-177 *)
Definition create_cable_on (device : Device) (st : Store)
           (netbox_local_interface netbox_remote_interface : Interface)
  : result (Store * list message) :=
  st1 <- save st (if_id netbox_local_interface) (if_id netbox_remote_interface) ;;
  local_device <- device_of st1 netbox_local_interface ;;
  remote_device <- device_of st1 netbox_remote_interface ;;
  Ok (st1, [CreatingCable (dev_name device)
              (if_name netbox_local_interface) (dev_name local_device)
              (if_name netbox_remote_interface) (dev_name remote_device)]).

(** Lines 126-177 *)
Definition connect_on (show : bool) (device : Device) (st : Store)
           (netbox_local_interface : Interface) (delete_cable : bool)
           (remote_device_name remote_interface_name : string)
  : result (Store * list message) :=
  match Device_get st remote_device_name with
  | Multiple => Raise MultipleObjectsReturned
  | NotFound =>
      Ok (st, if show
              then [RemoteDeviceMissing (dev_name device) remote_device_name
                                        remote_interface_name]
              else [])
  | Found remote_device =>
      match Interface_get st (dev_id remote_device) remote_interface_name with
      | Multiple => Raise MultipleObjectsReturned
      | NotFound =>
          Ok (st, if show
                  then [RemoteInterfaceMissing (dev_name device)
                                               remote_interface_name remote_device_name]
                  else [])
      | Found netbox_remote_interface =>
          '(st1, log1) <- (if delete_cable
                           then delete_stale device st netbox_local_interface
                           else Ok (st, [])) ;;
          '(st2, log2) <- create_cable_on device st1 netbox_local_interface
                                          netbox_remote_interface ;;
          Ok (st2, log1 ++ log2)
      end
  end.

(** Lines 102-177 *)
Definition reconcile_on (show : bool) (device : Device) (st : Store)
           (local_interface_name remote_device_name remote_interface_name : string)
  : result (Store * list message) :=
  match Interface_get st (dev_id device) local_interface_name with
  | Multiple => Raise MultipleObjectsReturned
  | NotFound =>
      Ok (st, if show
              then [LocalInterfaceMissing (dev_name device) local_interface_name]
              else [])
  | Found netbox_local_interface =>
      decision <- check_cable st netbox_local_interface
                              remote_device_name remote_interface_name ;;
      match decision with
      | None => Ok (st, [])
      | Some delete_cable =>
          connect_on show device st netbox_local_interface delete_cable
                     remote_device_name remote_interface_name
      end
  end.

(** Lines 96-177 *)
Fixpoint neighbors_loop_on (show : bool) (device : Device)
         (items : lldp_neighbors) (st : Store) (lldp_interface_names : list string)
  : result (Store * list string * list message) :=
  match items with
  | [] => Ok (st, lldp_interface_names, [])
  | (local_interface_name, remote_interface) :: rest =>
      first <- deref IndexError (hd_error remote_interface) ;;
      let remote_device_name := hostname first in
      let remote_interface_name := port first in
      let lldp_interface_names := lldp_interface_names ++ [local_interface_name] in
      '(st1, log1) <- reconcile_on show device st local_interface_name
                                   remote_device_name remote_interface_name ;;
      '(st2, names, log2) <- neighbors_loop_on show device rest st1
                                               lldp_interface_names ;;
      Ok (st2, names, log1 ++ log2)
  end.

(** Lines 92-178 *)
Definition run_device_on (show : bool) (st : Store) (device : Device)
           (napalm_lldp_neighbors : lldp_neighbors) : result (Store * list message) :=
  '(st1, lldp_interface_names, log1) <-
     neighbors_loop_on show device napalm_lldp_neighbors st [] ;;
  '(st2, log2) <- remove_old_cables st1 device lldp_interface_names ;;
  Ok (st2, log1 ++ log2).
End Platform.

Section Run.
Variable match_at : string -> string -> nat -> bool.
(** [napalm_call("get_lldp_neighbors", device.id, request)] *)
Variable napalm_call : nat -> lldp_neighbors.

Fixpoint run_devices (show : bool) (selected : list Device) (st : Store)
  : result (Store * list message) :=
  match selected with
  | [] => Ok (st, [])
  | device :: rest =>
      '(st1, log1) <- run_device show st device (napalm_call (dev_id device)) ;;
      '(st2, log2) <- run_devices show rest st1 ;;
      Ok (st2, log1 ++ log2)
  end.

(** [CableUpdate.run] *)
Definition run (d : data) (st : Store) : result (Store * list message) :=
  let selected := filter (fun x => Re.re_search match_at (device_name d) (dev_name x))
                         (devices st) in
  run_devices (non_existent d) selected st.
End Run.

End CableUpdate.

(** ** [scripts/interface_update.py] *)
Module InterfaceUpdate.
Import Netbox.

(** What [get_interfaces] reports of one interface.  A MAC address is a
    string or Python's [None]. *)
Record live : Type := mkLive {
  description : string;
  mac_address : option string
}.

(** [get_interfaces]: a dict keyed by interface name, in iteration order;
    [dict_get] is the subscript. *)
Definition snapshot : Type := list (string * live).

Fixpoint dict_get (d : snapshot) (key : string) : option live :=
  match d with
  | [] => None
  | (k, v) :: rest => if String.eqb k key then Some v else dict_get rest key
  end.

Definition keys (d : snapshot) : list string := map fst d.

(** The user input of the script. *)
Record data : Type := mkData {
  device_name : string;
  ignore_interfaces : string
}.

Inductive message : Type :=
| Created (device name : string)
| Updated (device name old_description new_description : string).

(** [mac_address == s] where the left side may be [None]. *)
Definition py_eq (v : option string) (s : string) : bool :=
  match v with
  | Some x => String.eqb x s
  | None => false
  end.

(** Lines 98-104 *)
Definition normalize_mac (mac_address : option string) : option string :=
  if py_eq mac_address "None"
     && py_eq mac_address "Unspecified"
     && py_eq mac_address ""
  then None
  else mac_address.

Section Run.
Variable match_at : string -> string -> nat -> bool.
(** [napalm_call("get_interfaces", device.id, request)] *)
Variable napalm_call : nat -> snapshot.

(** Lines 91-93: the blacklist test. *)
Definition ignored (pattern napalm_interface : string) : bool :=
  negb (String.eqb pattern "") && Re.re_match match_at pattern napalm_interface.

(** Lines 96-128: one interface that is not ignored. *)
Definition reconcile (device : Device) (napalm_interfaces : snapshot)
           (st : Store) (napalm_interface : string)
  : result (Store * list message) :=
  item <- deref KeyError (dict_get napalm_interfaces napalm_interface) ;;
  let napalm_description := description item in
  let mac_address := normalize_mac (mac_address item) in
  match Interface_get st (dev_id device) napalm_interface with
  | Multiple => Raise MultipleObjectsReturned
  | NotFound =>
      let '(st1, netbox_interface) :=
        Interface_create st (dev_id device) napalm_interface TYPE_OTHER
                         napalm_description mac_address in
      Ok (st1, [Created (dev_name device) (if_name netbox_interface)])
  | Found netbox_interface =>
      if negb (String.eqb (if_description netbox_interface) napalm_description)
      then
        let old_description := if_description netbox_interface in
        let st1 := Interface_save st (set_description netbox_interface
                                                      napalm_description) in
        Ok (st1, [Updated (dev_name device) (if_name netbox_interface)
                          old_description napalm_description])
      else Ok (st, [])
  end.

(** Lines 89-128: the loop over the names of the snapshot. *)
Fixpoint interfaces_loop (pattern : string) (device : Device)
         (napalm_interfaces : snapshot) (names : list string) (st : Store)
  : result (Store * list message) :=
  match names with
  | [] => Ok (st, [])
  | napalm_interface :: rest =>
      if ignored pattern napalm_interface
      then interfaces_loop pattern device napalm_interfaces rest st
      else
        '(st1, log1) <- reconcile device napalm_interfaces st napalm_interface ;;
        '(st2, log2) <- interfaces_loop pattern device napalm_interfaces rest st1 ;;
        Ok (st2, log1 ++ log2)
  end.

(** Lines 86-128: one device. *)
Definition run_device (pattern : string) (st : Store) (device : Device)
           (napalm_interfaces : snapshot) : result (Store * list message) :=
  interfaces_loop pattern device napalm_interfaces (keys napalm_interfaces) st.

Fixpoint run_devices (pattern : string) (selected : list Device) (st : Store)
  : result (Store * list message) :=
  match selected with
  | [] => Ok (st, [])
  | device :: rest =>
      '(st1, log1) <- run_device pattern st device (napalm_call (dev_id device)) ;;
      '(st2, log2) <- run_devices pattern rest st1 ;;
      Ok (st2, log1 ++ log2)
  end.

(** [InterfaceUpdate.run] *)
Definition run (d : data) (st : Store) : result (Store * list message) :=
  let selected := filter (fun x => Re.re_search match_at (device_name d) (dev_name x))
                         (devices st) in
  run_devices (ignore_interfaces d) selected st.
End Run.

End InterfaceUpdate.

(** ** Integrity of the store

    What the database and the platform keep true of the tables, as
    decidable checks. *)
Module Integrity.
Import Netbox.

Definition is_some {A : Type} (o : option A) : bool :=
  match o with
  | Some _ => true
  | None => false
  end.

Fixpoint nodupb (l : list nat) : bool :=
  match l with
  | [] => true
  | x :: rest => negb (existsb (Nat.eqb x) rest) && nodupb rest
  end.

(** Primary keys of interfaces are unique and below the next key. *)
Definition ids_ok (st : Store) : bool :=
  nodupb (map if_id (interfaces st))
  && forallb (fun i => Nat.ltb (if_id i) (next_interface_id st)) (interfaces st).

(** The references of one interface resolve: its device, and, when it has
    a cable, the cable and the peer. *)
Definition interface_refs_ok (st : Store) (i : Interface) : bool :=
  is_some (find_device st (if_device i))
  && match if_cable i with
     | None => true
     | Some cid =>
         is_some (find_cable st cid)
         && match if_cable_peer i with
            | Some p => is_some (find_interface st p)
            | None => false
            end
     end.

(** Both ends of a cable resolve and its key is below the next key. *)
Definition cable_refs_ok (st : Store) (c : Cable) : bool :=
  is_some (find_interface st (termination_a_id c))
  && is_some (find_interface st (termination_b_id c))
  && Nat.ltb (cable_id c) (next_cable_id st).

(** Referential integrity, with unique primary keys of cables. *)
Definition refs_ok (st : Store) : bool :=
  forallb (interface_refs_ok st) (interfaces st)
  && forallb (cable_refs_ok st) (cables st)
  && nodupb (map cable_id (cables st)).

(** The data model's invariant: an interface is an end of at most one
    cable. *)
Definition one_cable_per_interface (st : Store) : bool :=
  forallb (fun i => Nat.leb (List.length (cables_of st (if_id i))) 1) (interfaces st).

(** The cable columns of an interface agree with the cable table. *)
Definition linked (st : Store) (i : Interface) : bool :=
  match if_cable i, if_cable_peer i, cables_of st (if_id i) with
  | None, None, [] => true
  | Some cid, Some p, [c] =>
      Nat.eqb (cable_id c) cid
      && ((Nat.eqb (termination_a_id c) (if_id i) && Nat.eqb (termination_b_id c) p)
          || (Nat.eqb (termination_b_id c) (if_id i) && Nat.eqb (termination_a_id c) p))
  | _, _, _ => false
  end.

Fixpoint distinct (l : list string) : bool :=
  match l with
  | [] => true
  | x :: rest => negb (existsb (String.eqb x) rest) && distinct rest
  end.

(** Names identify devices, and interfaces within a device. *)
Definition names_ok (st : Store) : bool :=
  distinct (map dev_name (devices st))
  && forallb (fun d => distinct (map if_name
                (filter (fun i => Nat.eqb (if_device i) (dev_id d)) (interfaces st))))
             (devices st).

(** The device has no interface yet. *)
Definition no_interfaces (st : Store) (device : nat) : bool :=
  forallb (fun i => negb (Nat.eqb (if_device i) device)) (interfaces st).

(** A store as the data model describes it. *)
Definition store_wf (st : Store) : bool :=
  nodupb (map dev_id (devices st))
  && ids_ok st
  && refs_ok st
  && names_ok st
  && forallb (linked st) (interfaces st)
  && one_cable_per_interface st.

End Integrity.

(** ** Statements about the scripts, as predicates *)
Module Statements.
Import Netbox.

(** Same row but for the description. *)
Definition same_but_description (r r' : Interface) : Prop :=
  if_id r' = if_id r /\ if_device r' = if_device r /\ if_name r' = if_name r
  /\ if_type r' = if_type r /\ if_mac_address r' = if_mac_address r
  /\ if_cable r' = if_cable r /\ if_cable_peer r' = if_cable_peer r.

(** The far end of an interface's cable: name of the peer and name of the
    peer's device. *)
Definition far_end (st : Store) (i : Interface) : option (string * string) :=
  match if_cable_peer i with
  | None => None
  | Some p =>
      match find_interface st p with
      | None => None
      | Some peer =>
          match find_device st (if_device peer) with
          | None => None
          | Some d => Some (if_name peer, dev_name d)
          end
      end
  end.

(** The remote end of a neighbour entry does not resolve. *)
Definition remote_unresolved (st : Store) (remote_device_name remote_interface_name : string)
  : Prop :=
  Device_get st remote_device_name = NotFound
  \/ exists remote_device,
       Device_get st remote_device_name = Found remote_device
       /\ Interface_get st (dev_id remote_device) remote_interface_name = NotFound.

(** The entries of a snapshot whose name the blacklist test lets through. *)
Definition kept (match_at : string -> string -> nat -> bool) (pattern : string)
           (napalm_interfaces : InterfaceUpdate.snapshot) : InterfaceUpdate.snapshot :=
  filter (fun kv => negb (InterfaceUpdate.ignored match_at pattern (fst kv)))
         napalm_interfaces.

(** The interfaces a device with none gets from a snapshot: one per entry,
    numbered from [n]. *)
Fixpoint fresh_interfaces (device n : nat) (entries : InterfaceUpdate.snapshot)
  : list Interface :=
  match entries with
  | [] => []
  | (name, item) :: rest =>
      mkInterface n device name TYPE_OTHER (InterfaceUpdate.description item)
                  (InterfaceUpdate.mac_address item) None None
      :: fresh_interfaces device (S n) rest
  end.

(** The loop of the interface script without the blacklist test. *)
Fixpoint process_all (device : Device) (napalm_interfaces : InterfaceUpdate.snapshot)
         (names : list string) (st : Store)
  : result (Store * list InterfaceUpdate.message) :=
  match names with
  | [] => Ok (st, [])
  | napalm_interface :: rest =>
      '(st1, log1) <- InterfaceUpdate.reconcile device napalm_interfaces st
                                               napalm_interface ;;
      '(st2, log2) <- process_all device napalm_interfaces rest st1 ;;
      Ok (st2, log1 ++ log2)
  end.

(** One name of a snapshot is in step with the store: it is the name of
    one interface of the device, and that interface has the live
    description. *)
Definition in_step (napalm_interfaces : InterfaceUpdate.snapshot) (device : nat)
           (name : string) (st : Store) : Prop :=
  exists item i,
    InterfaceUpdate.dict_get napalm_interfaces name = Some item
    /\ Interface_get st device name = Found i
    /\ if_description i = InterfaceUpdate.description item.

(** The device's interfaces agree with a snapshot: every name that is not
    ignored is in step. *)
Definition synced (match_at : string -> string -> nat -> bool) (pattern : string)
           (napalm_interfaces : InterfaceUpdate.snapshot) (st : Store) (device : nat)
  : Prop :=
  forall name, In name (InterfaceUpdate.keys napalm_interfaces) ->
    InterfaceUpdate.ignored match_at pattern name = false ->
    in_step napalm_interfaces device name st.

(** The "updated" lines of a log. *)
Definition updated (m : InterfaceUpdate.message) : bool :=
  match m with
  | InterfaceUpdate.Updated _ _ _ _ => true
  | InterfaceUpdate.Created _ _ => false
  end.

(** Every row of the interface table is still there, the same but for its
    description. *)
Definition rows_kept (st st' : Store) : Prop :=
  forall i, In i (interfaces st) ->
    exists i', In i' (interfaces st') /\ same_but_description i i'.

(** What the interface script does to the store while it works on one
    device with one snapshot: keys stay unique, devices and cables stay,
    rows are kept, and whatever was in step stays in step, whether of
    another device or of this snapshot. *)
Definition advance (napalm_interfaces : InterfaceUpdate.snapshot) (device : nat)
           (st st' : Store) : Prop :=
  Integrity.ids_ok st' = true
  /\ devices st' = devices st
  /\ cables st' = cables st
  /\ rows_kept st st'
  /\ forall snap' device' name',
       in_step snap' device' name' st ->
       device' <> device \/ snap' = napalm_interfaces ->
       in_step snap' device' name' st'.

(** The same over a run on several devices, each with the snapshot that
    [napalm_call] gives for it. *)
Definition advance_all (napalm_call : nat -> InterfaceUpdate.snapshot)
           (st st' : Store) : Prop :=
  Integrity.ids_ok st' = true
  /\ devices st' = devices st
  /\ cables st' = cables st
  /\ rows_kept st st'
  /\ forall device' name',
       in_step (napalm_call device') device' name' st ->
       in_step (napalm_call device') device' name' st'.

(** "The cleanup pass never deletes the cable of an interface whose name
    appeared in the neighbour report." *)
Definition cleanup_spares_reported : Prop :=
  forall show st device items st1 names log1 st2 log2 i cid,
    CableUpdate.neighbors_loop show device items st [] = Ok (st1, names, log1) ->
    CableUpdate.remove_old_cables st1 device names = Ok (st2, log2) ->
    In i (interfaces st1) -> if_device i = dev_id device ->
    In (if_name i) (map fst items) ->
    if_cable i = Some cid -> is_true (Integrity.is_some (find_cable st1 cid)) ->
    is_true (Integrity.is_some (find_cable st2 cid)).

(** A store that accepts a cable has inserted it between two interfaces
    that were both free. *)
Definition accepting (save : Store -> nat -> nat -> result Store) : Prop :=
  forall st a b st',
    save st a b = Ok st' ->
    st' = Cable_save st a b /\ cables_of st a = [] /\ cables_of st b = [].

(** The store has refused a cable with exception [e]. *)
Definition refused (save : Store -> nat -> nat -> result Store) (e : exn) : Prop :=
  exists st a b, save st a b = Raise e.

(** Both ends of every cable have a name and a device name. *)
Definition ends_resolve (st : Store) : Prop :=
  forall c, In c (cables st) ->
    (exists n, CableUpdate.end_names st (termination_a_id c) = Ok n)
    /\ (exists n, CableUpdate.end_names st (termination_b_id c) = Ok n).

(** The lines of the cable script that report a write. *)
Definition success (m : CableUpdate.message) : bool :=
  match CableUpdate.level_of m with
  | CableUpdate.Success => true
  | _ => false
  end.

(** A result with the warnings and notes taken out of its log. *)
Definition quiet (r : result (Store * list CableUpdate.message))
  : result (Store * list CableUpdate.message) :=
  match r with
  | Ok (st, log) => Ok (st, filter success log)
  | Raise e => Raise e
  end.

(** An interface row without its cable columns. *)
Definition uncabled (i : Interface) : Interface := set_cable i None None.

(** Every entry of a neighbour report names at least one neighbour. *)
Definition every_entry_has_neighbor (report : CableUpdate.lldp_neighbors) : bool :=
  forallb (fun item => match snd item with [] => false | _ :: _ => true end) report.

(** A neighbour entry is right in the store: its local interface resolves
    and has a cable whose far end is the neighbour reported first. *)
Definition entry_right (st : Store) (device : Device)
           (item : string * list CableUpdate.Neighbor) : bool :=
  match snd item with
  | [] => false
  | first :: _ =>
      match Interface_get st (dev_id device) (fst item) with
      | Found li =>
          match if_cable li, far_end st li with
          | Some _, Some (n, d) =>
              String.eqb n (CableUpdate.port first)
              && String.eqb d (CableUpdate.hostname first)
          | _, _ => false
          end
      | NotFound => false
      | Multiple => false
      end
  end.

(** The cables of a device are as a report says: every entry is right, and
    no interface of the device with a cable goes unreported. *)
Definition agrees (st : Store) (device : Device)
           (report : CableUpdate.lldp_neighbors) : bool :=
  forallb (entry_right st device) report
  && match CableUpdate.old_cable_interfaces st device (map fst report) with
     | [] => true
     | _ :: _ => false
     end.

(** Lines of the cable script that report a deletion, and a creation. *)
Definition deletion (m : CableUpdate.message) : bool :=
  match m with
  | CableUpdate.DeletingStaleCable _ _ _ _ _ => true
  | CableUpdate.DeletingOldCable _ _ _ _ _ => true
  | _ => false
  end.

Definition creation (m : CableUpdate.message) : bool :=
  match m with
  | CableUpdate.CreatingCable _ _ _ _ _ => true
  | _ => false
  end.

(** A cable that is in the store under a key below the next key and that no
    interface of the device holds. *)
Definition foreign (st : Store) (device : nat) (cid : nat) (c : Cable) : Prop :=
  cid < next_cable_id st
  /\ find_cable st cid = Some c
  /\ forall i, In i (interfaces st) -> if_cable i = Some cid -> if_device i <> device.

(** The "created" lines of a log. *)
Definition created (m : InterfaceUpdate.message) : bool :=
  match m with
  | InterfaceUpdate.Created _ _ => true
  | InterfaceUpdate.Updated _ _ _ _ => false
  end.

(** No lookup of an interface of a device of the store is ambiguous. *)
Definition unambiguous (st : Store) : Prop :=
  forall d name, In d (devices st) -> Interface_get st (dev_id d) name <> Multiple.

End Statements.

(** ** Inventories to run the scripts on *)
Module Examples.
Import Netbox.

Definition D : Device := mkDevice 1 "D".
Definition E : Device := mkDevice 2 "E".
Definition F : Device := mkDevice 3 "F".

Definition iface (id device : nat) (name description : string)
           (link : option (nat * nat)) : Interface :=
  mkInterface id device name TYPE_OTHER description None
              (option_map fst link) (option_map snd link).

(** D's eth0 is cabled to E's eth1; F's eth2 is free. *)
Definition cabled_to_E : Store :=
  mkStore [D; E; F]
          [iface 1 1 "eth0" "uplink" (Some (1, 2));
           iface 2 2 "eth1" "" (Some (1, 1));
           iface 3 3 "eth2" "" None]
          [mkCable 1 1 2]
          4 2.

(** D's eth0 is free; F's eth2 is cabled to E's eth1, F's side being
    termination A. *)
Definition remote_taken : Store :=
  mkStore [D; E; F]
          [iface 1 1 "eth0" "" None;
           iface 2 2 "eth1" "" (Some (1, 3));
           iface 3 3 "eth2" "" (Some (1, 2))]
          [mkCable 1 3 2]
          4 2.

(** D's eth0 is cabled to E's eth1 and D's eth7 to F's eth2. *)
Definition two_links : Store :=
  mkStore [D; E; F]
          [iface 1 1 "eth0" "" (Some (1, 2));
           iface 2 2 "eth1" "" (Some (1, 1));
           iface 3 3 "eth2" "" (Some (2, 4));
           iface 4 1 "eth7" "" (Some (2, 3))]
          [mkCable 1 1 2; mkCable 2 4 3]
          5 3.

(** [two_links] without the second cable. *)
Definition one_link : Store :=
  mkStore [D; E; F]
          [iface 1 1 "eth0" "" (Some (1, 2));
           iface 2 2 "eth1" "" (Some (1, 1));
           iface 3 3 "eth2" "" None;
           iface 4 1 "eth7" "" None]
          [mkCable 1 1 2]
          5 3.

(** D's eth0 and eth1 are cabled to each other. *)
Definition looped : Store :=
  mkStore [D]
          [iface 1 1 "eth0" "" (Some (1, 2));
           iface 2 1 "eth1" "" (Some (1, 1))]
          [mkCable 1 1 2]
          3 2.

(** D without interfaces. *)
Definition bare : Store := mkStore [D] [] [] 1 1.

Definition report (local_interface remote_device remote_interface : string)
  : CableUpdate.lldp_neighbors :=
  [(local_interface, [CableUpdate.mkNeighbor remote_device remote_interface])].

Definition eth0_up : InterfaceUpdate.snapshot :=
  [("eth0", InterfaceUpdate.mkLive "up" (Some "AA:BB:CC:DD:EE:FF"))].

Definition two_ports : InterfaceUpdate.snapshot :=
  [("eth0", InterfaceUpdate.mkLive "up" (Some "AA:BB:CC:DD:EE:FF"));
   ("Vlan10", InterfaceUpdate.mkLive "mgmt" (Some "None"));
   ("eth5", InterfaceUpdate.mkLive "" None)].

(** The live interfaces of D; no other device answers. *)
Definition live_D (device : nat) : InterfaceUpdate.snapshot :=
  if Nat.eqb device 1 then two_ports else [].

Definition update_D : InterfaceUpdate.data := InterfaceUpdate.mkData "D" "Vlan".

End Examples.

(** * Properties *)

Import Netbox Integrity Statements.

(** ** The interface script: MAC addresses and the blacklist *)

Lemma py_eq_true (v : option string) (s : string) :
  InterfaceUpdate.py_eq v s = true <-> v = Some s.
Proof.
  destruct v as [x|]; simpl.
  - rewrite String.eqb_eq. split; congruence.
  - split; discriminate.
Qed.

Lemma mac_test_false (v : option string) :
  InterfaceUpdate.py_eq v "None" && InterfaceUpdate.py_eq v "Unspecified"
  && InterfaceUpdate.py_eq v "" = false.
Proof.
  destruct (InterfaceUpdate.py_eq v "None") eqn:E1; [|reflexivity].
  destruct (InterfaceUpdate.py_eq v "Unspecified") eqn:E2; [|reflexivity].
  apply py_eq_true in E1. apply py_eq_true in E2. congruence.
Qed.

Lemma normalize_mac_same (v : option string) : InterfaceUpdate.normalize_mac v = v.
Proof. unfold InterfaceUpdate.normalize_mac. now rewrite mac_test_false. Qed.

(** C2: the MAC address test of the interface script is never true, so
    [normalize_mac] returns every value as it came, the strings "None",
    "Unspecified" and "" included, and an interface that the script creates
    stores the MAC address of the snapshot. *)
Theorem mac_normalization_never_triggers :
  (forall v, InterfaceUpdate.py_eq v "None" && InterfaceUpdate.py_eq v "Unspecified"
             && InterfaceUpdate.py_eq v "" = false)
  /\ (forall v, InterfaceUpdate.normalize_mac v = v)
  /\ InterfaceUpdate.normalize_mac (Some "None") = Some "None"
  /\ InterfaceUpdate.normalize_mac (Some "Unspecified") = Some "Unspecified"
  /\ InterfaceUpdate.normalize_mac (Some "") = Some ""
  /\ (forall device snap st name item,
        InterfaceUpdate.dict_get snap name = Some item ->
        Interface_get st (dev_id device) name = NotFound ->
        exists st1 i,
          InterfaceUpdate.reconcile device snap st name
            = Ok (st1, [InterfaceUpdate.Created (dev_name device) name])
          /\ interfaces st1 = interfaces st ++ [i]
          /\ if_mac_address i = InterfaceUpdate.mac_address item).
Proof.
  pose proof normalize_mac_same as N.
  repeat split; try apply N.
  - apply mac_test_false.
  - intros device snap st name item Hget Hnone.
    unfold InterfaceUpdate.reconcile. rewrite Hget. simpl. rewrite Hnone.
    eexists. eexists. split; [reflexivity|]. split; [reflexivity|]. simpl. apply N.
Qed.

Lemma ignored_empty (match_at : string -> string -> nat -> bool) (name : string) :
  InterfaceUpdate.ignored match_at "" name = false.
Proof. reflexivity. Qed.

(** C10: with the empty pattern the blacklist test is false for every name,
    whatever the regex engine answers, and the loop of the interface script
    is the loop that reconciles every name of the snapshot; the test in
    general asks the engine only for a non-empty pattern, and then for a
    match at position 0 of the name. *)
Theorem empty_pattern_ignores_nothing (match_at : string -> string -> nat -> bool) :
  (forall name, InterfaceUpdate.ignored match_at "" name = false)
  /\ (forall device snap names st,
        InterfaceUpdate.interfaces_loop match_at "" device snap names st
        = process_all device snap names st)
  /\ (forall device snap st,
        InterfaceUpdate.run_device match_at "" st device snap
        = process_all device snap (InterfaceUpdate.keys snap) st)
  /\ (forall pattern name,
        InterfaceUpdate.ignored match_at pattern name
        = negb (String.eqb pattern "") && match_at pattern name 0).
Proof.
  assert (L : forall device snap names st,
             InterfaceUpdate.interfaces_loop match_at "" device snap names st
             = process_all device snap names st).
  { intros device snap names. induction names as [|n rest IH]; intro st.
    - reflexivity.
    - simpl. destruct (InterfaceUpdate.reconcile device snap st n) as [[st1 log1]|e];
        simpl; [|reflexivity].
      now rewrite IH. }
  repeat split.
  - exact L.
  - intros. apply L.
Qed.

(** ** The cable script on two inventories *)

(** What [Cable_save] alone would do on [remote_taken]: D's eth0 is free and
    LLDP reports it connected to F's eth2, which is cabled to E's eth1.  The
    entry looks at the cable of the local interface only, so if the store
    accepted the new cable, F's eth2 would be an end of two cables.  That it
    is not is the store's doing: see [occupied_remote_end_is_refused]. *)
Lemma remote_end_gets_second_cable :
  store_wf Examples.remote_taken = true
  /\ exists st' log,
       CableUpdate.run_device false Examples.remote_taken Examples.D
                              (Examples.report "eth0" "F" "eth2")
       = Ok (st', log)
       /\ log = [CableUpdate.CreatingCable "D" "eth0" "D" "eth2" "F"]
       /\ cables st' = [mkCable 1 3 2; mkCable 2 1 3]
       /\ cables_of st' 3 = [mkCable 1 3 2; mkCable 2 1 3]
       /\ one_cable_per_interface st' = false.
Proof.
  split; [reflexivity|].
  eexists. eexists. split; [vm_compute; reflexivity|].
  repeat split.
Qed.

(** C9, as stated, fails: in [looped] LLDP reports eth0 connected to D's
    eth1, the cable is found right, and the cleanup pass deletes it as the
    cable of eth1, which the report does not name. *)
Lemma cleanup_deletes_reported_cable : ~ cleanup_spares_reported.
Proof.
  intro H.
  specialize (H false Examples.looped Examples.D (Examples.report "eth0" "D" "eth1")
                Examples.looped ["eth0"] []
                (mkStore [Examples.D]
                         [Examples.iface 1 1 "eth0" "" None;
                          Examples.iface 2 1 "eth1" "" None]
                         [] 3 2)
                [CableUpdate.DeletingOldCable "D" "eth0" "D" "eth1" "D"]
                (Examples.iface 1 1 "eth0" "" (Some (1, 2))) 1).
  assert (X : is_true (is_some (@None Cable))).
  { apply H; try reflexivity; simpl; auto. }
  discriminate X.
Qed.

(** ** Lookups *)

Lemma objects_get_found {A : Type} (p : A -> bool) (rows : list A) (x : A) :
  objects_get p rows = Found x -> In x rows /\ p x = true.
Proof.
  unfold objects_get. intro H.
  destruct (filter p rows) as [|y [|z l]] eqn:E; try discriminate.
  injection H as ->. apply filter_In. rewrite E. now left.
Qed.

Lemma Interface_get_found (st : Store) (device : nat) (name : string) (i : Interface) :
  Interface_get st device name = Found i ->
  In i (interfaces st) /\ if_device i = device /\ if_name i = name.
Proof.
  intro H. apply objects_get_found in H. destruct H as [Hin Hp].
  apply andb_true_iff in Hp. destruct Hp as [Hd Hn].
  apply Nat.eqb_eq in Hd. apply String.eqb_eq in Hn. auto.
Qed.

Lemma find_interface_some (st : Store) (id : nat) (i : Interface) :
  find_interface st id = Some i -> In i (interfaces st) /\ if_id i = id.
Proof.
  intro H. apply find_some in H. destruct H as [Hin Hid].
  apply Nat.eqb_eq in Hid. auto.
Qed.

Lemma find_cable_some (st : Store) (id : nat) (c : Cable) :
  find_cable st id = Some c -> In c (cables st) /\ cable_id c = id.
Proof.
  intro H. apply find_some in H. destruct H as [Hin Hid].
  apply Nat.eqb_eq in Hid. auto.
Qed.

Lemma find_append {A : Type} (p : A -> bool) (l1 l2 : list A) :
  find p (l1 ++ l2) = match find p l1 with
                      | Some x => Some x
                      | None => find p l2
                      end.
Proof.
  induction l1 as [|x l1 IH]; simpl; [reflexivity|].
  destruct (p x); [reflexivity|exact IH].
Qed.

Lemma is_some_true {A : Type} (o : option A) :
  is_some o = true -> exists a, o = Some a.
Proof. destruct o as [a|]; [eauto|discriminate]. Qed.

(** ** Referential integrity at work *)

Lemma refs_ok_interface (st : Store) (i : Interface) :
  refs_ok st = true -> In i (interfaces st) -> interface_refs_ok st i = true.
Proof.
  unfold refs_ok. intros H Hin.
  apply andb_true_iff in H. destruct H as [H _].
  apply andb_true_iff in H. destruct H as [H _].
  rewrite forallb_forall in H. auto.
Qed.

Lemma refs_ok_cable (st : Store) (c : Cable) :
  refs_ok st = true -> In c (cables st) -> cable_refs_ok st c = true.
Proof.
  unfold refs_ok. intros H Hin.
  apply andb_true_iff in H. destruct H as [H _].
  apply andb_true_iff in H. destruct H as [_ H].
  rewrite forallb_forall in H. auto.
Qed.

Lemma refs_ok_device (st : Store) (i : Interface) :
  refs_ok st = true -> In i (interfaces st) ->
  exists d, find_device st (if_device i) = Some d.
Proof.
  intros H Hin. pose proof (refs_ok_interface st i H Hin) as R.
  unfold interface_refs_ok in R. apply andb_true_iff in R.
  destruct R as [R _]. now apply is_some_true.
Qed.

Lemma refs_ok_link (st : Store) (i : Interface) (cid : nat) :
  refs_ok st = true -> In i (interfaces st) -> if_cable i = Some cid ->
  exists c p peer,
    find_cable st cid = Some c /\ if_cable_peer i = Some p
    /\ find_interface st p = Some peer.
Proof.
  intros H Hin Hc. pose proof (refs_ok_interface st i H Hin) as R.
  unfold interface_refs_ok in R. rewrite Hc in R.
  apply andb_true_iff in R. destruct R as [_ R].
  apply andb_true_iff in R. destruct R as [R1 R2].
  apply is_some_true in R1. destruct R1 as [c R1].
  destruct (if_cable_peer i) as [p|]; [|discriminate].
  apply is_some_true in R2. destruct R2 as [peer R2].
  exists c, p, peer. auto.
Qed.

Lemma refs_ok_cable_id (st : Store) (cid : nat) (c : Cable) :
  refs_ok st = true -> find_cable st cid = Some c -> cid < next_cable_id st.
Proof.
  intros H Hf. apply find_cable_some in Hf. destruct Hf as [Hin <-].
  pose proof (refs_ok_cable st c H Hin) as R. unfold cable_refs_ok in R.
  apply andb_true_iff in R. destruct R as [_ R]. now apply Nat.ltb_lt.
Qed.

(** With referential integrity the comparison of lines 114-124 returns. *)
Lemma check_cable_returns (st : Store) (li : Interface) (rdev rname : string) :
  refs_ok st = true -> In li (interfaces st) ->
  exists decision,
    CableUpdate.check_cable st li rdev rname = Ok decision
    /\ (if_cable li = None -> decision = Some false)
    /\ (forall cid, if_cable li = Some cid ->
          decision = if match far_end st li with
                        | Some (n, d) => String.eqb n rname && String.eqb d rdev
                        | None => false
                        end
                     then None else Some true).
Proof.
  intros H Hin. unfold CableUpdate.check_cable, CableUpdate.cable_of.
  destruct (if_cable li) as [cid|] eqn:Hc.
  - destruct (refs_ok_link st li cid H Hin Hc) as (c & p & peer & Hfc & Hp & Hfp).
    destruct (find_interface_some st p peer Hfp) as [Hpin _].
    destruct (refs_ok_device st peer H Hpin) as [pd Hpd].
    rewrite Hfc. simpl. unfold CableUpdate.cable_peer. rewrite Hp. simpl.
    rewrite Hfp. simpl. unfold far_end. rewrite Hp, Hfp, Hpd.
    unfold CableUpdate.device_of. rewrite Hpd. simpl.
    destruct (String.eqb (if_name peer) rname); simpl.
    + destruct (String.eqb (dev_name pd) rdev); eexists; (split; [reflexivity|]);
        (split; [discriminate|intros; reflexivity]).
    + eexists. split; [reflexivity|]. split; [discriminate|intros; reflexivity].
  - simpl. eexists. split; [reflexivity|]. split; [reflexivity|discriminate].
Qed.

(** ** One neighbour entry *)

(** C4: when the remote device or the remote interface of a neighbour entry
    does not resolve, the entry leaves the store as it was, whatever cable
    the local interface has; nothing is logged when warnings are off, and
    otherwise no line of a deletion or creation; the loop goes on with the
    next entry from the same store. *)
Theorem unresolved_remote_is_skipped
        (show : bool) (device : Device) (st : Store)
        (local_interface_name remote_device_name remote_interface_name : string) :
  refs_ok st = true ->
  Interface_get st (dev_id device) local_interface_name <> Multiple ->
  remote_unresolved st remote_device_name remote_interface_name ->
  exists log,
    CableUpdate.reconcile show device st local_interface_name
                          remote_device_name remote_interface_name = Ok (st, log)
    /\ (show = false -> log = [])
    /\ Forall (fun m => CableUpdate.level_of m <> CableUpdate.Success) log
    /\ forall others rest names,
         CableUpdate.neighbors_loop show device
           ((local_interface_name,
             CableUpdate.mkNeighbor remote_device_name remote_interface_name :: others)
            :: rest) st names
         = ('(st2, names2, log2) <-
              CableUpdate.neighbors_loop show device rest st
                                         (names ++ [local_interface_name]) ;;
            Ok (st2, names2, log ++ log2)).
Proof.
  intros Hrefs Hmult Hremote.
  assert (R : exists log,
             CableUpdate.reconcile show device st local_interface_name
                                   remote_device_name remote_interface_name = Ok (st, log)
             /\ (show = false -> log = [])
             /\ Forall (fun m => CableUpdate.level_of m <> CableUpdate.Success) log).
  { unfold CableUpdate.reconcile.
    destruct (Interface_get st (dev_id device) local_interface_name) as [li| |] eqn:Hl.
    - apply Interface_get_found in Hl. destruct Hl as [Hin _].
      destruct (check_cable_returns st li remote_device_name remote_interface_name
                                    Hrefs Hin) as (decision & Hd & _).
      rewrite Hd. simpl. destruct decision as [delete_cable|].
      + unfold CableUpdate.connect.
        destruct Hremote as [Hdev|(rd & Hdev & Hif)].
        * rewrite Hdev. eexists. split; [reflexivity|].
          destruct show; split; try discriminate; try reflexivity;
            repeat constructor; simpl; discriminate.
        * rewrite Hdev, Hif. eexists. split; [reflexivity|].
          destruct show; split; try discriminate; try reflexivity;
            repeat constructor; simpl; discriminate.
      + exists []. repeat split. constructor.
    - eexists. split; [reflexivity|].
      destruct show; split; try discriminate; try reflexivity;
        repeat constructor; simpl; discriminate.
    - contradiction. }
  destruct R as (log & Hrec & Hquiet & Hlevel).
  exists log. repeat split; try assumption.
  intros others rest names. simpl. rewrite Hrec. simpl.
  destruct (CableUpdate.neighbors_loop show device rest st
                                       (names ++ [local_interface_name]))
    as [[[st2 names2] log2]|e]; reflexivity.
Qed.

Lemma unresolved_remote_is_skipped_example :
  exists log,
    CableUpdate.reconcile false Examples.D Examples.cabled_to_E "eth0" "X" "eth9"
    = Ok (Examples.cabled_to_E, log)
    /\ (false = false -> log = [])
    /\ Forall (fun m => CableUpdate.level_of m <> CableUpdate.Success) log
    /\ forall others rest names,
         CableUpdate.neighbors_loop false Examples.D
           (("eth0", CableUpdate.mkNeighbor "X" "eth9" :: others) :: rest)
           Examples.cabled_to_E names
         = ('(st2, names2, log2) <-
              CableUpdate.neighbors_loop false Examples.D rest Examples.cabled_to_E
                                         (names ++ ["eth0"]) ;;
            Ok (st2, names2, log ++ log2)).
Proof.
  apply (unresolved_remote_is_skipped false Examples.D Examples.cabled_to_E
                                      "eth0" "X" "eth9").
  - reflexivity.
  - simpl. discriminate.
  - left. reflexivity.
Defined.

(** C3: the local interface resolves and has a cable whose far end is not
    the reported remote, and the remote device and interface resolve.  Then
    the entry deletes the old cable and after that creates the cable between
    the local and the remote interface, and logs two lines, the deletion
    first and the creation second; the old cable is gone from the store and
    the new one is in it. *)
Theorem stale_cable_is_replaced
        (show : bool) (device : Device) (st : Store)
        (local_interface_name remote_device_name remote_interface_name : string)
        (li ri : Interface) (rd : Device) (cid : nat) :
  refs_ok st = true ->
  Interface_get st (dev_id device) local_interface_name = Found li ->
  if_cable li = Some cid ->
  far_end st li <> Some (remote_interface_name, remote_device_name) ->
  Device_get st remote_device_name = Found rd ->
  Interface_get st (dev_id rd) remote_interface_name = Found ri ->
  exists local_device peer peer_device remote_device st',
    find_device st (if_device li) = Some local_device
    /\ far_end st li = Some (peer, peer_device)
    /\ find_device st (if_device ri) = Some remote_device
    /\ st' = Cable_save (Cable_delete st cid) (if_id li) (if_id ri)
    /\ CableUpdate.reconcile show device st local_interface_name
                             remote_device_name remote_interface_name
       = Ok (st',
             [CableUpdate.DeletingStaleCable (dev_name device)
                local_interface_name (dev_name local_device) peer peer_device;
              CableUpdate.CreatingCable (dev_name device)
                local_interface_name (dev_name local_device)
                remote_interface_name (dev_name remote_device)])
    /\ find_cable st' cid = None
    /\ find_cable st' (next_cable_id st)
       = Some (mkCable (next_cable_id st) (if_id li) (if_id ri)).
Proof.
  intros Hrefs Hl Hc Hfar Hrd Hri.
  destruct (Interface_get_found _ _ _ _ Hl) as (Hlin & _ & Hlname).
  destruct (Interface_get_found _ _ _ _ Hri) as (Hrin & _ & Hrname).
  destruct (refs_ok_link st li cid Hrefs Hlin Hc) as (c & p & peer & Hfc & Hp & Hfp).
  destruct (find_interface_some st p peer Hfp) as [Hpin _].
  destruct (refs_ok_device st peer Hrefs Hpin) as [pd Hpd].
  destruct (refs_ok_device st li Hrefs Hlin) as [ld Hld].
  destruct (refs_ok_device st ri Hrefs Hrin) as [rd' Hrd'].
  assert (Hfe : far_end st li = Some (if_name peer, dev_name pd)).
  { unfold far_end. now rewrite Hp, Hfp, Hpd. }
  exists ld, (if_name peer), (dev_name pd), rd', 
         (Cable_save (Cable_delete st cid) (if_id li) (if_id ri)).
  split; [assumption|]. split; [assumption|]. split; [assumption|].
  split; [reflexivity|].
  assert (Hnone : forall l,
             find (fun x => Nat.eqb (cable_id x) cid)
                  (filter (fun x => negb (Nat.eqb (cable_id x) cid)) l) = None).
  { induction l as [|x l IH]; simpl; [reflexivity|].
    destruct (Nat.eqb (cable_id x) cid) eqn:E; simpl; [exact IH|].
    rewrite E. exact IH. }
  pose proof (refs_ok_cable_id st cid c Hrefs Hfc) as Hlt.
  split; [|split].
  - unfold CableUpdate.reconcile. rewrite Hl.
    destruct (check_cable_returns st li remote_device_name remote_interface_name
                                  Hrefs Hlin) as (decision & Hd & _ & Hdec).
    rewrite Hd. simpl. rewrite (Hdec cid Hc), Hfe.
    assert (Hne : String.eqb (if_name peer) remote_interface_name
                  && String.eqb (dev_name pd) remote_device_name = false).
    { apply not_true_is_false. intro Heq. apply andb_true_iff in Heq.
      destruct Heq as [E1 E2]. apply String.eqb_eq in E1. apply String.eqb_eq in E2.
      apply Hfar. rewrite Hfe. congruence. }
    rewrite Hne. unfold CableUpdate.connect. rewrite Hrd, Hri.
    unfold CableUpdate.delete_stale. rewrite Hc. simpl.
    unfold CableUpdate.device_of, CableUpdate.cable_peer. simpl.
    unfold find_device in *. simpl. rewrite Hld. simpl. rewrite Hp. simpl.
    rewrite Hfp. simpl. rewrite Hpd. simpl.
    unfold CableUpdate.create_cable, CableUpdate.device_of, find_device. simpl.
    rewrite Hld. simpl. rewrite Hrd'. simpl.
    now rewrite Hlname, Hrname.
  - unfold find_cable. simpl. rewrite find_append, Hnone. simpl.
    destruct (Nat.eqb (next_cable_id st) cid) eqn:E; [|reflexivity].
    apply Nat.eqb_eq in E. lia.
  - unfold find_cable. simpl. rewrite find_append.
    assert (Hfresh : forall l,
               (forall x, In x l -> cable_id x < next_cable_id st) ->
               find (fun x => Nat.eqb (cable_id x) (next_cable_id st)) l = None).
    { induction l as [|x l IH]; simpl; intro Hall; [reflexivity|].
      destruct (Nat.eqb (cable_id x) (next_cable_id st)) eqn:E.
      - apply Nat.eqb_eq in E. specialize (Hall x (or_introl eq_refl)). lia.
      - apply IH. intros y Hy. apply Hall. now right. }
    rewrite Hfresh.
    + simpl. now rewrite Nat.eqb_refl.
    + intros x Hx. apply filter_In in Hx. destruct Hx as [Hx _].
      pose proof (refs_ok_cable st x Hrefs Hx) as R. unfold cable_refs_ok in R.
      apply andb_true_iff in R. destruct R as [_ R]. now apply Nat.ltb_lt.
Qed.

Lemma stale_cable_is_replaced_example :
  exists local_device peer peer_device remote_device st',
    find_device Examples.cabled_to_E 1 = Some local_device
    /\ far_end Examples.cabled_to_E (Examples.iface 1 1 "eth0" "uplink" (Some (1, 2)))
       = Some (peer, peer_device)
    /\ find_device Examples.cabled_to_E 3 = Some remote_device
    /\ st' = Cable_save (Cable_delete Examples.cabled_to_E 1) 1 3
    /\ CableUpdate.reconcile false Examples.D Examples.cabled_to_E "eth0" "F" "eth2"
       = Ok (st',
             [CableUpdate.DeletingStaleCable "D" "eth0" (dev_name local_device)
                                             peer peer_device;
              CableUpdate.CreatingCable "D" "eth0" (dev_name local_device)
                                        "eth2" (dev_name remote_device)])
    /\ find_cable st' 1 = None
    /\ find_cable st' 2 = Some (mkCable 2 1 3).
Proof.
  apply (stale_cable_is_replaced false Examples.D Examples.cabled_to_E
           "eth0" "F" "eth2"
           (Examples.iface 1 1 "eth0" "uplink" (Some (1, 2)))
           (Examples.iface 3 3 "eth2" "" None) Examples.F 1).
  - reflexivity.
  - reflexivity.
  - reflexivity.
  - simpl. discriminate.
  - reflexivity.
  - reflexivity.
Defined.

(** ** The cleanup pass *)

Lemma nodupb_NoDup (l : list nat) : nodupb l = true -> NoDup l.
Proof.
  induction l as [|x l IH]; simpl; intro H; constructor.
  - apply andb_true_iff in H. destruct H as [H _].
    apply negb_true_iff in H. intro Hin.
    assert (E : existsb (Nat.eqb x) l = true).
    { apply existsb_exists. exists x. split; [assumption|apply Nat.eqb_refl]. }
    congruence.
  - apply IH. apply andb_true_iff in H. tauto.
Qed.

Lemma NoDup_map_filter {A : Type} (f : A -> nat) (p : A -> bool) (l : list A) :
  NoDup (map f l) -> NoDup (map f (filter p l)).
Proof.
  induction l as [|x l IH]; simpl; intro H; [constructor|].
  inversion H as [|y m Hnot Hrest]; subst.
  destruct (p x); simpl; [constructor|]; auto.
  intro Hin. apply Hnot. apply in_map_iff in Hin. destruct Hin as (z & Hz & Hzin).
  apply in_map_iff. exists z. split; [assumption|].
  apply filter_In in Hzin. tauto.
Qed.

(** Deleting a cable that is in the table removes one row. *)
Lemma delete_removes_one (l : list Cable) (c : Cable) :
  NoDup (map cable_id l) -> In c l ->
  S (List.length (filter (fun x => negb (Nat.eqb (cable_id x) (cable_id c))) l))
  = List.length l.
Proof.
  induction l as [|x l IH]; simpl; intros Hnd Hin; [contradiction|].
  inversion Hnd as [|y m Hnot Hrest]; subst.
  destruct (Nat.eqb (cable_id x) (cable_id c)) eqn:E; simpl.
  - apply Nat.eqb_eq in E. f_equal. f_equal.
    assert (Hall : forall z, In z l ->
                     negb (Nat.eqb (cable_id z) (cable_id c)) = true).
    { intros z Hz. apply negb_true_iff. apply Nat.eqb_neq. intro Heq.
      apply Hnot. rewrite E, <- Heq. now apply in_map. }
    clear -Hall. induction l as [|z l IH]; simpl; [reflexivity|].
    rewrite (Hall z (or_introl eq_refl)). f_equal. apply IH.
    intros w Hw. apply Hall. now right.
  - f_equal. apply IH; [assumption|].
    destruct Hin as [->|Hin]; [|assumption].
    rewrite Nat.eqb_refl in E. discriminate.
Qed.

Lemma find_map_same {A : Type} (p : A -> bool) (f : A -> A) (l : list A) :
  (forall x, p (f x) = p x) -> find p (map f l) = option_map f (find p l).
Proof.
  intro H. induction l as [|x l IH]; simpl; [reflexivity|].
  rewrite H. destruct (p x); [reflexivity|exact IH].
Qed.

Lemma detach_id (cid : nat) (i : Interface) : if_id (detach cid i) = if_id i.
Proof. unfold detach. now destruct (holds_cable cid i). Qed.

Lemma detach_device (cid : nat) (i : Interface) :
  if_device (detach cid i) = if_device i.
Proof. unfold detach. now destruct (holds_cable cid i). Qed.

Lemma detach_name (cid : nat) (i : Interface) : if_name (detach cid i) = if_name i.
Proof. unfold detach. now destruct (holds_cable cid i). Qed.

(** Deleting a cable does not change what a cable end is called. *)
Lemma end_names_delete (st : Store) (cid id : nat) :
  CableUpdate.end_names (Cable_delete st cid) id = CableUpdate.end_names st id.
Proof.
  unfold CableUpdate.end_names, find_interface, CableUpdate.device_of, find_device.
  simpl. rewrite find_map_same.
  - destruct (find (fun i => Nat.eqb (if_id i) id) (interfaces st)) as [t|];
      simpl; [|reflexivity].
    now rewrite detach_device, detach_name.
  - intro x. now rewrite detach_id.
Qed.

Lemma end_names_returns (st : Store) (id : nat) :
  refs_ok st = true -> is_some (find_interface st id) = true ->
  exists n, CableUpdate.end_names st id = Ok n.
Proof.
  intros H Hs. apply is_some_true in Hs. destruct Hs as [t Ht].
  destruct (find_interface_some st id t Ht) as [Hin _].
  destruct (refs_ok_device st t H Hin) as [d Hd].
  unfold CableUpdate.end_names, CableUpdate.device_of. rewrite Ht. simpl.
  rewrite Hd. simpl. eauto.
Qed.

Lemma refs_ok_ends (st : Store) : refs_ok st = true -> ends_resolve st.
Proof.
  intros H c Hin. pose proof (refs_ok_cable st c H Hin) as R.
  unfold cable_refs_ok in R. apply andb_true_iff in R. destruct R as [R _].
  apply andb_true_iff in R. destruct R as [Ra Rb].
  split; now apply end_names_returns.
Qed.

Lemma ends_resolve_delete (st : Store) (cid : nat) :
  ends_resolve st -> ends_resolve (Cable_delete st cid).
Proof.
  intros H c Hin. simpl in Hin. apply filter_In in Hin. destruct Hin as [Hin _].
  rewrite !end_names_delete. now apply H.
Qed.

Lemma find_cable_delete_same (st : Store) (cid : nat) :
  find_cable (Cable_delete st cid) cid = None.
Proof.
  unfold find_cable. simpl. induction (cables st) as [|x l IH]; simpl; [reflexivity|].
  destruct (Nat.eqb (cable_id x) cid) eqn:E; simpl; [exact IH|].
  rewrite E. exact IH.
Qed.

Lemma find_cable_delete_other (st : Store) (cid other : nat) :
  other <> cid -> find_cable (Cable_delete st cid) other = find_cable st other.
Proof.
  intro Hne. unfold find_cable. simpl.
  induction (cables st) as [|x l IH]; simpl; [reflexivity|].
  destruct (Nat.eqb (cable_id x) cid) eqn:E; simpl.
  - apply Nat.eqb_eq in E.
    destruct (Nat.eqb (cable_id x) other) eqn:E2; [|exact IH].
    apply Nat.eqb_eq in E2. congruence.
  - destruct (Nat.eqb (cable_id x) other); [reflexivity|exact IH].
Qed.

Lemma find_cable_delete_none (st : Store) (cid other : nat) :
  find_cable st other = None -> find_cable (Cable_delete st cid) other = None.
Proof.
  intro H. destruct (Nat.eq_dec other cid) as [->|Hne].
  - apply find_cable_delete_same.
  - now rewrite find_cable_delete_other.
Qed.

(** The loop of the cleanup pass, on rows that all have a cable key. *)
Lemma remove_loop_returns (device : Device) (rows : list Interface) :
  forall st,
    ends_resolve st -> NoDup (map cable_id (cables st)) ->
    (forall r, In r rows -> if_cable r <> None) ->
    exists st' log,
      CableUpdate.remove_loop device rows st = Ok (st', log)
      /\ (forall r cid, In r rows -> if_cable r = Some cid -> find_cable st' cid = None)
      /\ (forall cid, find_cable st cid = None -> find_cable st' cid = None)
      /\ List.length log + List.length (cables st') = List.length (cables st)
      /\ Forall (fun m => exists a ad b bd,
                   m = CableUpdate.DeletingOldCable (dev_name device) a ad b bd) log.
Proof.
  induction rows as [|r rows IH]; intros st Hends Hnd Hrows.
  - exists st, []. simpl. repeat split; auto. intros r cid [].
  - simpl. destruct (if_cable r) as [cid|] eqn:Hc.
    2:{ exfalso. apply (Hrows r); [now left|assumption]. }
    assert (Hrows' : forall x, In x rows -> if_cable x <> None).
    { intros x Hx. apply Hrows. now right. }
    destruct (find_cable st cid) as [old|] eqn:Hf.
    + destruct (find_cable_some st cid old Hf) as [Hin Hid].
      destruct (Hends old Hin) as [[[a ad] Ha] [[b bd] Hb]].
      rewrite !end_names_delete, Ha, Hb. simpl.
      destruct (IH (Cable_delete st (cable_id old))
                   (ends_resolve_delete st _ Hends)
                   (NoDup_map_filter _ _ _ Hnd) Hrows')
        as (st' & log & Hrun & Hgone & Hmono & Hlen & Hmsg).
      rewrite Hrun. simpl. eexists. eexists. split; [reflexivity|].
      split; [|split; [|split]].
      * intros x c [<-|Hx] Hxc.
        -- apply Hmono. rewrite Hc in Hxc. injection Hxc as <-. rewrite Hid.
           apply find_cable_delete_same.
        -- now apply (Hgone x).
      * intros c Hnone. apply Hmono. now apply find_cable_delete_none.
      * simpl. rewrite <- (delete_removes_one (cables st) old Hnd Hin).
        simpl in Hlen. lia.
      * constructor; [|assumption]. eauto.
    + destruct (IH st Hends Hnd Hrows')
        as (st' & log & Hrun & Hgone & Hmono & Hlen & Hmsg).
      exists st', log. split; [assumption|]. split; [|auto].
      intros x c [<-|Hx] Hxc.
      * apply Hmono. rewrite Hc in Hxc. now injection Hxc as <-.
      * now apply (Hgone x).
Qed.

(** C5: on a store with referential integrity the cleanup pass returns;
    the cable of every interface of the device that has one and whose name
    is not among the reported names is gone afterwards; every line logged is
    a "deleting an old cable" line and there is one per row removed from the
    cable table; an interface whose cable is no longer in the store is passed
    over without a line. *)
Theorem cleanup_deletes_unreported
        (st : Store) (device : Device) (lldp_interface_names : list string) :
  refs_ok st = true ->
  exists st' log,
    CableUpdate.remove_old_cables st device lldp_interface_names = Ok (st', log)
    /\ (forall i cid,
          In i (interfaces st) -> if_device i = dev_id device ->
          if_cable i = Some cid -> ~ In (if_name i) lldp_interface_names ->
          find_cable st' cid = None)
    /\ Forall (fun m => exists a ad b bd,
                 m = CableUpdate.DeletingOldCable (dev_name device) a ad b bd) log
    /\ List.length log + List.length (cables st') = List.length (cables st)
    /\ (forall oc_interface rest cur cid,
          if_cable oc_interface = Some cid -> find_cable cur cid = None ->
          CableUpdate.remove_loop device (oc_interface :: rest) cur
          = CableUpdate.remove_loop device rest cur).
Proof.
  intro Hrefs. unfold CableUpdate.remove_old_cables.
  assert (Hnd : NoDup (map cable_id (cables st))).
  { apply nodupb_NoDup. unfold refs_ok in Hrefs.
    apply andb_true_iff in Hrefs. tauto. }
  destruct (remove_loop_returns device
              (CableUpdate.old_cable_interfaces st device lldp_interface_names) st
              (refs_ok_ends st Hrefs) Hnd)
    as (st' & log & Hrun & Hgone & _ & Hlen & Hmsg).
  { intros r Hr. apply filter_In in Hr. destruct Hr as [_ Hr].
    destruct (if_cable r); [discriminate|].
    rewrite andb_false_r in Hr. discriminate. }
  exists st', log. split; [assumption|]. split; [|split; [|split]]; try assumption.
  - intros i cid Hin Hdev Hc Hnot. apply (Hgone i); [|assumption].
    apply filter_In. split; [assumption|].
    rewrite Hc, Hdev, Nat.eqb_refl. simpl.
    apply negb_true_iff. apply not_true_is_false. intro Hex.
    apply existsb_exists in Hex. destruct Hex as (n & Hn & Heq).
    apply String.eqb_eq in Heq. now subst.
  - intros oc rest cur cid Hc Hnone. simpl. now rewrite Hc, Hnone.
Qed.

Lemma cleanup_deletes_unreported_example :
  exists st' log,
    CableUpdate.remove_old_cables Examples.cabled_to_E Examples.D [] = Ok (st', log)
    /\ (forall i cid,
          In i (interfaces Examples.cabled_to_E) -> if_device i = 1 ->
          if_cable i = Some cid -> ~ In (if_name i) [] ->
          find_cable st' cid = None)
    /\ Forall (fun m => exists a ad b bd,
                 m = CableUpdate.DeletingOldCable "D" a ad b bd) log
    /\ List.length log + List.length (cables st') = 1
    /\ (forall oc_interface rest cur cid,
          if_cable oc_interface = Some cid -> find_cable cur cid = None ->
          CableUpdate.remove_loop Examples.D (oc_interface :: rest) cur
          = CableUpdate.remove_loop Examples.D rest cur).
Proof.
  apply (cleanup_deletes_unreported Examples.cabled_to_E Examples.D []).
  reflexivity.
Defined.

(** ** Reported names and the cleanup pass *)

Lemma bind_ok {A B : Type} (r : result A) (k : A -> result B) (b : B) :
  bind r k = Ok b -> exists a, r = Ok a /\ k a = Ok b.
Proof. destruct r as [a|e]; simpl; [eauto|discriminate]. Qed.

(** The loop records the name of every entry, in order. *)
Lemma neighbors_loop_names (show : bool) (device : Device)
      (items : CableUpdate.lldp_neighbors) :
  forall st names st1 names1 log,
    CableUpdate.neighbors_loop show device items st names = Ok (st1, names1, log) ->
    names1 = names ++ map fst items.
Proof.
  induction items as [|[local_name remote] rest IH]; simpl;
    intros st names st1 names1 log H.
  - injection H as _ <- _. now rewrite app_nil_r.
  - apply bind_ok in H. destruct H as (first & _ & H).
    apply bind_ok in H. destruct H as ([st' log'] & _ & H).
    apply bind_ok in H. destruct H as ([[st2 names2] log2] & Hloop & H).
    injection H as _ <- _. apply IH in Hloop. now rewrite Hloop, <- app_assoc.
Qed.

Lemma detach_other (cid other : nat) (i : Interface) :
  if_cable i = Some other -> other <> cid -> detach cid i = i.
Proof.
  intros Hc Hne. unfold detach, holds_cable. rewrite Hc.
  destruct (Nat.eqb other cid) eqn:E; [|reflexivity].
  apply Nat.eqb_eq in E. contradiction.
Qed.

(** A cable that no row of the cleanup loop refers to stays, and so do the
    interfaces that hold it. *)
Lemma remove_loop_spares (device : Device) (rows : list Interface) (cid : nat) :
  (forall r, In r rows -> if_cable r <> Some cid) ->
  forall st st' log,
    CableUpdate.remove_loop device rows st = Ok (st', log) ->
    find_cable st' cid = find_cable st cid
    /\ (forall i, In i (interfaces st) -> if_cable i = Some cid -> In i (interfaces st')).
Proof.
  induction rows as [|r rows IH]; intros Hrows st st' log H; simpl in H.
  - injection H as <- _. auto.
  - assert (Hrows' : forall x, In x rows -> if_cable x <> Some cid).
    { intros x Hx. apply Hrows. now right. }
    destruct (if_cable r) as [c|] eqn:Hc; [|discriminate].
    assert (Hne : c <> cid).
    { intros ->. apply (Hrows r); [now left|assumption]. }
    destruct (find_cable st c) as [old|] eqn:Hf.
    + destruct (find_cable_some st c old Hf) as [_ Hid]. rewrite Hid in H.
      apply bind_ok in H. destruct H as ([a ad] & _ & H).
      apply bind_ok in H. destruct H as ([b bd] & _ & H).
      apply bind_ok in H. destruct H as ([st2 log2] & Hloop & H).
      injection H as <- _.
      destruct (IH Hrows' _ _ _ Hloop) as [Hsame Hkeep].
      split.
      * rewrite Hsame. apply find_cable_delete_other. congruence.
      * intros i Hin Hic. apply Hkeep; [|assumption]. simpl.
        rewrite <- (detach_other c cid i Hic) by congruence.
        now apply in_map.
    + now apply (IH Hrows' st st' log).
Qed.

(** C9, amended: the reported names handed to the cleanup pass are the
    names of all entries of the report, whatever became of the entries; the
    cleanup pass selects no interface with a reported name; and the cable of
    an interface with a reported name survives the cleanup pass, with the
    interface unchanged, when every interface of the device that holds this
    cable has a reported name. *)
Theorem reported_names_are_spared
        (show : bool) (device : Device) (items : CableUpdate.lldp_neighbors)
        (st st1 st2 : Store) (names : list string)
        (log1 log2 : list CableUpdate.message) :
  CableUpdate.neighbors_loop show device items st [] = Ok (st1, names, log1) ->
  CableUpdate.remove_old_cables st1 device names = Ok (st2, log2) ->
  names = map fst items
  /\ (forall r, In r (CableUpdate.old_cable_interfaces st1 device names) ->
        ~ In (if_name r) (map fst items))
  /\ (forall i cid,
        In i (interfaces st1) -> if_device i = dev_id device ->
        In (if_name i) (map fst items) -> if_cable i = Some cid ->
        (forall j, In j (interfaces st1) -> if_device j = dev_id device ->
                   if_cable j = Some cid -> In (if_name j) (map fst items)) ->
        find_cable st2 cid = find_cable st1 cid /\ In i (interfaces st2)).
Proof.
  intros Hloop Hclean.
  pose proof (neighbors_loop_names _ _ _ _ _ _ _ _ Hloop) as Hnames.
  simpl in Hnames. subst names.
  assert (Hsel : forall r,
             In r (CableUpdate.old_cable_interfaces st1 device (map fst items)) ->
             In r (interfaces st1) /\ if_device r = dev_id device
             /\ ~ In (if_name r) (map fst items)).
  { intros r Hr. apply filter_In in Hr. destruct Hr as [Hin Hr].
    apply andb_true_iff in Hr. destruct Hr as [Hr Hnot].
    apply andb_true_iff in Hr. destruct Hr as [Hdev _].
    apply Nat.eqb_eq in Hdev. repeat split; try assumption.
    intro Hn. apply negb_true_iff in Hnot.
    assert (E : existsb (String.eqb (if_name r)) (map fst items) = true).
    { apply existsb_exists. exists (if_name r). split; [assumption|apply String.eqb_refl]. }
    congruence. }
  split; [reflexivity|]. split.
  - intros r Hr. now apply Hsel.
  - intros i cid Hin Hdev Hname Hc Hall.
    unfold CableUpdate.remove_old_cables in Hclean.
    assert (Hrows : forall r,
               In r (CableUpdate.old_cable_interfaces st1 device (map fst items)) ->
               if_cable r <> Some cid).
    { intros r Hr Hrc. destruct (Hsel r Hr) as (Hrin & Hrdev & Hrnot).
      apply Hrnot. now apply Hall. }
    destruct (remove_loop_spares device _ cid Hrows _ _ _ Hclean) as [Hsame Hkeep].
    split; [assumption|]. now apply Hkeep.
Qed.

Lemma reported_names_are_spared_example :
  ["eth0"] = map fst (Examples.report "eth0" "E" "eth1")
  /\ (forall r, In r (CableUpdate.old_cable_interfaces
                        Examples.two_links Examples.D ["eth0"]) ->
        ~ In (if_name r) (map fst (Examples.report "eth0" "E" "eth1")))
  /\ (forall i cid,
        In i (interfaces Examples.two_links) -> if_device i = 1 ->
        In (if_name i) (map fst (Examples.report "eth0" "E" "eth1")) ->
        if_cable i = Some cid ->
        (forall j, In j (interfaces Examples.two_links) -> if_device j = 1 ->
                   if_cable j = Some cid ->
                   In (if_name j) (map fst (Examples.report "eth0" "E" "eth1"))) ->
        find_cable Examples.one_link cid = find_cable Examples.two_links cid
        /\ In i (interfaces Examples.one_link)).
Proof.
  apply (reported_names_are_spared false Examples.D (Examples.report "eth0" "E" "eth1")
           Examples.two_links Examples.two_links Examples.one_link
           ["eth0"] [] [CableUpdate.DeletingOldCable "D" "eth7" "D" "eth2" "F"]).
  - reflexivity.
  - reflexivity.
Defined.

(** ** The interface script on a device without interfaces *)

Lemma distinct_NoDup (l : list string) : distinct l = true -> NoDup l.
Proof.
  induction l as [|x l IH]; simpl; intro H; constructor.
  - apply andb_true_iff in H. destruct H as [H _].
    apply negb_true_iff in H. intro Hin.
    assert (E : existsb (String.eqb x) l = true).
    { apply existsb_exists. exists x. split; [assumption|apply String.eqb_refl]. }
    congruence.
  - apply IH. apply andb_true_iff in H. tauto.
Qed.

(** Subscripting a dict with the key of one of its entries gives the entry. *)
Lemma dict_get_entry (snap : InterfaceUpdate.snapshot) (k : string)
      (v : InterfaceUpdate.live) :
  NoDup (InterfaceUpdate.keys snap) -> In (k, v) snap ->
  InterfaceUpdate.dict_get snap k = Some v.
Proof.
  induction snap as [|[k0 v0] snap IH]; simpl; intros Hnd Hin; [contradiction|].
  inversion Hnd as [|x l Hnot Hrest]; subst.
  destruct Hin as [Heq|Hin].
  - injection Heq as -> ->. now rewrite String.eqb_refl.
  - destruct (String.eqb k0 k) eqn:E; [|now apply IH].
    apply String.eqb_eq in E. subst k0. exfalso. apply Hnot.
    apply in_map_iff. exists (k, v). auto.
Qed.

Lemma Interface_get_after_create_other (st : Store) (device : nat)
      (name type description : string) (mac : option string)
      (device' : nat) (name' : string) :
  (device', name') <> (device, name) ->
  Interface_get (fst (Interface_create st device name type description mac))
                device' name'
  = Interface_get st device' name'.
Proof.
  intro Hne. unfold Interface_get, objects_get. simpl.
  rewrite filter_app. simpl.
  destruct (Nat.eqb device device' && String.eqb name name') eqn:E.
  - apply andb_true_iff in E. destruct E as [E1 E2].
    apply Nat.eqb_eq in E1. apply String.eqb_eq in E2. congruence.
  - now rewrite app_nil_r.
Qed.

Lemma Interface_get_after_create (st : Store) (device : nat)
      (name type description : string) (mac : option string) :
  Interface_get st device name = NotFound ->
  Interface_get (fst (Interface_create st device name type description mac))
                device name
  = Found (snd (Interface_create st device name type description mac)).
Proof.
  unfold Interface_get, objects_get. simpl. intro H.
  rewrite filter_app. simpl. rewrite Nat.eqb_refl, String.eqb_refl. simpl.
  destruct (filter (fun i => Nat.eqb (if_device i) device
                             && String.eqb (if_name i) name) (interfaces st))
    as [|x [|y l]]; [reflexivity|discriminate|discriminate].
Qed.

Lemma no_interfaces_get (st : Store) (device : nat) (name : string) :
  no_interfaces st device = true -> Interface_get st device name = NotFound.
Proof.
  unfold no_interfaces, Interface_get, objects_get. intro H.
  rewrite forallb_forall in H.
  assert (E : filter (fun i => Nat.eqb (if_device i) device
                               && String.eqb (if_name i) name) (interfaces st) = []).
  { induction (interfaces st) as [|x l IH]; simpl; [reflexivity|].
    rewrite (proj1 (negb_true_iff _) (H x (or_introl eq_refl))). simpl.
    apply IH. intros y Hy. apply H. now right. }
  now rewrite E.
Qed.

(** The loop on entries of the snapshot none of which has an interface. *)
Lemma interfaces_loop_creates (match_at : string -> string -> nat -> bool)
      (pattern : string) (device : Device) (snap : InterfaceUpdate.snapshot)
      (entries : InterfaceUpdate.snapshot) :
  (forall k v, In (k, v) entries -> InterfaceUpdate.dict_get snap k = Some v) ->
  NoDup (InterfaceUpdate.keys entries) ->
  forall st,
    (forall k, In k (InterfaceUpdate.keys entries) ->
               Interface_get st (dev_id device) k = NotFound) ->
    InterfaceUpdate.interfaces_loop match_at pattern device snap
                                    (InterfaceUpdate.keys entries) st
    = Ok (mkStore (devices st)
                  (interfaces st
                   ++ fresh_interfaces (dev_id device) (next_interface_id st)
                                       (kept match_at pattern entries))
                  (cables st)
                  (next_interface_id st
                   + List.length (kept match_at pattern entries))
                  (next_cable_id st),
          map (fun kv => InterfaceUpdate.Created (dev_name device) (fst kv))
              (kept match_at pattern entries)).
Proof.
  induction entries as [|[k v] entries IH]; intros Hget Hnd st Hfree.
  - simpl. rewrite app_nil_r, Nat.add_0_r. now destruct st.
  - inversion Hnd as [|x l Hnot Hrest]; subst.
    assert (Hget' : forall k' v', In (k', v') entries ->
                                  InterfaceUpdate.dict_get snap k' = Some v').
    { intros k' v' Hin. apply Hget. now right. }
    simpl. unfold kept. simpl.
    destruct (InterfaceUpdate.ignored match_at pattern k) eqn:Hig; simpl.
    + apply (IH Hget' Hrest). intros k' Hk'. apply Hfree. now right.
    + unfold InterfaceUpdate.reconcile.
      rewrite (Hget k v (or_introl eq_refl)). simpl.
      rewrite (Hfree k (or_introl eq_refl)).
      rewrite normalize_mac_same.
      set (created := Interface_create st (dev_id device) k TYPE_OTHER
                        (InterfaceUpdate.description v) (InterfaceUpdate.mac_address v)).
      assert (Hfree' : forall k', In k' (InterfaceUpdate.keys entries) ->
                 Interface_get (fst created) (dev_id device) k' = NotFound).
      { intros k' Hk'. unfold created.
        rewrite Interface_get_after_create_other.
        - apply Hfree. now right.
        - intro Heq. injection Heq as ->. contradiction. }
      pose proof (IH Hget' Hrest (fst created) Hfree') as Hloop.
      unfold created, InterfaceUpdate.keys in Hloop. simpl in Hloop.
      unfold InterfaceUpdate.keys. simpl. rewrite Hloop. simpl.
      fold (kept match_at pattern entries).
      rewrite <- app_assoc. simpl.
      now rewrite Nat.add_succ_r.
Qed.

Lemma fresh_interfaces_length (device n : nat) (entries : InterfaceUpdate.snapshot) :
  List.length (fresh_interfaces device n entries) = List.length entries.
Proof.
  revert n. induction entries as [|[k v] entries IH]; intro n; simpl;
    [reflexivity|now rewrite IH].
Qed.

Lemma fresh_interfaces_fields (device : nat) (entries : InterfaceUpdate.snapshot) :
  forall n i,
    In i (fresh_interfaces device n entries) ->
    if_device i = device /\ if_type i = TYPE_OTHER
    /\ if_cable i = None
    /\ exists item, In (if_name i, item) entries
                    /\ if_description i = InterfaceUpdate.description item
                    /\ if_mac_address i = InterfaceUpdate.mac_address item.
Proof.
  induction entries as [|[k v] entries IH]; intros n i Hin; simpl in Hin;
    [contradiction|].
  destruct Hin as [<-|Hin]; simpl.
  - repeat split. exists v. auto.
  - destruct (IH _ _ Hin) as (Hd & Ht & Hc & item & Hi & Hdesc & Hmac).
    repeat split; try assumption. exists item. auto.
Qed.

(** C6: on a device without interfaces one run of the interface script
    returns and adds to the interface table one row per entry of the snapshot
    whose name the blacklist test lets through, in the order of the snapshot:
    each row is of the device, of type [TYPE_OTHER], without a cable, and has
    name, description and MAC address of its entry; the log is one "created"
    line per such entry; devices and cables are as before. *)
Theorem bare_device_gets_one_interface_per_entry
        (match_at : string -> string -> nat -> bool) (pattern : string)
        (st : Store) (device : Device) (napalm_interfaces : InterfaceUpdate.snapshot) :
  distinct (InterfaceUpdate.keys napalm_interfaces) = true ->
  no_interfaces st (dev_id device) = true ->
  exists st' created,
    InterfaceUpdate.run_device match_at pattern st device napalm_interfaces
    = Ok (st', map (fun kv => InterfaceUpdate.Created (dev_name device) (fst kv))
                   (kept match_at pattern napalm_interfaces))
    /\ interfaces st' = interfaces st ++ created
    /\ created = fresh_interfaces (dev_id device) (next_interface_id st)
                                  (kept match_at pattern napalm_interfaces)
    /\ List.length created = List.length (kept match_at pattern napalm_interfaces)
    /\ map if_name created = map fst (kept match_at pattern napalm_interfaces)
    /\ (forall i, In i created ->
          if_device i = dev_id device /\ if_type i = TYPE_OTHER
          /\ if_cable i = None
          /\ exists item,
               In (if_name i, item) napalm_interfaces
               /\ InterfaceUpdate.ignored match_at pattern (if_name i) = false
               /\ if_description i = InterfaceUpdate.description item
               /\ if_mac_address i = InterfaceUpdate.mac_address item)
    /\ devices st' = devices st
    /\ cables st' = cables st.
Proof.
  intros Hdistinct Hbare. apply distinct_NoDup in Hdistinct.
  unfold InterfaceUpdate.run_device.
  rewrite (interfaces_loop_creates match_at pattern device napalm_interfaces
                                   napalm_interfaces).
  - eexists. eexists. split; [reflexivity|]. simpl.
    split; [reflexivity|]. split; [reflexivity|].
    split; [apply fresh_interfaces_length|]. split; [|split; [|auto]].
    + generalize (next_interface_id st).
      induction (kept match_at pattern napalm_interfaces) as [|[k v] l IH];
        intro n; simpl; [reflexivity|now rewrite IH].
    + intros i Hin. apply fresh_interfaces_fields in Hin.
      destruct Hin as (Hd & Ht & Hc & item & Hi & Hdesc & Hmac).
      repeat split; try assumption. exists item.
      apply filter_In in Hi. destruct Hi as [Hi Hk]. simpl in Hk.
      apply negb_true_iff in Hk. auto.
  - intros k v Hin. now apply dict_get_entry.
  - assumption.
  - intros k _. now apply no_interfaces_get.
Qed.

Lemma bare_device_gets_one_interface_per_entry_example :
  exists st' created,
    InterfaceUpdate.run_device Re.literal_at "" Examples.bare Examples.D Examples.eth0_up
    = Ok (st', [InterfaceUpdate.Created "D" "eth0"])
    /\ interfaces st' = [] ++ created
    /\ created = [mkInterface 1 1 "eth0" TYPE_OTHER "up" (Some "AA:BB:CC:DD:EE:FF")
                              None None]
    /\ List.length created = 1
    /\ map if_name created = ["eth0"]
    /\ (forall i, In i created ->
          if_device i = 1 /\ if_type i = TYPE_OTHER
          /\ if_cable i = None
          /\ exists item,
               In (if_name i, item) Examples.eth0_up
               /\ InterfaceUpdate.ignored Re.literal_at "" (if_name i) = false
               /\ if_description i = InterfaceUpdate.description item
               /\ if_mac_address i = InterfaceUpdate.mac_address item)
    /\ devices st' = [Examples.D]
    /\ cables st' = [].
Proof.
  apply (bare_device_gets_one_interface_per_entry Re.literal_at "" Examples.bare
           Examples.D Examples.eth0_up).
  - reflexivity.
  - reflexivity.
Defined.

(** ** The interface script: one name of the snapshot *)

Lemma objects_get_found_iff {A : Type} (p : A -> bool) (rows : list A) (x : A) :
  objects_get p rows = Found x <-> filter p rows = [x].
Proof.
  unfold objects_get. destruct (filter p rows) as [|y [|z l]]; split; intro H;
    try discriminate; congruence.
Qed.

Lemma nodupb_iff (l : list nat) : nodupb l = true <-> NoDup l.
Proof.
  split; [apply nodupb_NoDup|].
  induction 1 as [|x l Hnot _ IH]; simpl; [reflexivity|].
  rewrite IH, andb_true_r. apply negb_true_iff. apply not_true_is_false.
  intro H. apply existsb_exists in H. destruct H as (y & Hy & Heq).
  apply Nat.eqb_eq in Heq. now subst.
Qed.

Lemma ids_ok_iff (st : Store) :
  ids_ok st = true
  <-> NoDup (map if_id (interfaces st))
      /\ forall i, In i (interfaces st) -> if_id i < next_interface_id st.
Proof.
  unfold ids_ok. rewrite andb_true_iff, nodupb_iff, forallb_forall.
  split; intros [H1 H2]; (split; [assumption|]); intros i Hi.
  - apply Nat.ltb_lt. auto.
  - apply Nat.ltb_lt. auto.
Qed.

Lemma same_id_same_row (l : list Interface) (r i : Interface) :
  NoDup (map if_id l) -> In r l -> In i l -> if_id r = if_id i -> r = i.
Proof.
  induction l as [|x l IH]; simpl; intros Hnd Hr Hi Heq; [contradiction|].
  inversion Hnd as [|y m Hnot Hrest]; subst.
  destruct Hr as [->|Hr], Hi as [->|Hi].
  - reflexivity.
  - exfalso. apply Hnot. rewrite Heq. now apply in_map.
  - exfalso. apply Hnot. rewrite <- Heq. now apply in_map.
  - now apply IH.
Qed.

(** [interface.save()] writes one row when primary keys are unique. *)
Lemma filter_save (p : Interface -> bool) (i i' : Interface) (l : list Interface) :
  (forall r, In r l -> if_id r = if_id i' -> r = i) -> p i' = p i ->
  filter p (map (fun r => if Nat.eqb (if_id r) (if_id i') then i' else r) l)
  = map (fun r => if Nat.eqb (if_id r) (if_id i') then i' else r) (filter p l).
Proof.
  intros Hsame Hp. induction l as [|x l IH]; simpl; [reflexivity|].
  assert (IH' := IH (fun r Hr => Hsame r (or_intror Hr))). clear IH.
  destruct (Nat.eqb (if_id x) (if_id i')) eqn:E.
  - assert (Hx : x = i).
    { apply Hsame; [now left|now apply Nat.eqb_eq]. }
    subst x. rewrite Hp. destruct (p i); simpl; [rewrite E|]; now rewrite IH'.
  - destruct (p x); simpl; [rewrite E|]; now rewrite IH'.
Qed.

Lemma interfaces_save (st : Store) (i : Interface) :
  interfaces (Interface_save st i)
  = map (fun r => if Nat.eqb (if_id r) (if_id i) then i else r) (interfaces st).
Proof. reflexivity. Qed.

Lemma save_get_same (st : Store) (device : nat) (name description : string)
      (i : Interface) :
  ids_ok st = true -> Interface_get st device name = Found i ->
  Interface_get (Interface_save st (set_description i description)) device name
  = Found (set_description i description).
Proof.
  intros Hids Hget. apply ids_ok_iff in Hids. destruct Hids as [Hnd _].
  destruct (Interface_get_found _ _ _ _ Hget) as (Hin & _ & _).
  unfold Interface_get in *. apply objects_get_found_iff in Hget.
  apply objects_get_found_iff. rewrite interfaces_save.
  rewrite (filter_save _ i).
  - rewrite Hget. simpl. now rewrite Nat.eqb_refl.
  - intros r Hr Heq. now apply (same_id_same_row (interfaces st)).
  - reflexivity.
Qed.

Lemma save_get_other (st : Store) (device device' : nat)
      (name name' description : string) (i : Interface) :
  ids_ok st = true -> Interface_get st device name = Found i ->
  (device', name') <> (device, name) ->
  Interface_get (Interface_save st (set_description i description)) device' name'
  = Interface_get st device' name'.
Proof.
  intros Hids Hget Hne. apply ids_ok_iff in Hids. destruct Hids as [Hnd _].
  destruct (Interface_get_found _ _ _ _ Hget) as (Hin & Hdev & Hname).
  unfold Interface_get, objects_get. rewrite interfaces_save.
  rewrite (filter_save _ i).
  - rewrite <- (map_id (filter _ (interfaces st))) at 2.
    erewrite map_ext_in; [reflexivity|].
    intros r Hr. simpl. apply filter_In in Hr. destruct Hr as [Hr Hp].
    destruct (Nat.eqb (if_id r) (if_id i)) eqn:E; [|reflexivity].
    apply Nat.eqb_eq in E.
    assert (r = i) by now apply (same_id_same_row (interfaces st)).
    subst r. apply andb_true_iff in Hp. destruct Hp as [Hd Hn].
    apply Nat.eqb_eq in Hd. apply String.eqb_eq in Hn.
    exfalso. apply Hne. congruence.
  - intros r Hr Heq. now apply (same_id_same_row (interfaces st)).
  - reflexivity.
Qed.

(** What [reconcile] can have done when it returns. *)
Lemma reconcile_cases (device : Device) (snap : InterfaceUpdate.snapshot)
      (st st1 : Store) (name : string) (log : list InterfaceUpdate.message) :
  InterfaceUpdate.reconcile device snap st name = Ok (st1, log) ->
  exists item,
    InterfaceUpdate.dict_get snap name = Some item
    /\ ((Interface_get st (dev_id device) name = NotFound
         /\ st1 = fst (Interface_create st (dev_id device) name TYPE_OTHER
                                        (InterfaceUpdate.description item)
                                        (InterfaceUpdate.mac_address item))
         /\ log = [InterfaceUpdate.Created (dev_name device) name])
        \/ (exists i,
              Interface_get st (dev_id device) name = Found i
              /\ if_description i = InterfaceUpdate.description item
              /\ st1 = st /\ log = [])
        \/ (exists i,
              Interface_get st (dev_id device) name = Found i
              /\ if_description i <> InterfaceUpdate.description item
              /\ st1 = Interface_save st (set_description i
                                            (InterfaceUpdate.description item))
              /\ log = [InterfaceUpdate.Updated (dev_name device) (if_name i)
                          (if_description i) (InterfaceUpdate.description item)])).
Proof.
  unfold InterfaceUpdate.reconcile. intro H.
  destruct (InterfaceUpdate.dict_get snap name) as [item|]; [|discriminate].
  exists item. split; [reflexivity|]. simpl in H.
  rewrite normalize_mac_same in H.
  destruct (Interface_get st (dev_id device) name) as [i| |]; [| |discriminate].
  - destruct (String.eqb (if_description i) (InterfaceUpdate.description item)) eqn:E;
      simpl in H; injection H as <- <-.
    + apply String.eqb_eq in E. right. left. exists i. auto.
    + apply String.eqb_neq in E. right. right. exists i. auto.
  - simpl in H. injection H as <- <-. left. auto.
Qed.

Lemma same_but_description_refl (i : Interface) : same_but_description i i.
Proof. unfold same_but_description. tauto. Qed.

Lemma same_but_description_trans (a b c : Interface) :
  same_but_description a b -> same_but_description b c -> same_but_description a c.
Proof.
  unfold same_but_description.
  intros (H1 & H2 & H3 & H4 & H5 & H6 & H7) (G1 & G2 & G3 & G4 & G5 & G6 & G7).
  repeat split; congruence.
Qed.

Lemma rows_kept_refl (st : Store) : rows_kept st st.
Proof. intros i Hi. exists i. split; [assumption|apply same_but_description_refl]. Qed.

Lemma rows_kept_trans (a b c : Store) :
  rows_kept a b -> rows_kept b c -> rows_kept a c.
Proof.
  intros Hab Hbc i Hi. destruct (Hab i Hi) as (j & Hj & Hij).
  destruct (Hbc j Hj) as (k & Hk & Hjk). exists k. split; [assumption|].
  now apply (same_but_description_trans i j k).
Qed.

Lemma create_ids_ok (st : Store) (device : nat) (name type description : string)
      (mac : option string) :
  ids_ok st = true ->
  ids_ok (fst (Interface_create st device name type description mac)) = true.
Proof.
  rewrite !ids_ok_iff. simpl. intros [Hnd Hlt]. split.
  - rewrite map_app. simpl. apply NoDup_app; [assumption|repeat constructor; intros []|].
    intros x Hx [<-|[]]. apply in_map_iff in Hx. destruct Hx as (i & Heq & Hi).
    specialize (Hlt i Hi). lia.
  - intros i Hi. apply in_app_or in Hi. destruct Hi as [Hi|[<-|[]]].
    + specialize (Hlt i Hi). lia.
    + simpl. lia.
Qed.

Lemma save_ids_ok (st : Store) (i : Interface) (description : string) :
  ids_ok st = true ->
  ids_ok (Interface_save st (set_description i description)) = true.
Proof.
  rewrite !ids_ok_iff. simpl. intros [Hnd Hlt].
  assert (Hid : forall r,
             if_id (if Nat.eqb (if_id r) (if_id i)
                    then set_description i description else r) = if_id r).
  { intro r. destruct (Nat.eqb (if_id r) (if_id i)) eqn:E; [|reflexivity].
    apply Nat.eqb_eq in E. simpl. congruence. }
  split.
  - rewrite map_map. erewrite map_ext; [exact Hnd|]. intro r. apply Hid.
  - intros r Hr. apply in_map_iff in Hr. destruct Hr as (x & <- & Hx).
    rewrite Hid. auto.
Qed.

Lemma save_rows_kept (st : Store) (i : Interface) (description : string) :
  ids_ok st = true -> In i (interfaces st) ->
  rows_kept st (Interface_save st (set_description i description)).
Proof.
  intros Hids Hin r Hr. apply ids_ok_iff in Hids. destruct Hids as [Hnd _].
  exists (if Nat.eqb (if_id r) (if_id i) then set_description i description else r).
  split.
  - simpl. apply in_map_iff. exists r. auto.
  - destruct (Nat.eqb (if_id r) (if_id i)) eqn:E.
    + apply Nat.eqb_eq in E.
      assert (r = i) by now apply (same_id_same_row (interfaces st)).
      subst r. unfold same_but_description. simpl. tauto.
    + apply same_but_description_refl.
Qed.

Lemma create_rows_kept (st : Store) (device : nat) (name type description : string)
      (mac : option string) :
  rows_kept st (fst (Interface_create st device name type description mac)).
Proof.
  intros i Hi. exists i. split; [|apply same_but_description_refl].
  simpl. apply in_or_app. now left.
Qed.

(** A name that is in step costs [reconcile] nothing. *)
Lemma reconcile_in_step (device : Device) (snap : InterfaceUpdate.snapshot)
      (st : Store) (name : string) :
  in_step snap (dev_id device) name st ->
  InterfaceUpdate.reconcile device snap st name = Ok (st, []).
Proof.
  intros (item & i & Hitem & Hget & Hdesc).
  unfold InterfaceUpdate.reconcile. rewrite Hitem. simpl. rewrite Hget, Hdesc.
  now rewrite String.eqb_refl.
Qed.

(** One step of the loop: the store advances and the name is in step. *)
Lemma reconcile_advance (device : Device) (snap : InterfaceUpdate.snapshot)
      (st st1 : Store) (name : string) (log : list InterfaceUpdate.message) :
  ids_ok st = true ->
  InterfaceUpdate.reconcile device snap st name = Ok (st1, log) ->
  advance snap (dev_id device) st st1 /\ in_step snap (dev_id device) name st1.
Proof.
  intros Hids H. apply reconcile_cases in H.
  destruct H as (item & Hitem & [(Hget & -> & _)|[(i & Hget & Hdesc & -> & _)
                                                  |(i & Hget & Hdesc & -> & _)]]).
  - split.
    + split; [now apply create_ids_ok|]. split; [reflexivity|].
      split; [reflexivity|]. split; [apply create_rows_kept|].
      intros snap' device' name' (item' & i' & Hitem' & Hget' & Hdesc') _.
      exists item', i'. split; [assumption|]. split; [|assumption].
      rewrite Interface_get_after_create_other; [assumption|].
      intro Heq. injection Heq as -> ->. congruence.
    + exists item. eexists. split; [assumption|].
      split; [now apply Interface_get_after_create|reflexivity].
  - split.
    + split; [assumption|]. split; [reflexivity|]. split; [reflexivity|].
      split; [apply rows_kept_refl|auto].
    + exists item, i. auto.
  - destruct (Interface_get_found _ _ _ _ Hget) as (Hin & _ & _). split.
    + split; [now apply save_ids_ok|]. split; [reflexivity|].
      split; [reflexivity|]. split; [now apply save_rows_kept|].
      intros snap' device' name' (item' & i' & Hitem' & Hget' & Hdesc') Hwhich.
      exists item', i'. split; [assumption|]. split; [|assumption].
      rewrite (save_get_other st (dev_id device) device' name name'); try assumption.
      intro Heq. injection Heq as -> ->.
      destruct Hwhich as [Hne| ->]; [now apply Hne|].
      rewrite Hitem in Hitem'. injection Hitem' as <-.
      rewrite Hget in Hget'. injection Hget' as <-. contradiction.
    + exists item. eexists. split; [assumption|].
      split; [now apply save_get_same|reflexivity].
Qed.

Lemma advance_trans (snap : InterfaceUpdate.snapshot) (device : nat)
      (a b c : Store) :
  advance snap device a b -> advance snap device b c -> advance snap device a c.
Proof.
  intros (_ & Hd1 & Hc1 & Hr1 & Hs1) (Hi2 & Hd2 & Hc2 & Hr2 & Hs2).
  split; [assumption|]. split; [congruence|]. split; [congruence|].
  split; [now apply (rows_kept_trans a b c)|]. auto.
Qed.

(** ** The interface script: the loop, one device, all devices *)

Lemma interfaces_loop_advance (match_at : string -> string -> nat -> bool)
      (pattern : string) (device : Device) (snap : InterfaceUpdate.snapshot)
      (names : list string) :
  forall st st1 log,
    ids_ok st = true ->
    InterfaceUpdate.interfaces_loop match_at pattern device snap names st
    = Ok (st1, log) ->
    advance snap (dev_id device) st st1
    /\ forall name, In name names ->
         InterfaceUpdate.ignored match_at pattern name = false ->
         in_step snap (dev_id device) name st1.
Proof.
  induction names as [|n names IH]; intros st st1 log Hids H; simpl in H.
  - injection H as <- _. split.
    + split; [assumption|]. split; [reflexivity|]. split; [reflexivity|].
      split; [apply rows_kept_refl|auto].
    + intros name [].
  - destruct (InterfaceUpdate.ignored match_at pattern n) eqn:Hig.
    + destruct (IH _ _ _ Hids H) as [Hadv Hstep]. split; [assumption|].
      intros name [<-|Hin] Hname; [congruence|auto].
    + apply bind_ok in H. destruct H as ([st' log'] & Hrec & H).
      apply bind_ok in H. destruct H as ([st2 log2] & Hloop & H).
      injection H as <- _.
      destruct (reconcile_advance _ _ _ _ _ _ Hids Hrec) as [Hadv1 Hstep1].
      assert (Hids' : ids_ok st' = true) by apply Hadv1.
      destruct (IH _ _ _ Hids' Hloop) as [Hadv2 Hstep2].
      split; [now apply (advance_trans snap (dev_id device) st st' st2)|].
      intros name [<-|Hin] Hname; [|auto].
      destruct Hadv2 as (_ & _ & _ & _ & Hkeep). apply Hkeep; auto.
Qed.

(** A device that is synced costs the loop nothing. *)
Lemma interfaces_loop_synced (match_at : string -> string -> nat -> bool)
      (pattern : string) (device : Device) (snap : InterfaceUpdate.snapshot)
      (st : Store) (names : list string) :
  (forall name, In name names ->
     InterfaceUpdate.ignored match_at pattern name = false ->
     in_step snap (dev_id device) name st) ->
  InterfaceUpdate.interfaces_loop match_at pattern device snap names st = Ok (st, []).
Proof.
  induction names as [|n names IH]; intro H; simpl; [reflexivity|].
  assert (IH' := IH (fun name Hin => H name (or_intror Hin))).
  destruct (InterfaceUpdate.ignored match_at pattern n) eqn:Hig; [assumption|].
  rewrite (reconcile_in_step device snap st n (H n (or_introl eq_refl) Hig)).
  simpl. now rewrite IH'.
Qed.

Lemma advance_all_refl (napalm_call : nat -> InterfaceUpdate.snapshot) (st : Store) :
  ids_ok st = true -> advance_all napalm_call st st.
Proof.
  intro H. split; [assumption|]. split; [reflexivity|]. split; [reflexivity|].
  split; [apply rows_kept_refl|auto].
Qed.

Lemma advance_all_trans (napalm_call : nat -> InterfaceUpdate.snapshot)
      (a b c : Store) :
  advance_all napalm_call a b -> advance_all napalm_call b c ->
  advance_all napalm_call a c.
Proof.
  intros (_ & Hd1 & Hc1 & Hr1 & Hs1) (Hi2 & Hd2 & Hc2 & Hr2 & Hs2).
  split; [assumption|]. split; [congruence|]. split; [congruence|].
  split; [now apply (rows_kept_trans a b c)|]. auto.
Qed.

Lemma advance_one_of_all (napalm_call : nat -> InterfaceUpdate.snapshot)
      (device : nat) (st st' : Store) :
  advance (napalm_call device) device st st' -> advance_all napalm_call st st'.
Proof.
  intros (Hi & Hd & Hc & Hr & Hs).
  split; [assumption|]. split; [assumption|]. split; [assumption|].
  split; [assumption|]. intros device' name' H. apply Hs; [assumption|].
  destruct (Nat.eq_dec device' device) as [->|Hne]; [now right|now left].
Qed.

Lemma run_devices_advance (match_at : string -> string -> nat -> bool)
      (napalm_call : nat -> InterfaceUpdate.snapshot) (pattern : string)
      (selected : list Device) :
  forall st st1 log,
    ids_ok st = true ->
    InterfaceUpdate.run_devices match_at napalm_call pattern selected st
    = Ok (st1, log) ->
    advance_all napalm_call st st1
    /\ forall device, In device selected ->
         synced match_at pattern (napalm_call (dev_id device)) st1 (dev_id device).
Proof.
  induction selected as [|d selected IH]; intros st st1 log Hids H; simpl in H.
  - injection H as <- _. split; [now apply advance_all_refl|intros device []].
  - apply bind_ok in H. destruct H as ([st' log'] & Hdev & H).
    apply bind_ok in H. destruct H as ([st2 log2] & Hrest & H).
    injection H as <- _.
    unfold InterfaceUpdate.run_device in Hdev.
    destruct (interfaces_loop_advance _ _ _ _ _ _ _ _ Hids Hdev) as [Hadv Hstep].
    apply advance_one_of_all in Hadv.
    assert (Hids' : ids_ok st' = true) by apply Hadv.
    destruct (IH _ _ _ Hids' Hrest) as [Hadv2 Hsynced].
    split; [now apply (advance_all_trans napalm_call st st' st2)|].
    intros device [<-|Hin]; [|auto].
    intros name Hname Hig. destruct Hadv2 as (_ & _ & _ & _ & Hkeep).
    apply Hkeep. now apply Hstep.
Qed.

Lemma run_devices_synced (match_at : string -> string -> nat -> bool)
      (napalm_call : nat -> InterfaceUpdate.snapshot) (pattern : string)
      (st : Store) (selected : list Device) :
  (forall device, In device selected ->
     synced match_at pattern (napalm_call (dev_id device)) st (dev_id device)) ->
  InterfaceUpdate.run_devices match_at napalm_call pattern selected st = Ok (st, []).
Proof.
  induction selected as [|d selected IH]; intro H; simpl; [reflexivity|].
  unfold InterfaceUpdate.run_device.
  rewrite interfaces_loop_synced.
  - simpl. rewrite IH; [reflexivity|]. intros device Hin. apply H. now right.
  - apply (H d). now left.
Qed.

(** C7: after a run of the interface script that returned, a second run on
    the store it left, with the same input and the same live snapshots,
    returns the same store and logs nothing; in particular it logs no
    "updated" line. *)
Theorem second_run_changes_nothing
        (match_at : string -> string -> nat -> bool)
        (napalm_call : nat -> InterfaceUpdate.snapshot)
        (d : InterfaceUpdate.data) (st st1 : Store)
        (log1 : list InterfaceUpdate.message) :
  ids_ok st = true ->
  InterfaceUpdate.run match_at napalm_call d st = Ok (st1, log1) ->
  exists log2,
    InterfaceUpdate.run match_at napalm_call d st1 = Ok (st1, log2)
    /\ filter updated log2 = []
    /\ log2 = [].
Proof.
  intros Hids Hrun. unfold InterfaceUpdate.run in *.
  destruct (run_devices_advance _ _ _ _ _ _ _ Hids Hrun)
    as [(_ & Hdevices & _) Hsynced].
  exists []. split; [|split; reflexivity].
  rewrite Hdevices. now apply run_devices_synced.
Qed.

Lemma second_run_changes_nothing_example :
  exists st1 log1,
    InterfaceUpdate.run Re.literal_at Examples.live_D Examples.update_D
                        Examples.cabled_to_E = Ok (st1, log1)
    /\ log1 = [InterfaceUpdate.Updated "D" "eth0" "uplink" "up";
               InterfaceUpdate.Created "D" "eth5"]
    /\ exists log2,
         InterfaceUpdate.run Re.literal_at Examples.live_D Examples.update_D st1
         = Ok (st1, log2)
         /\ filter updated log2 = []
         /\ log2 = [].
Proof.
  eexists. eexists. split; [vm_compute; reflexivity|]. split; [reflexivity|].
  eapply (second_run_changes_nothing Re.literal_at Examples.live_D Examples.update_D
                                     Examples.cabled_to_E).
  - reflexivity.
  - vm_compute. reflexivity.
Defined.

(** C8: when the interface a name of the snapshot resolves to has another
    description than the live one, [reconcile] writes the live description
    to that row, logs one "updated" line and leaves every other column of
    the row and every other row as they were; and over a whole run every row
    of the interface table is kept, the same but for its description, with
    devices and cables untouched: the script deletes no interface. *)
Theorem update_touches_description_only
        (match_at : string -> string -> nat -> bool)
        (napalm_call : nat -> InterfaceUpdate.snapshot)
        (d : InterfaceUpdate.data) (st : Store) :
  ids_ok st = true ->
  (forall device snap name item i,
      InterfaceUpdate.dict_get snap name = Some item ->
      Interface_get st (dev_id device) name = Found i ->
      if_description i <> InterfaceUpdate.description item ->
      let i' := set_description i (InterfaceUpdate.description item) in
      let st' := Interface_save st i' in
      InterfaceUpdate.reconcile device snap st name
      = Ok (st', [InterfaceUpdate.Updated (dev_name device) name (if_description i)
                                          (InterfaceUpdate.description item)])
      /\ Interface_get st' (dev_id device) name = Found i'
      /\ if_description i' = InterfaceUpdate.description item
      /\ same_but_description i i'
      /\ (forall r, In r (interfaces st) -> r <> i -> In r (interfaces st'))
      /\ List.length (interfaces st') = List.length (interfaces st)
      /\ devices st' = devices st
      /\ cables st' = cables st)
  /\ (forall st' log,
        InterfaceUpdate.run match_at napalm_call d st = Ok (st', log) ->
        rows_kept st st'
        /\ devices st' = devices st
        /\ cables st' = cables st).
Proof.
  intro Hids. split.
  - intros device snap name item i Hitem Hget Hdesc i' st'.
    destruct (Interface_get_found _ _ _ _ Hget) as (Hin & _ & Hname).
    split; [|split; [|split; [|split; [|split; [|split; [|split]]]]]];
      try reflexivity.
    + unfold InterfaceUpdate.reconcile. rewrite Hitem. simpl. rewrite Hget.
      apply String.eqb_neq in Hdesc. rewrite Hdesc. simpl. now rewrite Hname.
    + now apply save_get_same.
    + unfold same_but_description. simpl. tauto.
    + intros r Hr Hne. unfold st'. rewrite interfaces_save.
      apply in_map_iff. exists r. split; [|assumption].
      destruct (Nat.eqb (if_id r) (if_id i')) eqn:E; [|reflexivity].
      apply Nat.eqb_eq in E. exfalso. apply Hne.
      apply ids_ok_iff in Hids. destruct Hids as [Hnd _].
      now apply (same_id_same_row (interfaces st)).
    + unfold st'. rewrite interfaces_save. apply length_map.
  - intros st' log Hrun. unfold InterfaceUpdate.run in Hrun.
    destruct (run_devices_advance _ _ _ _ _ _ _ Hids Hrun)
      as [(_ & Hdevices & Hcables & Hrows & _) _].
    auto.
Qed.

Lemma update_touches_description_only_example :
  let i := Examples.iface 1 1 "eth0" "uplink" (Some (1, 2)) in
  let i' := Examples.iface 1 1 "eth0" "up" (Some (1, 2)) in
  let st' := Interface_save Examples.cabled_to_E i' in
  InterfaceUpdate.reconcile Examples.D Examples.two_ports Examples.cabled_to_E "eth0"
  = Ok (st', [InterfaceUpdate.Updated "D" "eth0" "uplink" "up"])
  /\ Interface_get st' 1 "eth0" = Found i'
  /\ if_description i' = "up"
  /\ same_but_description i i'
  /\ (forall r, In r (interfaces Examples.cabled_to_E) -> r <> i ->
                In r (interfaces st'))
  /\ List.length (interfaces st') = 3
  /\ devices st' = devices Examples.cabled_to_E
  /\ cables st' = cables Examples.cabled_to_E.
Proof.
  apply (proj1 (update_touches_description_only Re.literal_at Examples.live_D
                  Examples.update_D Examples.cabled_to_E eq_refl)
               Examples.D Examples.two_ports "eth0"
               (InterfaceUpdate.mkLive "up" (Some "AA:BB:CC:DD:EE:FF"))
               (Examples.iface 1 1 "eth0" "uplink" (Some (1, 2)))).
  - reflexivity.
  - reflexivity.
  - simpl. discriminate.
Defined.

(** * Further properties of the cable script *)

(** ** The warnings flag *)

Lemma connect_quiet (device : Device) (st : Store) (li : Interface)
      (delete_cable : bool) (rdev rname : string) :
  CableUpdate.connect false device st li delete_cable rdev rname
  = quiet (CableUpdate.connect true device st li delete_cable rdev rname).
Proof.
  unfold CableUpdate.connect.
  destruct (Device_get st rdev) as [rd| |]; try reflexivity.
  destruct (Interface_get st (dev_id rd) rname) as [ri| |]; try reflexivity.
  assert (Hcreate : forall st1 log1,
             (forall m, In m log1 -> success m = true) ->
             ('(st2, log2) <- CableUpdate.create_cable device st1 li ri ;;
              Ok (st2, log1 ++ log2))
             = quiet ('(st2, log2) <- CableUpdate.create_cable device st1 li ri ;;
                      Ok (st2, log1 ++ log2))).
  { intros st1 log1 Hall. unfold CableUpdate.create_cable.
    destruct (CableUpdate.device_of _ li) as [ld|e]; simpl; [|reflexivity].
    destruct (CableUpdate.device_of _ ri) as [rd'|e]; simpl; [|reflexivity].
    rewrite filter_app. simpl. f_equal. f_equal. f_equal.
    clear -Hall. induction log1 as [|m l IH]; simpl; [reflexivity|].
    rewrite (Hall m (or_introl eq_refl)). f_equal. apply IH.
    intros x Hx. apply Hall. now right. }
  destruct delete_cable.
  - unfold CableUpdate.delete_stale.
    destruct (deref AttributeError (if_cable li)) as [cid|e]; simpl; [|reflexivity].
    destruct (CableUpdate.device_of _ li) as [ld|e]; simpl; [|reflexivity].
    destruct (CableUpdate.cable_peer st li) as [peer|e]; simpl; [|reflexivity].
    destruct (CableUpdate.device_of _ peer) as [pd|e]; simpl; [|reflexivity].
    refine (Hcreate _ [_] _). intros m [<-|[]]. reflexivity.
  - simpl. refine (Hcreate _ [] _). intros m [].
Qed.

Lemma reconcile_quiet (device : Device) (st : Store) (lname rdev rname : string) :
  CableUpdate.reconcile false device st lname rdev rname
  = quiet (CableUpdate.reconcile true device st lname rdev rname).
Proof.
  unfold CableUpdate.reconcile.
  destruct (Interface_get st (dev_id device) lname) as [li| |]; try reflexivity.
  destruct (CableUpdate.check_cable st li rdev rname) as [[delete_cable|]|e];
    simpl; try reflexivity.
  apply connect_quiet.
Qed.

Lemma remove_loop_success (device : Device) (rows : list Interface) :
  forall st, quiet (CableUpdate.remove_loop device rows st)
             = CableUpdate.remove_loop device rows st.
Proof.
  induction rows as [|r rows IH]; intro st; simpl; [reflexivity|].
  destruct (if_cable r) as [cid|]; [|reflexivity].
  destruct (find_cable st cid) as [old|]; [|apply IH].
  destruct (CableUpdate.end_names _ (termination_a_id old)) as [[a ad]|e];
    simpl; [|reflexivity].
  destruct (CableUpdate.end_names _ (termination_b_id old)) as [[b bd]|e];
    simpl; [|reflexivity].
  specialize (IH (Cable_delete st (cable_id old))).
  destruct (CableUpdate.remove_loop device rows (Cable_delete st (cable_id old)))
    as [[st2 log]|e]; simpl in *; [|reflexivity].
  injection IH as IH. now rewrite IH.
Qed.

Lemma neighbors_loop_quiet (device : Device) (items : CableUpdate.lldp_neighbors) :
  forall st names,
    CableUpdate.neighbors_loop false device items st names
    = match CableUpdate.neighbors_loop true device items st names with
      | Ok (st', names', log) => Ok (st', names', filter success log)
      | Raise e => Raise e
      end.
Proof.
  induction items as [|[lname remote] items IH]; intros st names; simpl;
    [reflexivity|].
  destruct (hd_error remote) as [first|]; simpl; [|reflexivity].
  rewrite reconcile_quiet.
  destruct (CableUpdate.reconcile true device st lname (CableUpdate.hostname first)
                                  (CableUpdate.port first))
    as [[st1 log1]|e]; simpl; [|reflexivity].
  rewrite IH.
  destruct (CableUpdate.neighbors_loop true device items st1 (names ++ [lname]))
    as [[[st2 names2] log2]|e]; simpl; [|reflexivity].
  now rewrite filter_app.
Qed.

(** X1: the warnings flag decides nothing but the log.  A run on a device
    without warnings is the run with warnings, with the lines that are not
    success lines taken out: the same store, the same success lines in the
    same order, the same exception. *)
Theorem warnings_flag_only_adds_lines
        (st : Store) (device : Device) (report : CableUpdate.lldp_neighbors) :
  CableUpdate.run_device false st device report
  = quiet (CableUpdate.run_device true st device report).
Proof.
  unfold CableUpdate.run_device. rewrite neighbors_loop_quiet.
  destruct (CableUpdate.neighbors_loop true device report st [])
    as [[[st1 names] log1]|e]; simpl; [|reflexivity].
  unfold CableUpdate.remove_old_cables.
  pose proof (remove_loop_success device
                (CableUpdate.old_cable_interfaces st1 device names) st1) as H.
  destruct (CableUpdate.remove_loop device
              (CableUpdate.old_cable_interfaces st1 device names) st1)
    as [[st2 log2]|e]; simpl in *; [|reflexivity].
  injection H as H. now rewrite filter_app, H.
Qed.

(** ** What one neighbour entry can do *)

(** An entry that returns either left the store alone and logged no success
    line, or resolved both ends and created a cable, after deleting the
    cable the local interface had, if it had one. *)
Lemma reconcile_outcome (show : bool) (device : Device) (st st' : Store)
      (lname rdev rname : string) (log : list CableUpdate.message) :
  CableUpdate.reconcile show device st lname rdev rname = Ok (st', log) ->
  (st' = st /\ filter success log = [])
  \/ exists li rd ri ld rd',
       Interface_get st (dev_id device) lname = Found li
       /\ Device_get st rdev = Found rd
       /\ Interface_get st (dev_id rd) rname = Found ri
       /\ ((if_cable li = None
            /\ st' = Cable_save st (if_id li) (if_id ri)
            /\ log = [CableUpdate.CreatingCable (dev_name device) (if_name li) ld
                                                (if_name ri) rd'])
           \/ (exists cid c peer pd,
                 if_cable li = Some cid
                 /\ find_cable st cid = Some c
                 /\ st' = Cable_save (Cable_delete st cid) (if_id li) (if_id ri)
                 /\ log = [CableUpdate.DeletingStaleCable (dev_name device)
                             (if_name li) ld peer pd;
                           CableUpdate.CreatingCable (dev_name device)
                             (if_name li) ld (if_name ri) rd'])).
Proof.
  unfold CableUpdate.reconcile. intro H.
  destruct (Interface_get st (dev_id device) lname) as [li| |] eqn:Hl;
    [| |discriminate].
  2:{ injection H as <- <-. left. split; [reflexivity|]. now destruct show. }
  apply bind_ok in H. destruct H as (decision & Hcheck & H).
  destruct decision as [delete_cable|].
  2:{ injection H as <- <-. left. auto. }
  unfold CableUpdate.connect in H.
  destruct (Device_get st rdev) as [rd| |] eqn:Hrd; [| |discriminate].
  2:{ injection H as <- <-. left. split; [reflexivity|]. now destruct show. }
  destruct (Interface_get st (dev_id rd) rname) as [ri| |] eqn:Hri; [| |discriminate].
  2:{ injection H as <- <-. left. split; [reflexivity|]. now destruct show. }
  right. exists li, rd, ri.
  apply bind_ok in H. destruct H as ([st1 log1] & Hdel & H).
  apply bind_ok in H. destruct H as ([st2 log2] & Hnew & H).
  injection H as <- <-.
  unfold CableUpdate.create_cable in Hnew.
  apply bind_ok in Hnew. destruct Hnew as (ld & Hld & Hnew).
  apply bind_ok in Hnew. destruct Hnew as (rd' & Hrd' & Hnew).
  injection Hnew as <- <-.
  exists (dev_name ld), (dev_name rd').
  repeat (split; [first [reflexivity|assumption]|]).
  unfold CableUpdate.check_cable, CableUpdate.cable_of in Hcheck.
  destruct (if_cable li) as [cid|] eqn:Hc.
  - right. apply bind_ok in Hcheck. destruct Hcheck as (cable & Hcable & Hcheck).
    apply bind_ok in Hcable. destruct Hcable as (c & Hfc & Hcable).
    injection Hcable as <-.
    assert (Hflag : delete_cable = true).
    { apply bind_ok in Hcheck. destruct Hcheck as (peer & _ & Hcheck).
      destruct (String.eqb (if_name peer) rname).
      - apply bind_ok in Hcheck. destruct Hcheck as (pd & _ & Hcheck).
        destruct (String.eqb (dev_name pd) rdev); congruence.
      - congruence. }
    subst delete_cable. unfold CableUpdate.delete_stale in Hdel. rewrite Hc in Hdel.
    simpl in Hdel.
    apply bind_ok in Hdel. destruct Hdel as (ld0 & Hld0 & Hdel).
    apply bind_ok in Hdel. destruct Hdel as (peer & _ & Hdel).
    apply bind_ok in Hdel. destruct Hdel as (pd & _ & Hdel).
    injection Hdel as <- <-.
    assert (ld0 = ld).
    { unfold CableUpdate.device_of, find_device in *. simpl in *. congruence. }
    subst ld0.
    destruct (find_cable st cid) as [c0|] eqn:Hf; [|discriminate].
    exists cid, c0, (if_name peer), (dev_name pd). auto.
  - left. simpl in Hcheck. injection Hcheck as <-. injection Hdel as <- <-. auto.
Qed.

(** The columns of the interface table that are not about cables. *)
Lemma set_cable_twice (i : Interface) (c p : option nat) :
  set_cable (set_cable i c p) None None = set_cable i None None.
Proof. reflexivity. Qed.

Lemma attach_uncabled (cid a b : nat) (i : Interface) :
  set_cable (attach cid a b i) None None = set_cable i None None.
Proof.
  unfold attach. destruct (Nat.eqb (if_id i) a); [reflexivity|].
  now destruct (Nat.eqb (if_id i) b).
Qed.

Lemma detach_uncabled (cid : nat) (i : Interface) :
  set_cable (detach cid i) None None = set_cable i None None.
Proof. unfold detach. now destruct (holds_cable cid i). Qed.

Lemma Cable_save_uncabled (st : Store) (a b : nat) :
  map (fun i => set_cable i None None) (interfaces (Cable_save st a b))
  = map (fun i => set_cable i None None) (interfaces st).
Proof.
  simpl. rewrite map_map. apply map_ext. intro i. apply attach_uncabled.
Qed.

Lemma Cable_delete_uncabled (st : Store) (cid : nat) :
  map (fun i => set_cable i None None) (interfaces (Cable_delete st cid))
  = map (fun i => set_cable i None None) (interfaces st).
Proof.
  simpl. rewrite map_map. apply map_ext. intro i. apply detach_uncabled.
Qed.

(** ** Referential integrity is kept *)

Lemma refs_ok_iff (st : Store) :
  refs_ok st = true
  <-> (forall i, In i (interfaces st) -> interface_refs_ok st i = true)
      /\ (forall c, In c (cables st) -> cable_refs_ok st c = true)
      /\ NoDup (map cable_id (cables st)).
Proof.
  unfold refs_ok. rewrite !andb_true_iff, !forallb_forall, nodupb_iff. tauto.
Qed.

Lemma is_some_option_map {A B : Type} (f : A -> B) (o : option A) :
  is_some (option_map f o) = is_some o.
Proof. now destruct o. Qed.

Lemma find_interface_in (st : Store) (i : Interface) :
  In i (interfaces st) -> is_some (find_interface st (if_id i)) = true.
Proof.
  unfold find_interface. induction (interfaces st) as [|x l IH]; simpl;
    intro H; [contradiction|].
  destruct (Nat.eqb (if_id x) (if_id i)) eqn:E; [reflexivity|].
  destruct H as [->|H]; [|auto]. now rewrite Nat.eqb_refl in E.
Qed.

Lemma find_interface_delete (st : Store) (cid id : nat) :
  find_interface (Cable_delete st cid) id
  = option_map (detach cid) (find_interface st id).
Proof.
  unfold find_interface. simpl. apply find_map_same. intro x. now rewrite detach_id.
Qed.

Lemma attach_id (cid a b : nat) (i : Interface) : if_id (attach cid a b i) = if_id i.
Proof.
  unfold attach. destruct (Nat.eqb (if_id i) a); [reflexivity|].
  now destruct (Nat.eqb (if_id i) b).
Qed.

Lemma attach_device (cid a b : nat) (i : Interface) :
  if_device (attach cid a b i) = if_device i.
Proof.
  unfold attach. destruct (Nat.eqb (if_id i) a); [reflexivity|].
  now destruct (Nat.eqb (if_id i) b).
Qed.

Lemma attach_name (cid a b : nat) (i : Interface) :
  if_name (attach cid a b i) = if_name i.
Proof.
  unfold attach. destruct (Nat.eqb (if_id i) a); [reflexivity|].
  now destruct (Nat.eqb (if_id i) b).
Qed.

Lemma find_interface_save (st : Store) (a b id : nat) :
  find_interface (Cable_save st a b) id
  = option_map (attach (next_cable_id st) a b) (find_interface st id).
Proof.
  unfold find_interface. simpl. apply find_map_same. intro x. now rewrite attach_id.
Qed.

Lemma find_cable_save_old (st : Store) (a b cid : nat) :
  is_some (find_cable st cid) = true ->
  find_cable (Cable_save st a b) cid = find_cable st cid.
Proof.
  unfold find_cable. simpl. rewrite find_append.
  now destruct (find (fun c => Nat.eqb (cable_id c) cid) (cables st)).
Qed.

Lemma find_cable_save_new (st : Store) (a b : nat) :
  is_some (find_cable (Cable_save st a b) (next_cable_id st)) = true.
Proof.
  unfold find_cable. simpl. rewrite find_append.
  destruct (find _ (cables st)); [reflexivity|]. simpl. now rewrite Nat.eqb_refl.
Qed.

Lemma Cable_delete_refs_ok (st : Store) (cid : nat) :
  refs_ok st = true -> refs_ok (Cable_delete st cid) = true.
Proof.
  rewrite !refs_ok_iff. intros (Hi & Hc & Hnd). split; [|split].
  - intros i' Hin. simpl in Hin. apply in_map_iff in Hin.
    destruct Hin as (i & <- & Hin). specialize (Hi i Hin).
    unfold interface_refs_ok in *. rewrite detach_device.
    apply andb_true_iff in Hi. destruct Hi as [Hd Hl].
    apply andb_true_iff. split; [exact Hd|].
    unfold detach, holds_cable. destruct (if_cable i) as [c|] eqn:Hic; simpl.
    + destruct (Nat.eqb c cid) eqn:E; simpl; [reflexivity|].
      rewrite Hic. apply Nat.eqb_neq in E.
      apply andb_true_iff in Hl. destruct Hl as [Hl1 Hl2].
      rewrite find_cable_delete_other by assumption. rewrite Hl1. simpl.
      destruct (if_cable_peer i) as [p|]; [|discriminate].
      now rewrite find_interface_delete, is_some_option_map.
    + now rewrite Hic.
  - intros c Hin. simpl in Hin. apply filter_In in Hin. destruct Hin as [Hin _].
    specialize (Hc c Hin). unfold cable_refs_ok in *.
    now rewrite !find_interface_delete, !is_some_option_map.
  - simpl. now apply NoDup_map_filter.
Qed.

Lemma Cable_save_refs_ok (st : Store) (a b : nat) :
  refs_ok st = true ->
  is_some (find_interface st a) = true -> is_some (find_interface st b) = true ->
  refs_ok (Cable_save st a b) = true.
Proof.
  rewrite !refs_ok_iff. intros (Hi & Hc & Hnd) Ha Hb.
  assert (Hlt : forall c, In c (cables st) -> cable_id c < next_cable_id st).
  { intros c Hin. specialize (Hc c Hin). unfold cable_refs_ok in Hc.
    apply andb_true_iff in Hc. destruct Hc as [_ Hc]. now apply Nat.ltb_lt. }
  split; [|split].
  - intros i' Hin. simpl in Hin. apply in_map_iff in Hin.
    destruct Hin as (i & <- & Hin). specialize (Hi i Hin).
    unfold interface_refs_ok in *. rewrite attach_device.
    apply andb_true_iff in Hi. destruct Hi as [Hd Hl].
    apply andb_true_iff. split; [exact Hd|].
    unfold attach. destruct (Nat.eqb (if_id i) a); [|destruct (Nat.eqb (if_id i) b)].
    + simpl if_cable. simpl if_cable_peer. cbv iota beta.
      now rewrite find_cable_save_new, find_interface_save, is_some_option_map.
    + simpl if_cable. simpl if_cable_peer. cbv iota beta.
      now rewrite find_cable_save_new, find_interface_save, is_some_option_map.
    + destruct (if_cable i) as [c|]; [|reflexivity].
      apply andb_true_iff in Hl. destruct Hl as [Hl1 Hl2].
      rewrite find_cable_save_old by assumption. rewrite Hl1. simpl.
      destruct (if_cable_peer i) as [p|]; [|discriminate].
      now rewrite find_interface_save, is_some_option_map.
  - intros c Hin. simpl in Hin. apply in_app_or in Hin.
    unfold cable_refs_ok. rewrite !find_interface_save, !is_some_option_map.
    destruct Hin as [Hin|[<-|[]]].
    + specialize (Hc c Hin). unfold cable_refs_ok in Hc.
      apply andb_true_iff in Hc. destruct Hc as [Hc _]. rewrite Hc. simpl.
      apply Nat.ltb_lt. specialize (Hlt c Hin). lia.
    + simpl. rewrite Ha, Hb. simpl. apply Nat.ltb_lt. lia.
  - simpl. rewrite map_app. simpl.
    apply NoDup_app; [assumption|repeat constructor; intros []|].
    intros x Hx [<-|[]]. apply in_map_iff in Hx. destruct Hx as (c & Heq & Hin).
    specialize (Hlt c Hin). lia.
Qed.

Lemma reconcile_refs_ok (show : bool) (device : Device) (st st' : Store)
      (lname rdev rname : string) (log : list CableUpdate.message) :
  refs_ok st = true ->
  CableUpdate.reconcile show device st lname rdev rname = Ok (st', log) ->
  refs_ok st' = true.
Proof.
  intros Hrefs H. apply reconcile_outcome in H.
  destruct H as [[-> _]|(li & rd & ri & ld & rd' & Hl & _ & Hri & H)];
    [assumption|].
  destruct (Interface_get_found _ _ _ _ Hl) as (Hlin & _).
  destruct (Interface_get_found _ _ _ _ Hri) as (Hrin & _).
  destruct H as [(_ & -> & _)|(cid & c & peer & pd & _ & _ & -> & _)].
  - apply Cable_save_refs_ok; auto using find_interface_in.
  - apply Cable_save_refs_ok.
    + now apply Cable_delete_refs_ok.
    + rewrite find_interface_delete, is_some_option_map. now apply find_interface_in.
    + rewrite find_interface_delete, is_some_option_map. now apply find_interface_in.
Qed.

Lemma neighbors_loop_refs_ok (show : bool) (device : Device)
      (items : CableUpdate.lldp_neighbors) :
  forall st names st' names' log,
    refs_ok st = true ->
    CableUpdate.neighbors_loop show device items st names = Ok (st', names', log) ->
    refs_ok st' = true.
Proof.
  induction items as [|[lname remote] items IH]; simpl;
    intros st names st' names' log Hrefs H.
  - now injection H as <- _ _.
  - apply bind_ok in H. destruct H as (first & _ & H).
    apply bind_ok in H. destruct H as ([st1 log1] & Hrec & H).
    apply bind_ok in H. destruct H as ([[st2 names2] log2] & Hloop & H).
    injection H as <- _ _.
    apply (IH _ _ _ _ _ (reconcile_refs_ok _ _ _ _ _ _ _ _ Hrefs Hrec) Hloop).
Qed.

Lemma remove_loop_refs_ok (device : Device) (rows : list Interface) :
  forall st st' log,
    refs_ok st = true ->
    CableUpdate.remove_loop device rows st = Ok (st', log) ->
    refs_ok st' = true.
Proof.
  induction rows as [|r rows IH]; simpl; intros st st' log Hrefs H.
  - now injection H as <- _.
  - destruct (if_cable r) as [cid|]; [|discriminate].
    destruct (find_cable st cid) as [old|]; [|eauto].
    apply bind_ok in H. destruct H as ([a ad] & _ & H).
    apply bind_ok in H. destruct H as ([b bd] & _ & H).
    apply bind_ok in H. destruct H as ([st2 log2] & Hloop & H).
    injection H as <- _.
    apply (IH _ _ _ (Cable_delete_refs_ok st (cable_id old) Hrefs) Hloop).
Qed.

(** X2: referential integrity is an invariant of the cable script.  When a
    run on a device returns, every interface of the store it leaves still
    has a device, every cable reference and peer reference of an interface
    resolves, both ends of every cable resolve, and the keys of cables are
    unique and below the next key. *)
Theorem run_device_keeps_references
        (show : bool) (st st' : Store) (device : Device)
        (report : CableUpdate.lldp_neighbors) (log : list CableUpdate.message) :
  refs_ok st = true ->
  CableUpdate.run_device show st device report = Ok (st', log) ->
  refs_ok st' = true.
Proof.
  intros Hrefs H. unfold CableUpdate.run_device in H.
  apply bind_ok in H. destruct H as ([[st1 names] log1] & Hloop & H).
  apply bind_ok in H. destruct H as ([st2 log2] & Hclean & H).
  injection H as <- _.
  apply (remove_loop_refs_ok _ _ _ _ _
           (neighbors_loop_refs_ok _ _ _ _ _ _ _ _ Hrefs Hloop) Hclean).
Qed.

Lemma run_device_keeps_references_example :
  refs_ok (Cable_save (Cable_delete Examples.cabled_to_E 1) 1 3) = true.
Proof.
  apply (run_device_keeps_references false Examples.cabled_to_E _ Examples.D
           (Examples.report "eth0" "F" "eth2")
           [CableUpdate.DeletingStaleCable "D" "eth0" "D" "eth1" "E";
            CableUpdate.CreatingCable "D" "eth0" "D" "eth2" "F"]).
  - reflexivity.
  - reflexivity.
Defined.

(** ** The cable script writes cable columns only *)

Lemma reconcile_frame (show : bool) (device : Device) (st st' : Store)
      (lname rdev rname : string) (log : list CableUpdate.message) :
  CableUpdate.reconcile show device st lname rdev rname = Ok (st', log) ->
  devices st' = devices st
  /\ map uncabled (interfaces st') = map uncabled (interfaces st)
  /\ next_interface_id st' = next_interface_id st.
Proof.
  intro H. apply reconcile_outcome in H.
  destruct H as [[-> _]|(li & rd & ri & ld & rd' & _ & _ & _ & H)]; [auto|].
  destruct H as [(_ & -> & _)|(cid & c & peer & pd & _ & _ & -> & _)].
  - split; [reflexivity|]. split; [apply Cable_save_uncabled|reflexivity].
  - split; [reflexivity|]. split; [|reflexivity].
    unfold uncabled. now rewrite Cable_save_uncabled, Cable_delete_uncabled.
Qed.

Lemma neighbors_loop_frame (show : bool) (device : Device)
      (items : CableUpdate.lldp_neighbors) :
  forall st names st' names' log,
    CableUpdate.neighbors_loop show device items st names = Ok (st', names', log) ->
    devices st' = devices st
    /\ map uncabled (interfaces st') = map uncabled (interfaces st)
    /\ next_interface_id st' = next_interface_id st.
Proof.
  induction items as [|[lname remote] items IH]; simpl;
    intros st names st' names' log H.
  - injection H as <- _ _. auto.
  - apply bind_ok in H. destruct H as (first & _ & H).
    apply bind_ok in H. destruct H as ([st1 log1] & Hrec & H).
    apply bind_ok in H. destruct H as ([[st2 names2] log2] & Hloop & H).
    injection H as <- _ _.
    destruct (reconcile_frame _ _ _ _ _ _ _ _ Hrec) as (H1 & H2 & H3).
    destruct (IH _ _ _ _ _ Hloop) as (G1 & G2 & G3).
    repeat split; congruence.
Qed.

Lemma remove_loop_frame (device : Device) (rows : list Interface) :
  forall st st' log,
    CableUpdate.remove_loop device rows st = Ok (st', log) ->
    devices st' = devices st
    /\ map uncabled (interfaces st') = map uncabled (interfaces st)
    /\ next_interface_id st' = next_interface_id st.
Proof.
  induction rows as [|r rows IH]; simpl; intros st st' log H.
  - injection H as <- _. auto.
  - destruct (if_cable r) as [cid|]; [|discriminate].
    destruct (find_cable st cid) as [old|]; [|eauto].
    apply bind_ok in H. destruct H as ([a ad] & _ & H).
    apply bind_ok in H. destruct H as ([b bd] & _ & H).
    apply bind_ok in H. destruct H as ([st2 log2] & Hloop & H).
    injection H as <- _.
    destruct (IH _ _ _ Hloop) as (G1 & G2 & G3).
    split; [exact G1|]. split; [|exact G3].
    rewrite G2. unfold uncabled. apply Cable_delete_uncabled.
Qed.

(** X3: the cable script writes nothing but cables and the cable columns
    of interfaces.  When a run on a device returns, the device table is as
    before, and the interface table has the same rows in the same order with
    the same key, device, name, type, description and MAC address: no
    interface is created, deleted or renamed. *)
Theorem run_device_writes_cables_only
        (show : bool) (st st' : Store) (device : Device)
        (report : CableUpdate.lldp_neighbors) (log : list CableUpdate.message) :
  CableUpdate.run_device show st device report = Ok (st', log) ->
  devices st' = devices st
  /\ map uncabled (interfaces st') = map uncabled (interfaces st)
  /\ List.length (interfaces st') = List.length (interfaces st)
  /\ next_interface_id st' = next_interface_id st.
Proof.
  intro H. unfold CableUpdate.run_device in H.
  apply bind_ok in H. destruct H as ([[st1 names] log1] & Hloop & H).
  apply bind_ok in H. destruct H as ([st2 log2] & Hclean & H).
  injection H as <- _.
  destruct (neighbors_loop_frame _ _ _ _ _ _ _ _ Hloop) as (H1 & H2 & H3).
  destruct (remove_loop_frame _ _ _ _ _ Hclean) as (G1 & G2 & G3).
  assert (Hmap : map uncabled (interfaces st2) = map uncabled (interfaces st))
    by congruence.
  split; [congruence|]. split; [exact Hmap|]. split; [|congruence].
  rewrite <- (length_map uncabled (interfaces st2)), Hmap. apply length_map.
Qed.

Lemma run_device_writes_cables_only_example :
  devices (Cable_save (Cable_delete Examples.cabled_to_E 1) 1 3)
  = devices Examples.cabled_to_E
  /\ map uncabled (interfaces (Cable_save (Cable_delete Examples.cabled_to_E 1) 1 3))
     = map uncabled (interfaces Examples.cabled_to_E)
  /\ List.length (interfaces (Cable_save (Cable_delete Examples.cabled_to_E 1) 1 3))
     = List.length (interfaces Examples.cabled_to_E)
  /\ next_interface_id (Cable_save (Cable_delete Examples.cabled_to_E 1) 1 3)
     = next_interface_id Examples.cabled_to_E.
Proof.
  apply (run_device_writes_cables_only false Examples.cabled_to_E _ Examples.D
           (Examples.report "eth0" "F" "eth2")
           [CableUpdate.DeletingStaleCable "D" "eth0" "D" "eth1" "E";
            CableUpdate.CreatingCable "D" "eth0" "D" "eth2" "F"]).
  reflexivity.
Defined.

(** ** Unique names make lookups unambiguous *)

Lemma filter_both {A : Type} (p q : A -> bool) (l : list A) :
  filter (fun x => p x && q x) l = filter q (filter p l).
Proof.
  induction l as [|x l IH]; simpl; [reflexivity|].
  destruct (p x); simpl; [|exact IH]. destruct (q x); now rewrite IH.
Qed.

Lemma distinct_filter_short {A : Type} (f : A -> string) (k : string) (l : list A) :
  NoDup (map f l) -> List.length (filter (fun x => String.eqb (f x) k) l) <= 1.
Proof.
  induction l as [|x l IH]; simpl; intro H; [lia|].
  inversion H as [|y m Hnot Hrest]; subst.
  destruct (String.eqb (f x) k) eqn:E; [|auto].
  apply String.eqb_eq in E. simpl.
  assert (Hnone : filter (fun y => String.eqb (f y) k) l = []).
  { clear -Hnot E. induction l as [|y l IH]; simpl; [reflexivity|].
    destruct (String.eqb (f y) k) eqn:E2.
    - apply String.eqb_eq in E2. exfalso. apply Hnot. left. congruence.
    - apply IH. intro Hin. apply Hnot. now right. }
  rewrite Hnone. simpl. lia.
Qed.

Lemma objects_get_short {A : Type} (p : A -> bool) (rows : list A) :
  List.length (filter p rows) <= 1 -> objects_get p rows <> Multiple.
Proof.
  unfold objects_get. destruct (filter p rows) as [|x [|y l]]; simpl; intro H;
    try discriminate. lia.
Qed.

Lemma names_ok_device (st : Store) (name : string) :
  names_ok st = true -> Device_get st name <> Multiple.
Proof.
  unfold names_ok. intro H. apply andb_true_iff in H. destruct H as [H _].
  apply objects_get_short. apply distinct_filter_short. now apply distinct_NoDup.
Qed.

Lemma names_ok_interface (st : Store) (d : Device) (name : string) :
  names_ok st = true -> In d (devices st) ->
  Interface_get st (dev_id d) name <> Multiple.
Proof.
  unfold names_ok. intros H Hin. apply andb_true_iff in H. destruct H as [_ H].
  rewrite forallb_forall in H. specialize (H d Hin).
  apply objects_get_short.
  rewrite (filter_both (fun i => Nat.eqb (if_device i) (dev_id d))
                       (fun i => String.eqb (if_name i) name)).
  apply distinct_filter_short. now apply distinct_NoDup.
Qed.

Lemma Device_get_found (st : Store) (name : string) (d : Device) :
  Device_get st name = Found d -> In d (devices st) /\ dev_name d = name.
Proof.
  intro H. apply objects_get_found in H. destruct H as [Hin Hp].
  apply String.eqb_eq in Hp. auto.
Qed.

(** Unique names are a matter of the device table and of the columns of
    the interface table that the cable script does not write. *)
Lemma names_ok_frame (st st' : Store) :
  devices st' = devices st ->
  map uncabled (interfaces st') = map uncabled (interfaces st) ->
  names_ok st' = names_ok st.
Proof.
  intros Hd Hi. unfold names_ok. rewrite Hd. f_equal.
  assert (Hnames : forall d l,
             map if_name (filter (fun i => Nat.eqb (if_device i) (dev_id d)) l)
             = map if_name (filter (fun i => Nat.eqb (if_device i) (dev_id d))
                                   (map uncabled l))).
  { intros d l. induction l as [|x l IH]; simpl; [reflexivity|].
    destruct (Nat.eqb (if_device x) (dev_id d)); simpl; now rewrite IH. }
  clear Hd. induction (devices st) as [|d ds IH]; simpl; [reflexivity|].
  rewrite IH. f_equal. f_equal.
  rewrite (Hnames d (interfaces st')), Hi. symmetry. apply Hnames.
Qed.

(** ** An entry returns on well-formed input *)

Lemma reconcile_returns (show : bool) (device : Device) (st : Store)
      (lname rdev rname : string) :
  refs_ok st = true -> names_ok st = true -> In device (devices st) ->
  exists st' log,
    CableUpdate.reconcile show device st lname rdev rname = Ok (st', log).
Proof.
  intros Hrefs Hnames Hdev. unfold CableUpdate.reconcile.
  pose proof (names_ok_interface st device lname Hnames Hdev) as Hl.
  destruct (Interface_get st (dev_id device) lname) as [li| |] eqn:El;
    [|eauto|contradiction].
  destruct (Interface_get_found _ _ _ _ El) as (Hlin & _).
  destruct (check_cable_returns st li rdev rname Hrefs Hlin)
    as (decision & Hd & Hnocable & _).
  rewrite Hd. simpl. destruct decision as [delete_cable|]; [|eauto].
  unfold CableUpdate.connect.
  pose proof (names_ok_device st rdev Hnames) as Hr.
  destruct (Device_get st rdev) as [rd| |] eqn:Erd; [|eauto|contradiction].
  destruct (Device_get_found _ _ _ Erd) as (Hrdin & _).
  pose proof (names_ok_interface st rd rname Hnames Hrdin) as Hri.
  destruct (Interface_get st (dev_id rd) rname) as [ri| |] eqn:Eri;
    [|eauto|contradiction].
  destruct (Interface_get_found _ _ _ _ Eri) as (Hrin & _).
  destruct (refs_ok_device st li Hrefs Hlin) as [ld Hld].
  destruct (refs_ok_device st ri Hrefs Hrin) as [rd' Hrd'].
  assert (Hnew : forall st1,
             devices st1 = devices st ->
             exists st2 log2,
               CableUpdate.create_cable device st1 li ri = Ok (st2, log2)).
  { intros st1 Hsame. unfold CableUpdate.create_cable, CableUpdate.device_of,
      find_device in *. simpl. rewrite Hsame, Hld. simpl. rewrite Hrd'. simpl. eauto. }
  destruct delete_cable.
  - destruct (if_cable li) as [cid|] eqn:Hc.
    2:{ specialize (Hnocable eq_refl). discriminate. }
    destruct (refs_ok_link st li cid Hrefs Hlin Hc) as (c & p & peer & _ & Hp & Hfp).
    destruct (find_interface_some st p peer Hfp) as [Hpin _].
    destruct (refs_ok_device st peer Hrefs Hpin) as [pd Hpd].
    unfold CableUpdate.delete_stale. rewrite Hc. simpl.
    unfold CableUpdate.device_of, CableUpdate.cable_peer, find_device in *. simpl.
    rewrite Hld. simpl. rewrite Hp. simpl. rewrite Hfp. simpl. rewrite Hpd. simpl.
    destruct (Hnew (Cable_delete st cid) eq_refl) as (st2 & log2 & Hcreate).
    unfold CableUpdate.device_of, find_device in Hcreate. rewrite Hcreate. simpl. eauto.
  - simpl. destruct (Hnew st eq_refl) as (st2 & log2 & Hcreate).
    rewrite Hcreate. simpl. eauto.
Qed.

(** ** A store that agrees with the report *)

Lemma entry_right_alone (show : bool) (device : Device) (st : Store)
      (lname : string) (first : CableUpdate.Neighbor)
      (others : list CableUpdate.Neighbor) :
  refs_ok st = true ->
  entry_right st device (lname, first :: others) = true ->
  CableUpdate.reconcile show device st lname (CableUpdate.hostname first)
                        (CableUpdate.port first) = Ok (st, []).
Proof.
  intros Hrefs H. unfold entry_right in H. simpl in H.
  unfold CableUpdate.reconcile.
  destruct (Interface_get st (dev_id device) lname) as [li| |] eqn:El;
    try discriminate.
  destruct (Interface_get_found _ _ _ _ El) as (Hlin & _).
  destruct (check_cable_returns st li (CableUpdate.hostname first)
                                (CableUpdate.port first) Hrefs Hlin)
    as (decision & Hd & _ & Hdec).
  rewrite Hd. simpl.
  destruct (if_cable li) as [cid|]; [|discriminate].
  rewrite (Hdec cid eq_refl).
  destruct (far_end st li) as [[n d]|]; [|discriminate].
  now rewrite H.
Qed.

Lemma neighbors_loop_right (show : bool) (device : Device) (st : Store)
      (items : CableUpdate.lldp_neighbors) :
  refs_ok st = true ->
  forallb (entry_right st device) items = true ->
  forall names,
    CableUpdate.neighbors_loop show device items st names
    = Ok (st, names ++ map fst items, []).
Proof.
  intro Hrefs. induction items as [|[lname remote] items IH]; simpl;
    intros H names.
  - now rewrite app_nil_r.
  - apply andb_true_iff in H. destruct H as [Hfirst H].
    destruct remote as [|first others]; [discriminate|]. simpl.
    rewrite (entry_right_alone show device st lname first others Hrefs Hfirst).
    simpl. rewrite (IH H). simpl. now rewrite <- app_assoc.
Qed.

(** X5: a store that agrees with the report is a fixed point of the cable
    script.  If every entry of the report is right in the store and no
    interface of the device with a cable goes unreported, the run on the
    device returns the store as it was and logs nothing, warnings or not. *)
Theorem agreeing_store_is_left_alone
        (show : bool) (st : Store) (device : Device)
        (report : CableUpdate.lldp_neighbors) :
  refs_ok st = true ->
  agrees st device report = true ->
  CableUpdate.run_device show st device report = Ok (st, []).
Proof.
  intros Hrefs H. unfold agrees in H. apply andb_true_iff in H.
  destruct H as [Hright Hold]. unfold CableUpdate.run_device.
  rewrite (neighbors_loop_right show device st report Hrefs Hright). simpl.
  unfold CableUpdate.remove_old_cables.
  now destruct (CableUpdate.old_cable_interfaces st device (map fst report)).
Qed.

Lemma agreeing_store_is_left_alone_example :
  CableUpdate.run_device true Examples.cabled_to_E Examples.D
                         (Examples.report "eth0" "E" "eth1")
  = Ok (Examples.cabled_to_E, []).
Proof.
  apply (agreeing_store_is_left_alone true Examples.cabled_to_E Examples.D
                                      (Examples.report "eth0" "E" "eth1")).
  - reflexivity.
  - reflexivity.
Defined.

(** ** After the cleanup pass *)

(** The cleanup loop takes cable columns away and writes nothing else. *)
Lemma remove_loop_rows (device : Device) (rows : list Interface) :
  forall st st' log,
    CableUpdate.remove_loop device rows st = Ok (st', log) ->
    exists f,
      interfaces st' = map f (interfaces st)
      /\ forall i, f i = i \/ f i = set_cable i None None.
Proof.
  induction rows as [|r rows IH]; simpl; intros st st' log H.
  - injection H as <- _. exists (fun i => i). split; [now rewrite map_id|auto].
  - destruct (if_cable r) as [cid|]; [|discriminate].
    destruct (find_cable st cid) as [old|]; [|eauto].
    apply bind_ok in H. destruct H as ([a ad] & _ & H).
    apply bind_ok in H. destruct H as ([b bd] & _ & H).
    apply bind_ok in H. destruct H as ([st2 log2] & Hloop & H).
    injection H as <- _.
    destruct (IH _ _ _ Hloop) as (f & Hf & Hcases).
    exists (fun i => f (detach (cable_id old) i)). split.
    + rewrite Hf. simpl. now rewrite map_map.
    + intro i. unfold detach. destruct (holds_cable (cable_id old) i); [|apply Hcases].
      right. destruct (Hcases (set_cable i None None)) as [->| ->]; reflexivity.
Qed.

(** X6: after a run on a device, no interface of the device that the
    report does not name has a cable: the cleanup pass has deleted the cable
    of each of them, and with it the reference the interface held. *)
Theorem unreported_interfaces_end_uncabled
        (show : bool) (st st' : Store) (device : Device)
        (report : CableUpdate.lldp_neighbors) (log : list CableUpdate.message) :
  refs_ok st = true ->
  CableUpdate.run_device show st device report = Ok (st', log) ->
  forall i, In i (interfaces st') -> if_device i = dev_id device ->
            ~ In (if_name i) (map fst report) -> if_cable i = None.
Proof.
  intros Hrefs H i Hin Hdev Hname. unfold CableUpdate.run_device in H.
  apply bind_ok in H. destruct H as ([[st1 names] log1] & Hloop & H).
  apply bind_ok in H. destruct H as ([st2 log2] & Hclean & H).
  injection H as <- _.
  pose proof (neighbors_loop_names _ _ _ _ _ _ _ _ Hloop) as Hnames.
  simpl in Hnames. subst names.
  pose proof (neighbors_loop_refs_ok _ _ _ _ _ _ _ _ Hrefs Hloop) as Hrefs1.
  unfold CableUpdate.remove_old_cables in Hclean.
  pose proof (remove_loop_refs_ok _ _ _ _ _ Hrefs1 Hclean) as Hrefs2.
  destruct (remove_loop_rows _ _ _ _ _ Hclean) as (f & Hf & Hcases).
  destruct (if_cable i) as [c|] eqn:Hc; [exfalso|reflexivity].
  rewrite Hf in Hin. apply in_map_iff in Hin. destruct Hin as (i0 & Hi0 & Hin0).
  assert (Hsame : i0 = i).
  { destruct (Hcases i0) as [E|E]; [congruence|].
    rewrite E in Hi0. subst i. discriminate. }
  subst i0.
  assert (Hnd : NoDup (map cable_id (cables st1))) by now apply refs_ok_iff.
  destruct (remove_loop_returns device
              (CableUpdate.old_cable_interfaces st1 device (map fst report)) st1
              (refs_ok_ends st1 Hrefs1) Hnd)
    as (st3 & log3 & Hclean' & Hgone & _).
  { intros r Hr. apply filter_In in Hr. destruct Hr as [_ Hr].
    destruct (if_cable r); [discriminate|].
    rewrite andb_false_r in Hr. discriminate. }
  rewrite Hclean in Hclean'. injection Hclean' as <- <-.
  assert (Hrow : In i (CableUpdate.old_cable_interfaces st1 device (map fst report))).
  { apply filter_In. split; [assumption|].
    rewrite Hc, Hdev, Nat.eqb_refl. simpl.
    apply negb_true_iff. apply not_true_is_false. intro Hex.
    apply existsb_exists in Hex. destruct Hex as (n & Hn & Heq).
    apply String.eqb_eq in Heq. now subst. }
  pose proof (Hgone i c Hrow Hc) as Hnone.
  assert (Hin2 : In i (interfaces st2)).
  { rewrite Hf. apply in_map_iff. exists i. split; [|assumption].
    destruct (Hcases i) as [E|E]; [assumption|].
    (* the row was rewritten without a cable: it is not [i] *)
    exfalso. clear -E Hi0 Hc. rewrite E in Hi0. rewrite <- Hi0 in Hc. discriminate. }
  destruct (refs_ok_link st2 i c Hrefs2 Hin2 Hc) as (x & _ & _ & Hsome & _).
  congruence.
Qed.

Lemma unreported_interfaces_end_uncabled_example :
  Forall (fun i => if_device i = 1 ->
                   ~ In (if_name i) (map fst (Examples.report "eth0" "E" "eth1")) ->
                   if_cable i = None)
         (interfaces Examples.one_link).
Proof.
  apply Forall_forall.
  apply (unreported_interfaces_end_uncabled false Examples.two_links Examples.one_link
           Examples.D (Examples.report "eth0" "E" "eth1")
           [CableUpdate.DeletingOldCable "D" "eth7" "D" "eth2" "F"]).
  - reflexivity.
  - reflexivity.
Defined.

(** ** Cables and log lines add up *)

Lemma filter_none_weaker {A : Type} (p q : A -> bool) (l : list A) :
  (forall x, q x = true -> p x = true) -> filter p l = [] -> filter q l = [].
Proof.
  intro H. induction l as [|x l IH]; simpl; [reflexivity|].
  destruct (p x) eqn:E; [discriminate|]. intro Hl.
  destruct (q x) eqn:E2; [|auto]. apply H in E2. congruence.
Qed.

Lemma reconcile_count (show : bool) (device : Device) (st st' : Store)
      (lname rdev rname : string) (log : list CableUpdate.message) :
  refs_ok st = true ->
  CableUpdate.reconcile show device st lname rdev rname = Ok (st', log) ->
  List.length (cables st') + List.length (filter deletion log)
  = List.length (cables st) + List.length (filter creation log)
  /\ next_cable_id st' = next_cable_id st + List.length (filter creation log).
Proof.
  intros Hrefs H. apply reconcile_outcome in H.
  destruct H as [[-> Hquiet]|(li & rd & ri & ld & rd' & _ & _ & _ & H)].
  - rewrite (filter_none_weaker success deletion log),
            (filter_none_weaker success creation log); auto.
    + intros [] E; try discriminate; reflexivity.
    + intros [] E; try discriminate; reflexivity.
  - destruct H as [(_ & -> & ->)|(cid & c & peer & pd & _ & Hf & -> & ->)]; simpl.
    + rewrite length_app. simpl. lia.
    + rewrite length_app. simpl.
      destruct (find_cable_some st cid c Hf) as [Hin <-].
      assert (Hnd : NoDup (map cable_id (cables st))) by now apply refs_ok_iff.
      pose proof (delete_removes_one (cables st) c Hnd Hin). lia.
Qed.

Lemma neighbors_loop_count (show : bool) (device : Device)
      (items : CableUpdate.lldp_neighbors) :
  forall st names st' names' log,
    refs_ok st = true ->
    CableUpdate.neighbors_loop show device items st names = Ok (st', names', log) ->
    List.length (cables st') + List.length (filter deletion log)
    = List.length (cables st) + List.length (filter creation log)
    /\ next_cable_id st' = next_cable_id st + List.length (filter creation log).
Proof.
  induction items as [|[lname remote] items IH]; simpl;
    intros st names st' names' log Hrefs H.
  - injection H as <- _ <-. simpl. lia.
  - apply bind_ok in H. destruct H as (first & _ & H).
    apply bind_ok in H. destruct H as ([st1 log1] & Hrec & H).
    apply bind_ok in H. destruct H as ([[st2 names2] log2] & Hloop & H).
    injection H as <- _ <-.
    destruct (reconcile_count _ _ _ _ _ _ _ _ Hrefs Hrec) as [H1 H1'].
    destruct (IH _ _ _ _ _ (reconcile_refs_ok _ _ _ _ _ _ _ _ Hrefs Hrec) Hloop)
      as [H2 H2'].
    rewrite !filter_app, !length_app. lia.
Qed.

Lemma remove_loop_next_key (device : Device) (rows : list Interface) :
  forall st st' log,
    CableUpdate.remove_loop device rows st = Ok (st', log) ->
    next_cable_id st' = next_cable_id st.
Proof.
  induction rows as [|r rows IH]; simpl; intros st st' log H.
  - now injection H as <- _.
  - destruct (if_cable r) as [cid|]; [|discriminate].
    destruct (find_cable st cid) as [old|]; [|eauto].
    apply bind_ok in H. destruct H as ([a ad] & _ & H).
    apply bind_ok in H. destruct H as ([b bd] & _ & H).
    apply bind_ok in H. destruct H as ([st2 log2] & Hloop & H).
    injection H as <- _. now rewrite (IH _ _ _ Hloop).
Qed.

(** X7: cables, keys and log lines add up.  On a store with referential
    integrity, when a run on a device returns, the next cable key has
    advanced by the number of "creating" lines of the log, and the cable
    table has as many rows as before, plus that number, minus the number of
    "deleting" lines.  A cable is inserted only by taking the next key, so
    the run inserted as many cables as it logged creations and removed as
    many rows as it logged deletions. *)
Theorem cables_and_lines_add_up
        (show : bool) (st st' : Store) (device : Device)
        (report : CableUpdate.lldp_neighbors) (log : list CableUpdate.message) :
  refs_ok st = true ->
  CableUpdate.run_device show st device report = Ok (st', log) ->
  next_cable_id st' = next_cable_id st + List.length (filter creation log)
  /\ List.length (cables st') + List.length (filter deletion log)
     = List.length (cables st) + List.length (filter creation log).
Proof.
  intros Hrefs H. unfold CableUpdate.run_device in H.
  apply bind_ok in H. destruct H as ([[st1 names] log1] & Hloop & H).
  apply bind_ok in H. destruct H as ([st2 log2] & Hclean & H).
  injection H as <- <-.
  destruct (neighbors_loop_count _ _ _ _ _ _ _ _ Hrefs Hloop) as [H1 H1'].
  pose proof (neighbors_loop_refs_ok _ _ _ _ _ _ _ _ Hrefs Hloop) as Hrefs1.
  unfold CableUpdate.remove_old_cables in Hclean.
  pose proof (remove_loop_next_key _ _ _ _ _ Hclean) as Hkey.
  assert (Hnd : NoDup (map cable_id (cables st1))) by now apply refs_ok_iff.
  destruct (remove_loop_returns device
              (CableUpdate.old_cable_interfaces st1 device names) st1
              (refs_ok_ends st1 Hrefs1) Hnd)
    as (st3 & log3 & Hclean' & _ & _ & Hlen & Hall).
  { intros r Hr. apply filter_In in Hr. destruct Hr as [_ Hr].
    destruct (if_cable r); [discriminate|].
    rewrite andb_false_r in Hr. discriminate. }
  rewrite Hclean in Hclean'. injection Hclean' as <- <-.
  assert (Hd : List.length (filter deletion log2) = List.length log2
               /\ List.length (filter creation log2) = 0).
  { clear -Hall. induction Hall as [|m l (a & ad & b & bd & ->) _ [IH1 IH2]]; simpl;
      [auto|]. rewrite IH1. auto. }
  destruct Hd as [Hd1 Hd2].
  rewrite !filter_app, !length_app. lia.
Qed.

Lemma cables_and_lines_add_up_example :
  next_cable_id (Cable_save (Cable_delete Examples.cabled_to_E 1) 1 3)
  = next_cable_id Examples.cabled_to_E + 1
  /\ List.length (cables (Cable_save (Cable_delete Examples.cabled_to_E 1) 1 3)) + 1
     = List.length (cables Examples.cabled_to_E) + 1.
Proof.
  apply (cables_and_lines_add_up false Examples.cabled_to_E _ Examples.D
           (Examples.report "eth0" "F" "eth2")
           [CableUpdate.DeletingStaleCable "D" "eth0" "D" "eth1" "E";
            CableUpdate.CreatingCable "D" "eth0" "D" "eth2" "F"]).
  - reflexivity.
  - reflexivity.
Defined.

(** ** Cables of other devices *)

Lemma foreign_delete (st : Store) (device cid other : nat) (c : Cable) :
  foreign st device cid c -> other <> cid ->
  foreign (Cable_delete st other) device cid c.
Proof.
  intros (Hlt & Hf & Hheld) Hne. split; [exact Hlt|]. split.
  - rewrite find_cable_delete_other; auto.
  - intros i' Hin Hc. simpl in Hin. apply in_map_iff in Hin.
    destruct Hin as (i & <- & Hin). rewrite detach_device.
    apply (Hheld i Hin). unfold detach in Hc.
    destruct (holds_cable other i); [discriminate|assumption].
Qed.

Lemma foreign_save (st : Store) (device cid a b : nat) (c : Cable) :
  foreign st device cid c -> foreign (Cable_save st a b) device cid c.
Proof.
  intros (Hlt & Hf & Hheld). split; [simpl; lia|]. split.
  - rewrite find_cable_save_old; [assumption|now rewrite Hf].
  - intros i' Hin Hc. simpl in Hin. apply in_map_iff in Hin.
    destruct Hin as (i & <- & Hin). rewrite attach_device.
    apply (Hheld i Hin). unfold attach in Hc.
    destruct (Nat.eqb (if_id i) a); [simpl in Hc; injection Hc as Hc; lia|].
    destruct (Nat.eqb (if_id i) b); [simpl in Hc; injection Hc as Hc; lia|].
    assumption.
Qed.

Lemma neighbors_loop_foreign (show : bool) (device : Device) (cid : nat) (c : Cable)
      (items : CableUpdate.lldp_neighbors) :
  forall st names st' names' log,
    foreign st (dev_id device) cid c ->
    CableUpdate.neighbors_loop show device items st names = Ok (st', names', log) ->
    foreign st' (dev_id device) cid c.
Proof.
  induction items as [|[lname remote] items IH]; simpl;
    intros st names st' names' log Hfor H.
  - now injection H as <- _ _.
  - apply bind_ok in H. destruct H as (first & _ & H).
    apply bind_ok in H. destruct H as ([st1 log1] & Hrec & H).
    apply bind_ok in H. destruct H as ([[st2 names2] log2] & Hloop & H).
    injection H as <- _ _. apply (IH _ _ _ _ _) with (2 := Hloop).
    apply reconcile_outcome in Hrec.
    destruct Hrec as [[-> _]|(li & rd & ri & ld & rd' & Hl & _ & _ & Hrec)];
      [assumption|].
    destruct Hrec as [(_ & -> & _)|(old & x & peer & pd & Hc & _ & -> & _)].
    + now apply foreign_save.
    + apply foreign_save. apply foreign_delete; [assumption|].
      intros ->. destruct (Interface_get_found _ _ _ _ Hl) as (Hin & Hdev & _).
      destruct Hfor as (_ & _ & Hheld). now apply (Hheld li Hin Hc).
Qed.

(** X8: a run on a device deletes no cable of other devices.  A cable that
    no interface of the device holds when the run starts is in the store,
    unchanged, when the run returns, whatever the report says. *)
Theorem foreign_cables_survive
        (show : bool) (st st' : Store) (device : Device)
        (report : CableUpdate.lldp_neighbors) (log : list CableUpdate.message)
        (cid : nat) (c : Cable) :
  refs_ok st = true ->
  CableUpdate.run_device show st device report = Ok (st', log) ->
  find_cable st cid = Some c ->
  (forall i, In i (interfaces st) -> if_cable i = Some cid ->
             if_device i <> dev_id device) ->
  find_cable st' cid = Some c.
Proof.
  intros Hrefs H Hf Hheld. unfold CableUpdate.run_device in H.
  apply bind_ok in H. destruct H as ([[st1 names] log1] & Hloop & H).
  apply bind_ok in H. destruct H as ([st2 log2] & Hclean & H).
  injection H as <- _.
  assert (Hfor : foreign st (dev_id device) cid c).
  { split; [now apply (refs_ok_cable_id st cid c)|auto]. }
  destruct (neighbors_loop_foreign _ _ _ _ _ _ _ _ _ _ Hfor Hloop)
    as (_ & Hf1 & Hheld1).
  unfold CableUpdate.remove_old_cables in Hclean.
  assert (Hrows : forall r,
             In r (CableUpdate.old_cable_interfaces st1 device names) ->
             if_cable r <> Some cid).
  { intros r Hr Hc. apply filter_In in Hr. destruct Hr as [Hin Hr].
    apply andb_true_iff in Hr. destruct Hr as [Hr _].
    apply andb_true_iff in Hr. destruct Hr as [Hdev _].
    apply Nat.eqb_eq in Hdev. now apply (Hheld1 r Hin Hc). }
  destruct (remove_loop_spares device _ cid Hrows _ _ _ Hclean) as [Hsame _].
  congruence.
Qed.

Lemma foreign_cables_survive_example :
  find_cable (Cable_save Examples.remote_taken 1 3) 1 = Some (mkCable 1 3 2).
Proof.
  apply (foreign_cables_survive false Examples.remote_taken _ Examples.D
           (Examples.report "eth0" "F" "eth2")
           [CableUpdate.CreatingCable "D" "eth0" "D" "eth2" "F"] 1 (mkCable 1 3 2)).
  - reflexivity.
  - reflexivity.
  - reflexivity.
  - simpl. intros i [<-|[<-|[<-|[]]]]; simpl; intro H; try discriminate H;
      intro E; discriminate E.
Defined.

(** ** An entry that was written is right *)

Lemma find_by_key {A : Type} (key : A -> nat) (l : list A) (x : A) :
  NoDup (map key l) -> In x l ->
  find (fun y => Nat.eqb (key y) (key x)) l = Some x.
Proof.
  induction l as [|y l IH]; simpl; intros Hnd Hin; [contradiction|].
  inversion Hnd as [|z m Hnot Hrest]; subst.
  destruct (Nat.eqb (key y) (key x)) eqn:E.
  - destruct Hin as [->|Hin]; [reflexivity|].
    apply Nat.eqb_eq in E. exfalso. apply Hnot. rewrite E. now apply in_map.
  - destruct Hin as [->|Hin]; [now rewrite Nat.eqb_refl in E|auto].
Qed.

Lemma objects_get_map {A : Type} (p : A -> bool) (f : A -> A) (l : list A) (x : A) :
  (forall y, p (f y) = p y) ->
  objects_get p l = Found x -> objects_get p (map f l) = Found (f x).
Proof.
  intros Hp H. apply objects_get_found_iff in H. apply objects_get_found_iff.
  assert (E : filter p (map f l) = map f (filter p l)).
  { clear H. induction l as [|y l IH]; simpl; [reflexivity|].
    rewrite Hp. destruct (p y); simpl; now rewrite IH. }
  now rewrite E, H.
Qed.

Lemma Interface_get_delete (st : Store) (cid device : nat) (name : string)
      (i : Interface) :
  Interface_get st device name = Found i ->
  Interface_get (Cable_delete st cid) device name = Found (detach cid i).
Proof.
  unfold Interface_get. simpl. apply objects_get_map.
  intro y. now rewrite detach_device, detach_name.
Qed.

Lemma Interface_get_save (st : Store) (a b device : nat) (name : string)
      (i : Interface) :
  Interface_get st device name = Found i ->
  Interface_get (Cable_save st a b) device name
  = Found (attach (next_cable_id st) a b i).
Proof.
  unfold Interface_get. simpl. apply objects_get_map.
  intro y. now rewrite attach_device, attach_name.
Qed.

(** Saving a cable makes the entry right that asked for it. *)
Lemma save_makes_right (st : Store) (device : Device) (lname : string)
      (li ri : Interface) (rd : Device) (b : nat) (others : list CableUpdate.Neighbor) :
  Interface_get st (dev_id device) lname = Found li ->
  find_interface st b = Some ri ->
  find_device st (if_device ri) = Some rd ->
  entry_right (Cable_save st (if_id li) b) device
              (lname, CableUpdate.mkNeighbor (dev_name rd) (if_name ri) :: others)
  = true.
Proof.
  intros Hl Hri Hrd. unfold entry_right. simpl fst. simpl snd. cbv iota.
  rewrite (Interface_get_save st (if_id li) b _ _ li Hl).
  unfold attach at 1 2. rewrite Nat.eqb_refl. simpl if_cable.
  unfold far_end. simpl if_cable_peer.
  cbv beta iota.
  rewrite find_interface_save, Hri. simpl option_map. cbv beta iota.
  rewrite attach_device, attach_name.
  change (find_device (Cable_save st (if_id li) b) (if_device ri))
    with (find_device st (if_device ri)).
  rewrite Hrd. simpl. now rewrite !String.eqb_refl.
Qed.

(** X9: an entry that created a cable is right afterwards, and processing
    it again changes nothing.  With unique keys of devices and interfaces
    and referential integrity: if the entry logged a "creating" line, then in
    the store it left the local interface has a cable whose far end is the
    reported remote, and the same entry processed on that store returns it
    unchanged with an empty log. *)
Theorem written_entry_is_right
        (show : bool) (device : Device) (st st' : Store)
        (lname rdev rname : string) (log : list CableUpdate.message) :
  refs_ok st = true -> ids_ok st = true ->
  nodupb (map dev_id (devices st)) = true ->
  CableUpdate.reconcile show device st lname rdev rname = Ok (st', log) ->
  filter creation log <> [] ->
  entry_right st' device (lname, [CableUpdate.mkNeighbor rdev rname]) = true
  /\ CableUpdate.reconcile show device st' lname rdev rname = Ok (st', []).
Proof.
  intros Hrefs Hids Hdevs H Hcreated.
  pose proof (reconcile_refs_ok _ _ _ _ _ _ _ _ Hrefs H) as Hrefs'.
  assert (Hright : entry_right st' device (lname, [CableUpdate.mkNeighbor rdev rname])
                   = true).
  { apply reconcile_outcome in H.
    destruct H as [[_ Hquiet]|(li & rd & ri & ld & rd' & Hl & Hrd & Hri & H)].
    { exfalso. apply Hcreated. apply (filter_none_weaker success); [|assumption].
      intros [] E; try discriminate; reflexivity. }
    destruct (Interface_get_found _ _ _ _ Hri) as (Hrin & Hrdev & Hrname).
    destruct (Device_get_found _ _ _ Hrd) as (Hrdin & Hrdname).
    apply ids_ok_iff in Hids. destruct Hids as [Hnd _].
    apply nodupb_iff in Hdevs.
    pose proof (find_by_key if_id (interfaces st) ri Hnd Hrin) as Hfri.
    pose proof (find_by_key dev_id (devices st) rd Hdevs Hrdin) as Hfrd.
    rewrite <- Hrdname, <- Hrname.
    destruct H as [(_ & -> & _)|(cid & c & peer & pd & _ & _ & -> & _)].
    - apply save_makes_right; [assumption|exact Hfri|].
      unfold find_device. now rewrite Hrdev.
    - rewrite <- (detach_id cid li).
      replace (if_name ri) with (if_name (detach cid ri)) by apply detach_name.
      apply save_makes_right.
      + now apply Interface_get_delete.
      + rewrite find_interface_delete. unfold find_interface. now rewrite Hfri.
      + rewrite detach_device. unfold find_device. simpl. now rewrite Hrdev. }
  split; [assumption|].
  apply (entry_right_alone show device st' lname
                           (CableUpdate.mkNeighbor rdev rname) [] Hrefs' Hright).
Qed.

Lemma written_entry_is_right_example :
  entry_right (Cable_save (Cable_delete Examples.cabled_to_E 1) 1 3) Examples.D
              ("eth0", [CableUpdate.mkNeighbor "F" "eth2"]) = true
  /\ CableUpdate.reconcile false Examples.D
       (Cable_save (Cable_delete Examples.cabled_to_E 1) 1 3) "eth0" "F" "eth2"
     = Ok (Cable_save (Cable_delete Examples.cabled_to_E 1) 1 3, []).
Proof.
  apply (written_entry_is_right false Examples.D Examples.cabled_to_E _
           "eth0" "F" "eth2"
           [CableUpdate.DeletingStaleCable "D" "eth0" "D" "eth1" "E";
            CableUpdate.CreatingCable "D" "eth0" "D" "eth2" "F"]).
  - reflexivity.
  - reflexivity.
  - reflexivity.
  - reflexivity.
  - simpl. discriminate.
Defined.

(** * Further properties of the interface script *)

(** ** Lookups before and after *)

Lemma reconcile_lookup_other (device : Device) (snap : InterfaceUpdate.snapshot)
      (st st1 : Store) (name : string) (log : list InterfaceUpdate.message)
      (device' : nat) (name' : string) :
  ids_ok st = true ->
  InterfaceUpdate.reconcile device snap st name = Ok (st1, log) ->
  (device', name') <> (dev_id device, name) ->
  Interface_get st1 device' name' = Interface_get st device' name'.
Proof.
  intros Hids H Hne. apply reconcile_cases in H.
  destruct H as (item & _ & [(_ & -> & _)|[(i & _ & _ & -> & _)
                                          |(i & Hget & _ & -> & _)]]).
  - now apply Interface_get_after_create_other.
  - reflexivity.
  - now apply (save_get_other st (dev_id device) device' name name').
Qed.

Lemma reconcile_lookup_same (device : Device) (snap : InterfaceUpdate.snapshot)
      (st st1 : Store) (name : string) (log : list InterfaceUpdate.message) :
  ids_ok st = true ->
  InterfaceUpdate.reconcile device snap st name = Ok (st1, log) ->
  exists i, Interface_get st1 (dev_id device) name = Found i.
Proof.
  intros Hids H.
  destruct (reconcile_advance _ _ _ _ _ _ Hids H) as [_ (item & i & _ & Hget & _)].
  eauto.
Qed.

Lemma interfaces_loop_other (match_at : string -> string -> nat -> bool)
      (pattern : string) (device : Device) (snap : InterfaceUpdate.snapshot)
      (device' : nat) (name' : string) (names : list string) :
  device' <> dev_id device \/ ~ In name' names
  \/ InterfaceUpdate.ignored match_at pattern name' = true ->
  forall st st1 log,
    ids_ok st = true ->
    InterfaceUpdate.interfaces_loop match_at pattern device snap names st
    = Ok (st1, log) ->
    Interface_get st1 device' name' = Interface_get st device' name'.
Proof.
  induction names as [|n names IH]; intros Hout st st1 log Hids H; simpl in H.
  - now injection H as <- _.
  - assert (Hout' : device' <> dev_id device \/ ~ In name' names
                    \/ InterfaceUpdate.ignored match_at pattern name' = true).
    { destruct Hout as [Hd|[Hn|Hi]]; auto. right. left. intro. apply Hn. now right. }
    destruct (InterfaceUpdate.ignored match_at pattern n) eqn:Hig; [eauto|].
    apply bind_ok in H. destruct H as ([st' log'] & Hrec & H).
    apply bind_ok in H. destruct H as ([st2 log2] & Hloop & H).
    injection H as <- _.
    destruct (reconcile_advance _ _ _ _ _ _ Hids Hrec) as [(Hids' & _) _].
    rewrite (IH Hout' _ _ _ Hids' Hloop).
    apply (reconcile_lookup_other device snap st st' n log'); try assumption.
    intro Heq. injection Heq as -> ->.
    destruct Hout as [Hd|[Hn|Hi]]; [now apply Hd|apply Hn; now left|congruence].
Qed.

(** X10: the interface script leaves alone what the snapshot does not
    name.  When a run on a device returns, the lookup of an interface by
    device and name gives what it gave before - the same row, or none - for
    every other device, for every name that is not a key of the snapshot and
    for every name the blacklist test ignores: such an interface is neither
    created nor updated. *)
Theorem unnamed_interfaces_are_left_alone
        (match_at : string -> string -> nat -> bool) (pattern : string)
        (st st' : Store) (device : Device) (snap : InterfaceUpdate.snapshot)
        (log : list InterfaceUpdate.message) (device' : nat) (name' : string) :
  ids_ok st = true ->
  InterfaceUpdate.run_device match_at pattern st device snap = Ok (st', log) ->
  device' <> dev_id device \/ ~ In name' (InterfaceUpdate.keys snap)
  \/ InterfaceUpdate.ignored match_at pattern name' = true ->
  Interface_get st' device' name' = Interface_get st device' name'.
Proof.
  intros Hids H Hout. unfold InterfaceUpdate.run_device in H.
  now apply (interfaces_loop_other match_at pattern device snap device' name'
               (InterfaceUpdate.keys snap) Hout st st' log).
Qed.

Lemma unnamed_interfaces_are_left_alone_example :
  exists st' log,
    InterfaceUpdate.run_device Re.literal_at "Vlan" Examples.cabled_to_E Examples.D
                               Examples.two_ports = Ok (st', log)
    /\ Interface_get st' 1 "Vlan10" = Interface_get Examples.cabled_to_E 1 "Vlan10".
Proof.
  eexists. eexists. split; [vm_compute; reflexivity|].
  eapply (unnamed_interfaces_are_left_alone Re.literal_at "Vlan" Examples.cabled_to_E
            _ Examples.D Examples.two_ports _ 1 "Vlan10").
  - reflexivity.
  - vm_compute. reflexivity.
  - right. right. reflexivity.
Defined.

(** ** Lookups stay unambiguous *)

Lemma names_ok_unambiguous (st : Store) : names_ok st = true -> unambiguous st.
Proof. intros H d name Hin. now apply names_ok_interface. Qed.

Lemma reconcile_unambiguous (device : Device) (snap : InterfaceUpdate.snapshot)
      (st st1 : Store) (name : string) (log : list InterfaceUpdate.message) :
  ids_ok st = true -> unambiguous st ->
  InterfaceUpdate.reconcile device snap st name = Ok (st1, log) ->
  unambiguous st1.
Proof.
  intros Hids Hun H d name' Hin.
  destruct (reconcile_advance _ _ _ _ _ _ Hids H) as [(_ & Hdev & _) _].
  rewrite Hdev in Hin.
  destruct (Nat.eq_dec (dev_id d) (dev_id device)) as [Hd|Hd];
    [destruct (string_dec name' name) as [->|Hn]|].
  - rewrite Hd. destruct (reconcile_lookup_same _ _ _ _ _ _ Hids H) as [i ->].
    discriminate.
  - rewrite (reconcile_lookup_other device snap st st1 name log); auto.
    intro Heq. injection Heq as _ Heq. contradiction.
  - rewrite (reconcile_lookup_other device snap st st1 name log); auto.
    intro Heq. injection Heq as Heq _. contradiction.
Qed.

Lemma interfaces_loop_unambiguous (match_at : string -> string -> nat -> bool)
      (pattern : string) (device : Device) (snap : InterfaceUpdate.snapshot)
      (names : list string) :
  forall st st1 log,
    ids_ok st = true -> unambiguous st ->
    InterfaceUpdate.interfaces_loop match_at pattern device snap names st
    = Ok (st1, log) ->
    ids_ok st1 = true /\ unambiguous st1.
Proof.
  induction names as [|n names IH]; intros st st1 log Hids Hun H; simpl in H.
  - injection H as <- _. auto.
  - destruct (InterfaceUpdate.ignored match_at pattern n); [eauto|].
    apply bind_ok in H. destruct H as ([st' log'] & Hrec & H).
    apply bind_ok in H. destruct H as ([st2 log2] & Hloop & H).
    injection H as <- _.
    destruct (reconcile_advance _ _ _ _ _ _ Hids Hrec) as [(Hids' & _) _].
    apply (IH _ _ _ Hids' (reconcile_unambiguous _ _ _ _ _ _ Hids Hun Hrec) Hloop).
Qed.

Lemma run_devices_unambiguous (match_at : string -> string -> nat -> bool)
      (napalm_call : nat -> InterfaceUpdate.snapshot) (pattern : string)
      (selected : list Device) :
  forall st st' log,
    ids_ok st = true -> unambiguous st ->
    InterfaceUpdate.run_devices match_at napalm_call pattern selected st
    = Ok (st', log) ->
    ids_ok st' = true /\ unambiguous st'.
Proof.
  induction selected as [|x selected IH]; intros st st' log Hids Hun H; simpl in H.
  - injection H as <- _. auto.
  - apply bind_ok in H. destruct H as ([st1 log1] & Hdev & H).
    apply bind_ok in H. destruct H as ([st2 log2] & Hrest & H).
    injection H as <- _. unfold InterfaceUpdate.run_device in Hdev.
    destruct (interfaces_loop_unambiguous _ _ _ _ _ _ _ _ Hids Hun Hdev)
      as [Hids1 Hun1].
    apply (IH _ _ _ Hids1 Hun1 Hrest).
Qed.

(** X11: the interface script never makes a lookup ambiguous.  With unique
    keys of interfaces: if, before a run, no lookup of an interface by a
    device of the store and a name finds more than one row, then the same
    holds of the store a returning run leaves, and keys are still unique.
    The script inserts a row only where the lookup for its device and name
    found none, and an update leaves device and name of the row alone. *)
Theorem lookups_stay_unambiguous
        (match_at : string -> string -> nat -> bool)
        (napalm_call : nat -> InterfaceUpdate.snapshot)
        (d : InterfaceUpdate.data) (st st' : Store)
        (log : list InterfaceUpdate.message) :
  ids_ok st = true -> unambiguous st ->
  InterfaceUpdate.run match_at napalm_call d st = Ok (st', log) ->
  ids_ok st' = true /\ unambiguous st'.
Proof.
  intros Hids Hun H. unfold InterfaceUpdate.run in H.
  apply (run_devices_unambiguous _ _ _ _ _ _ _ Hids Hun H).
Qed.

Lemma lookups_stay_unambiguous_example :
  exists st' log,
    InterfaceUpdate.run Re.literal_at Examples.live_D Examples.update_D
                        Examples.cabled_to_E = Ok (st', log)
    /\ List.length (filter created log) = 1
    /\ ids_ok st' = true /\ unambiguous st'.
Proof.
  eexists. eexists. split; [vm_compute; reflexivity|]. split; [reflexivity|].
  eapply (lookups_stay_unambiguous Re.literal_at Examples.live_D Examples.update_D
                                   Examples.cabled_to_E).
  - reflexivity.
  - apply names_ok_unambiguous. reflexivity.
  - vm_compute. reflexivity.
Defined.

(** ** Rows and lines add up, and the store agrees with the snapshots *)

Lemma interface_reconcile_count (device : Device) (snap : InterfaceUpdate.snapshot)
      (st st1 : Store) (name : string) (log : list InterfaceUpdate.message) :
  InterfaceUpdate.reconcile device snap st name = Ok (st1, log) ->
  List.length (interfaces st1)
  = List.length (interfaces st) + List.length (filter created log)
  /\ next_interface_id st1
     = next_interface_id st + List.length (filter created log).
Proof.
  intro H. apply reconcile_cases in H.
  destruct H as (item & _ & [(_ & -> & ->)|[(i & _ & _ & -> & ->)
                                           |(i & _ & _ & -> & ->)]]); simpl.
  - rewrite length_app. simpl. lia.
  - lia.
  - rewrite length_map. lia.
Qed.

Lemma interfaces_loop_count (match_at : string -> string -> nat -> bool)
      (pattern : string) (device : Device) (snap : InterfaceUpdate.snapshot)
      (names : list string) :
  forall st st1 log,
    InterfaceUpdate.interfaces_loop match_at pattern device snap names st
    = Ok (st1, log) ->
    List.length (interfaces st1)
    = List.length (interfaces st) + List.length (filter created log)
    /\ next_interface_id st1
       = next_interface_id st + List.length (filter created log).
Proof.
  induction names as [|n names IH]; intros st st1 log H; simpl in H.
  - injection H as <- <-. simpl. lia.
  - destruct (InterfaceUpdate.ignored match_at pattern n); [eauto|].
    apply bind_ok in H. destruct H as ([st' log'] & Hrec & H).
    apply bind_ok in H. destruct H as ([st2 log2] & Hloop & H).
    injection H as <- <-.
    destruct (interface_reconcile_count _ _ _ _ _ _ Hrec) as [H1 H2].
    destruct (IH _ _ _ Hloop) as [G1 G2].
    rewrite filter_app, length_app. lia.
Qed.

(** X12: rows and "created" lines add up.  When a run of the interface
    script returns, the interface table has as many rows more than before as
    the log has "created" lines, and the next key has advanced by as much:
    every row the script inserts is logged once, and it removes none. *)
Theorem rows_and_lines_add_up
        (match_at : string -> string -> nat -> bool)
        (napalm_call : nat -> InterfaceUpdate.snapshot)
        (d : InterfaceUpdate.data) (st st' : Store)
        (log : list InterfaceUpdate.message) :
  InterfaceUpdate.run match_at napalm_call d st = Ok (st', log) ->
  List.length (interfaces st')
  = List.length (interfaces st) + List.length (filter created log)
  /\ next_interface_id st'
     = next_interface_id st + List.length (filter created log).
Proof.
  unfold InterfaceUpdate.run.
  generalize (filter (fun x => Re.re_search match_at (InterfaceUpdate.device_name d)
                                            (dev_name x)) (devices st)).
  intro selected. revert st st' log.
  induction selected as [|x selected IH]; intros st st' log H; simpl in H.
  - injection H as <- <-. simpl. lia.
  - apply bind_ok in H. destruct H as ([st1 log1] & Hdev & H).
    apply bind_ok in H. destruct H as ([st2 log2] & Hrest & H).
    injection H as <- <-.
    destruct (interfaces_loop_count _ _ _ _ _ _ _ _ Hdev) as [H1 H2].
    destruct (IH _ _ _ Hrest) as [G1 G2].
    rewrite filter_app, length_app. lia.
Qed.

Lemma rows_and_lines_add_up_example :
  exists st' log,
    InterfaceUpdate.run Re.literal_at Examples.live_D Examples.update_D
                        Examples.cabled_to_E = Ok (st', log)
    /\ List.length (interfaces st') = 3 + List.length (filter created log)
    /\ next_interface_id st' = 4 + List.length (filter created log).
Proof.
  eexists. eexists. split; [vm_compute; reflexivity|].
  eapply (rows_and_lines_add_up Re.literal_at Examples.live_D Examples.update_D
                                Examples.cabled_to_E).
  vm_compute. reflexivity.
Defined.

(** X13: after a run the store agrees with the live snapshots.  With
    unique keys of interfaces, when [run] returns, every device it selected
    is synced: each name of the device's snapshot that the blacklist test
    lets through is the name of exactly one interface of the device, and
    that interface has the live description. *)
Theorem run_syncs_selected_devices
        (match_at : string -> string -> nat -> bool)
        (napalm_call : nat -> InterfaceUpdate.snapshot)
        (d : InterfaceUpdate.data) (st st' : Store)
        (log : list InterfaceUpdate.message) (device : Device) :
  ids_ok st = true ->
  InterfaceUpdate.run match_at napalm_call d st = Ok (st', log) ->
  In device (devices st) ->
  Re.re_search match_at (InterfaceUpdate.device_name d) (dev_name device) = true ->
  synced match_at (InterfaceUpdate.ignore_interfaces d)
         (napalm_call (dev_id device)) st' (dev_id device).
Proof.
  intros Hids H Hin Hsel. unfold InterfaceUpdate.run in H.
  destruct (run_devices_advance _ _ _ _ _ _ _ Hids H) as [_ Hsynced].
  apply Hsynced. apply filter_In. auto.
Qed.

Lemma run_syncs_selected_devices_example :
  exists st' log,
    InterfaceUpdate.run Re.literal_at Examples.live_D Examples.update_D
                        Examples.cabled_to_E = Ok (st', log)
    /\ synced Re.literal_at "Vlan" Examples.two_ports st' 1.
Proof.
  eexists. eexists. split; [vm_compute; reflexivity|].
  eapply (run_syncs_selected_devices Re.literal_at Examples.live_D Examples.update_D
            Examples.cabled_to_E _ _ Examples.D).
  - reflexivity.
  - vm_compute. reflexivity.
  - left. reflexivity.
  - reflexivity.
Defined.

(** * The neighbour report: edge cases *)

Lemma neighbors_loop_missing (show : bool) (device : Device) (st : Store)
      (items : CableUpdate.lldp_neighbors) :
  no_interfaces st (dev_id device) = true ->
  forall names,
    CableUpdate.neighbors_loop show device items st names
    = if every_entry_has_neighbor items
      then Ok (st, names ++ map fst items,
               if show
               then map (fun item => CableUpdate.LocalInterfaceMissing
                                       (dev_name device) (fst item)) items
               else [])
      else Raise IndexError.
Proof.
  intro Hbare. induction items as [|[lname remote] items IH]; simpl; intro names.
  - rewrite app_nil_r. now destruct show.
  - destruct remote as [|first others]; simpl; [reflexivity|].
    unfold CableUpdate.reconcile. rewrite (no_interfaces_get st _ lname Hbare).
    simpl. rewrite IH.
    destruct (every_entry_has_neighbor items); simpl; [|reflexivity].
    rewrite <- app_assoc. simpl. now destruct show.
Qed.

(** X14: the cable script on a device without interfaces.  If every entry
    of the report names at least one neighbour, the run changes nothing:
    every entry is skipped because its local interface is missing, the
    cleanup pass finds nothing to delete, and the log is one warning per
    entry, in the order of the report, when warnings are on, and empty when
    they are off.  If some entry names no neighbour, the run raises
    [IndexError]. *)
Theorem bare_device_is_skipped
        (show : bool) (st : Store) (device : Device)
        (report : CableUpdate.lldp_neighbors) :
  no_interfaces st (dev_id device) = true ->
  CableUpdate.run_device show st device report
  = if every_entry_has_neighbor report
    then Ok (st, if show
                 then map (fun item => CableUpdate.LocalInterfaceMissing
                                         (dev_name device) (fst item)) report
                 else [])
    else Raise IndexError.
Proof.
  intro Hbare. unfold CableUpdate.run_device.
  rewrite (neighbors_loop_missing show device st report Hbare).
  destruct (every_entry_has_neighbor report); simpl; [|reflexivity].
  unfold CableUpdate.remove_old_cables, CableUpdate.old_cable_interfaces.
  assert (Hnone : forall names,
             filter (fun i => Nat.eqb (if_device i) (dev_id device)
                              && match if_cable i with Some _ => true | None => false end
                              && negb (existsb (String.eqb (if_name i)) names))
                    (interfaces st) = []).
  { intro names. unfold no_interfaces in Hbare. rewrite forallb_forall in Hbare.
    induction (interfaces st) as [|x l IH]; simpl; [reflexivity|].
    rewrite (proj1 (negb_true_iff _) (Hbare x (or_introl eq_refl))). simpl.
    apply IH. intros y Hy. apply Hbare. now right. }
  rewrite Hnone. simpl. now rewrite app_nil_r.
Qed.

Lemma bare_device_is_skipped_example :
  CableUpdate.run_device true Examples.bare Examples.D
    [("eth0", [CableUpdate.mkNeighbor "F" "eth2"]); ("eth1", [])]
  = Raise IndexError
  /\ CableUpdate.run_device true Examples.bare Examples.D
       (Examples.report "eth0" "F" "eth2")
     = Ok (Examples.bare, [CableUpdate.LocalInterfaceMissing "D" "eth0"]).
Proof.
  split.
  - apply (bare_device_is_skipped true Examples.bare Examples.D
             [("eth0", [CableUpdate.mkNeighbor "F" "eth2"]); ("eth1", [])]).
    reflexivity.
  - apply (bare_device_is_skipped true Examples.bare Examples.D
             (Examples.report "eth0" "F" "eth2")).
    reflexivity.
Defined.

Lemma neighbors_loop_needs_neighbors (show : bool) (device : Device)
      (items : CableUpdate.lldp_neighbors) :
  forall st names st' names' log,
    CableUpdate.neighbors_loop show device items st names = Ok (st', names', log) ->
    every_entry_has_neighbor items = true.
Proof.
  induction items as [|[lname remote] items IH]; simpl;
    intros st names st' names' log H; [reflexivity|].
  destruct remote as [|first others]; [discriminate|]. simpl in *.
  apply bind_ok in H. destruct H as ([st1 log1] & _ & H).
  apply bind_ok in H. destruct H as ([[st2 names2] log2] & Hloop & _).
  now apply (IH _ _ _ _ _ Hloop).
Qed.

(** X15: an entry without neighbours ends the run.  If a run on a device
    returns, every entry of the report names at least one neighbour: an
    empty list of neighbours raises, at that entry or, when an earlier entry
    raises, before it, and nothing of the run is kept. *)
Theorem returning_run_had_neighbors
        (show : bool) (st st' : Store) (device : Device)
        (report : CableUpdate.lldp_neighbors) (log : list CableUpdate.message) :
  CableUpdate.run_device show st device report = Ok (st', log) ->
  every_entry_has_neighbor report = true.
Proof.
  intro H. unfold CableUpdate.run_device in H.
  apply bind_ok in H. destruct H as ([[st1 names] log1] & Hloop & _).
  now apply (neighbors_loop_needs_neighbors _ _ _ _ _ _ _ _ Hloop).
Qed.

Lemma returning_run_had_neighbors_example :
  every_entry_has_neighbor (Examples.report "eth0" "E" "eth1") = true.
Proof.
  apply (returning_run_had_neighbors true Examples.cabled_to_E Examples.cabled_to_E
           Examples.D (Examples.report "eth0" "E" "eth1") []).
  reflexivity.
Defined.

Lemma neighbors_loop_first_only (show : bool) (device : Device)
      (items : CableUpdate.lldp_neighbors) :
  forall st names,
    CableUpdate.neighbors_loop show device
      (map (fun item => (fst item, firstn 1 (snd item))) items) st names
    = CableUpdate.neighbors_loop show device items st names.
Proof.
  induction items as [|[lname remote] items IH]; intros st names; simpl;
    [reflexivity|].
  destruct remote as [|first others]; simpl; [reflexivity|].
  destruct (CableUpdate.reconcile show device st lname (CableUpdate.hostname first)
                                  (CableUpdate.port first))
    as [[st1 log1]|e]; simpl; [|reflexivity].
  now rewrite IH.
Qed.

(** X16: only the first neighbour of an entry counts.  A run on a report
    gives the result of the run on the report with every list of neighbours
    cut down to its first element: further neighbours of a local interface
    are never looked at. *)
Theorem only_first_neighbor_counts
        (show : bool) (st : Store) (device : Device)
        (report : CableUpdate.lldp_neighbors) :
  CableUpdate.run_device show st device
    (map (fun item => (fst item, firstn 1 (snd item))) report)
  = CableUpdate.run_device show st device report.
Proof.
  unfold CableUpdate.run_device. now rewrite neighbors_loop_first_only.
Qed.

(** * Devices the pattern does not select *)

Lemma run_devices_other (match_at : string -> string -> nat -> bool)
      (napalm_call : nat -> InterfaceUpdate.snapshot) (pattern : string)
      (device' : nat) (name' : string) (selected : list Device) :
  (forall x, In x selected -> dev_id x <> device') ->
  forall st st' log,
    ids_ok st = true ->
    InterfaceUpdate.run_devices match_at napalm_call pattern selected st
    = Ok (st', log) ->
    Interface_get st' device' name' = Interface_get st device' name'.
Proof.
  induction selected as [|x selected IH]; intros Hsel st st' log Hids H; simpl in H.
  - now injection H as <- _.
  - apply bind_ok in H. destruct H as ([st1 log1] & Hdev & H).
    apply bind_ok in H. destruct H as ([st2 log2] & Hrest & H).
    injection H as <- _.
    unfold InterfaceUpdate.run_device in Hdev.
    destruct (interfaces_loop_advance _ _ _ _ _ _ _ _ Hids Hdev) as [(Hids1 & _) _].
    rewrite (IH (fun y Hy => Hsel y (or_intror Hy)) _ _ _ Hids1 Hrest).
    apply (interfaces_loop_other match_at pattern x (napalm_call (dev_id x))
             device' name' (InterfaceUpdate.keys (napalm_call (dev_id x))))
      with (3 := Hdev); [|assumption].
    left. intro Heq. apply (Hsel x (or_introl eq_refl)). congruence.
Qed.

(** X17: the device pattern bounds what the interface script touches.
    When [run] returns, the interfaces of a device whose key is the key of
    no selected device are looked up as before, under every name: none of
    them is created or updated. *)
Theorem unselected_devices_are_left_alone
        (match_at : string -> string -> nat -> bool)
        (napalm_call : nat -> InterfaceUpdate.snapshot)
        (d : InterfaceUpdate.data) (st st' : Store)
        (log : list InterfaceUpdate.message) (device' : nat) (name' : string) :
  ids_ok st = true ->
  InterfaceUpdate.run match_at napalm_call d st = Ok (st', log) ->
  (forall x, In x (devices st) ->
             Re.re_search match_at (InterfaceUpdate.device_name d) (dev_name x) = true ->
             dev_id x <> device') ->
  Interface_get st' device' name' = Interface_get st device' name'.
Proof.
  intros Hids H Hsel. unfold InterfaceUpdate.run in H.
  apply (run_devices_other match_at napalm_call (InterfaceUpdate.ignore_interfaces d)
           device' name' _) with (3 := H); [|assumption].
  intros x Hx. apply filter_In in Hx. destruct Hx as [Hin Hmatch]. now apply Hsel.
Qed.

Lemma unselected_devices_are_left_alone_example :
  exists st' log,
    InterfaceUpdate.run Re.literal_at Examples.live_D Examples.update_D
                        Examples.cabled_to_E = Ok (st', log)
    /\ Interface_get st' 2 "eth1" = Interface_get Examples.cabled_to_E 2 "eth1".
Proof.
  eexists. eexists. split; [vm_compute; reflexivity|].
  eapply (unselected_devices_are_left_alone Re.literal_at Examples.live_D
            Examples.update_D Examples.cabled_to_E _ _ 2 "eth1").
  - reflexivity.
  - vm_compute. reflexivity.
  - simpl. intros x [<-|[<-|[<-|[]]]] H; try discriminate H; simpl; lia.
Defined.

(** * One cable per interface *)

Lemma Cable_save_checked_accepting : accepting Cable_save_checked.
Proof.
  intros st a b st' H. unfold Cable_save_checked in H.
  destruct (cables_of st a); [|discriminate].
  destruct (cables_of st b); [|discriminate].
  injection H as <-. auto.
Qed.








(** The script over a store that accepts what [Cable_save] inserts is the
    script of lines 92-178 as embedded first: where the store accepts every
    cable the two agree. *)
Lemma run_device_on_every_save (show : bool) (st : Store) (device : Device)
      (report : CableUpdate.lldp_neighbors) :
  CableUpdate.run_device_on (fun s a b => Ok (Cable_save s a b)) show st device report
  = CableUpdate.run_device show st device report.
Proof.
  unfold CableUpdate.run_device_on, CableUpdate.run_device.
  f_equal.
Qed.



(** On [remote_taken] the checked store refuses the cable and the run ends
    with the store's error instead of putting a second cable on F's eth2. *)
Lemma occupied_remote_end_is_refused :
  CableUpdate.run_device_on Cable_save_checked false Examples.remote_taken Examples.D
                            (Examples.report "eth0" "F" "eth2")
  = Raise PersistenceError.
Proof. reflexivity. Qed.

(** * The script over a store that may refuse a cable *)

(** Where the first embedding returns, the script over an accepting store
    returns the same, unless the store refuses the cable. *)
Lemma reconcile_on_or_refused (save : Store -> nat -> nat -> result Store)
      (show : bool) (device : Device) (st : Store) (lname rdev rname : string)
      (r : Store * list CableUpdate.message) :
  accepting save ->
  CableUpdate.reconcile show device st lname rdev rname = Ok r ->
  CableUpdate.reconcile_on save show device st lname rdev rname = Ok r
  \/ exists e, refused save e
               /\ CableUpdate.reconcile_on save show device st lname rdev rname
                  = Raise e.
Proof.
  intros Hsave H. unfold CableUpdate.reconcile, CableUpdate.reconcile_on in *.
  destruct (Interface_get st (dev_id device) lname) as [li| |]; [|now left|discriminate].
  destruct (CableUpdate.check_cable st li rdev rname) as [[delete_cable|]|e];
    simpl in *; [|now left|discriminate].
  unfold CableUpdate.connect, CableUpdate.connect_on in *.
  destruct (Device_get st rdev) as [rd| |]; [|now left|discriminate].
  destruct (Interface_get st (dev_id rd) rname) as [ri| |]; [|now left|discriminate].
  destruct (if delete_cable then CableUpdate.delete_stale device st li else Ok (st, []))
    as [[st1 log1]|e]; simpl in *; [|discriminate].
  unfold CableUpdate.create_cable, CableUpdate.create_cable_on in *.
  destruct (save st1 (if_id li) (if_id ri)) as [saved|e] eqn:Hs; simpl.
  - destruct (Hsave _ _ _ _ Hs) as (-> & _). now left.
  - right. exists e. split; [|reflexivity]. now exists st1, (if_id li), (if_id ri).
Qed.

(** What the store accepted is what the first embedding does. *)
Lemma reconcile_on_accepted (save : Store -> nat -> nat -> result Store)
      (show : bool) (device : Device) (st : Store) (lname rdev rname : string)
      (r : Store * list CableUpdate.message) :
  accepting save ->
  CableUpdate.reconcile_on save show device st lname rdev rname = Ok r ->
  CableUpdate.reconcile show device st lname rdev rname = Ok r.
Proof.
  intros Hsave H. unfold CableUpdate.reconcile, CableUpdate.reconcile_on in *.
  destruct (Interface_get st (dev_id device) lname) as [li| |]; try assumption.
  destruct (CableUpdate.check_cable st li rdev rname) as [[delete_cable|]|e];
    simpl in *; try assumption.
  unfold CableUpdate.connect, CableUpdate.connect_on in *.
  destruct (Device_get st rdev) as [rd| |]; try assumption.
  destruct (Interface_get st (dev_id rd) rname) as [ri| |]; try assumption.
  destruct (if delete_cable then CableUpdate.delete_stale device st li else Ok (st, []))
    as [[st1 log1]|e]; simpl in *; try assumption.
  unfold CableUpdate.create_cable, CableUpdate.create_cable_on in *.
  destruct (save st1 (if_id li) (if_id ri)) as [saved|e] eqn:Hs; simpl in H;
    [|discriminate].
  destruct (Hsave _ _ _ _ Hs) as (-> & _). exact H.
Qed.

Lemma neighbors_loop_on_accepted (save : Store -> nat -> nat -> result Store)
      (show : bool) (device : Device) (items : CableUpdate.lldp_neighbors) :
  accepting save ->
  forall st names r,
    CableUpdate.neighbors_loop_on save show device items st names = Ok r ->
    CableUpdate.neighbors_loop show device items st names = Ok r.
Proof.
  intro Hsave. induction items as [|[lname remote] items IH]; simpl;
    intros st names0 r H; [assumption|].
  apply bind_ok in H. destruct H as (first & Hfirst & H). rewrite Hfirst. simpl.
  apply bind_ok in H. destruct H as ([st' log'] & Hrec & H).
  rewrite (reconcile_on_accepted save _ _ _ _ _ _ _ Hsave Hrec). simpl.
  apply bind_ok in H. destruct H as ([[st2 names2] log2] & Hloop & H).
  rewrite (IH _ _ _ Hloop). exact H.
Qed.

Lemma run_device_on_accepted (save : Store -> nat -> nat -> result Store)
      (show : bool) (st : Store) (device : Device)
      (report : CableUpdate.lldp_neighbors) (r : Store * list CableUpdate.message) :
  accepting save ->
  CableUpdate.run_device_on save show st device report = Ok r ->
  CableUpdate.run_device show st device report = Ok r.
Proof.
  intros Hsave H. unfold CableUpdate.run_device_on, CableUpdate.run_device in *.
  apply bind_ok in H. destruct H as ([[st1 names] log1] & Hloop & H).
  rewrite (neighbors_loop_on_accepted save _ _ _ Hsave _ _ _ Hloop). exact H.
Qed.

Lemma neighbors_loop_on_or_refused (save : Store -> nat -> nat -> result Store)
      (show : bool) (device : Device) (items : CableUpdate.lldp_neighbors) :
  accepting save ->
  forall st names,
    refs_ok st = true -> names_ok st = true -> In device (devices st) ->
    every_entry_has_neighbor items = true ->
    (exists st' names' log,
        CableUpdate.neighbors_loop_on save show device items st names
        = Ok (st', names', log)
        /\ refs_ok st' = true /\ names_ok st' = true /\ devices st' = devices st)
    \/ exists e, refused save e
                 /\ CableUpdate.neighbors_loop_on save show device items st names
                    = Raise e.
Proof.
  intro Hsave. induction items as [|[lname remote] items IH]; simpl;
    intros st names Hrefs Hnames Hdev Hitems.
  - left. eexists. eexists. eexists. split; [reflexivity|auto].
  - apply andb_true_iff in Hitems. destruct Hitems as [Hfirst Hitems]. simpl in Hfirst.
    destruct remote as [|first others]; [discriminate|]. simpl.
    destruct (reconcile_returns show device st lname (CableUpdate.hostname first)
                                (CableUpdate.port first) Hrefs Hnames Hdev)
      as (st1 & log1 & Hrec).
    destruct (reconcile_on_or_refused save _ _ _ _ _ _ _ Hsave Hrec)
      as [Hon|(e & Hrefused & Hon)]; rewrite Hon; simpl.
    2:{ right. now exists e. }
    destruct (reconcile_frame _ _ _ _ _ _ _ _ Hrec) as (Hd1 & Hi1 & _).
    pose proof (reconcile_refs_ok _ _ _ _ _ _ _ _ Hrefs Hrec) as Hrefs1.
    assert (Hnames1 : names_ok st1 = true)
      by now rewrite (names_ok_frame st st1 Hd1 Hi1).
    assert (Hdev1 : In device (devices st1)) by now rewrite Hd1.
    destruct (IH st1 (names ++ [lname]) Hrefs1 Hnames1 Hdev1 Hitems)
      as [(st2 & names2 & log2 & Hloop & Hrefs2 & Hnames2 & Hd2)
         |(e & Hrefused & Hloop)]; rewrite Hloop; simpl.
    + left. eexists. eexists. eexists. split; [reflexivity|].
      repeat split; try assumption. congruence.
    + right. now exists e.
Qed.

(** X4: on well-formed input the cable script raises no exception of its
    own.  Take a store that accepts a cable only between two free
    interfaces, an inventory with referential integrity in which names
    identify devices, and interfaces within a device, a device of the
    inventory and a report in which every entry names a neighbour.  Then a
    run on the device either returns, leaving an inventory with the same
    integrity, or ends with the exception the store raised when it refused a
    cable: no lookup, subscript or attribute access of the script raises.
    Deleting a cable is taken to succeed, as in [Cable_delete]. *)
Theorem only_a_refused_cable_ends_the_run
        (save : Store -> nat -> nat -> result Store)
        (show : bool) (st : Store) (device : Device)
        (report : CableUpdate.lldp_neighbors) :
  accepting save ->
  refs_ok st = true -> names_ok st = true -> In device (devices st) ->
  every_entry_has_neighbor report = true ->
  (exists st' log,
      CableUpdate.run_device_on save show st device report = Ok (st', log)
      /\ refs_ok st' = true /\ names_ok st' = true /\ devices st' = devices st)
  \/ exists e, refused save e
               /\ CableUpdate.run_device_on save show st device report = Raise e.
Proof.
  intros Hsave Hrefs Hnames Hdev Hreport. unfold CableUpdate.run_device_on.
  destruct (neighbors_loop_on_or_refused save show device report Hsave st []
              Hrefs Hnames Hdev Hreport)
    as [(st1 & names & log1 & Hloop & Hrefs1 & Hnames1 & Hd1)
       |(e & Hrefused & Hloop)]; rewrite Hloop; simpl.
  2:{ right. now exists e. }
  left. unfold CableUpdate.remove_old_cables.
  assert (Hnd : NoDup (map cable_id (cables st1))) by now apply refs_ok_iff.
  destruct (remove_loop_returns device
              (CableUpdate.old_cable_interfaces st1 device names) st1
              (refs_ok_ends st1 Hrefs1) Hnd)
    as (st2 & log2 & Hclean & _).
  { intros r Hr. apply filter_In in Hr. destruct Hr as [_ Hr].
    destruct (if_cable r); [discriminate|].
    rewrite andb_false_r in Hr. discriminate. }
  rewrite Hclean. simpl. eexists. eexists. split; [reflexivity|].
  pose proof (remove_loop_refs_ok _ _ _ _ _ Hrefs1 Hclean) as Hrefs2.
  destruct (remove_loop_frame _ _ _ _ _ Hclean) as (Hd2 & Hi2 & _).
  split; [assumption|]. split; [|congruence].
  now rewrite (names_ok_frame st1 st2 Hd2 Hi2).
Qed.

Lemma only_a_refused_cable_ends_the_run_example :
  ((exists st' log,
       CableUpdate.run_device_on Cable_save_checked false Examples.cabled_to_E
                                 Examples.D (Examples.report "eth0" "F" "eth2")
       = Ok (st', log)
       /\ refs_ok st' = true /\ names_ok st' = true
       /\ devices st' = devices Examples.cabled_to_E)
   \/ exists e, refused Cable_save_checked e
                /\ CableUpdate.run_device_on Cable_save_checked false
                     Examples.cabled_to_E Examples.D
                     (Examples.report "eth0" "F" "eth2") = Raise e)
  /\ ((exists st' log,
          CableUpdate.run_device_on Cable_save_checked false Examples.remote_taken
                                    Examples.D (Examples.report "eth0" "F" "eth2")
          = Ok (st', log)
          /\ refs_ok st' = true /\ names_ok st' = true
          /\ devices st' = devices Examples.remote_taken)
      \/ exists e, refused Cable_save_checked e
                   /\ CableUpdate.run_device_on Cable_save_checked false
                        Examples.remote_taken Examples.D
                        (Examples.report "eth0" "F" "eth2") = Raise e).
Proof.
  split.
  - apply (only_a_refused_cable_ends_the_run Cable_save_checked false
             Examples.cabled_to_E Examples.D (Examples.report "eth0" "F" "eth2")).
    + exact Cable_save_checked_accepting.
    + reflexivity.
    + reflexivity.
    + left. reflexivity.
    + reflexivity.
  - apply (only_a_refused_cable_ends_the_run Cable_save_checked false
             Examples.remote_taken Examples.D (Examples.report "eth0" "F" "eth2")).
    + exact Cable_save_checked_accepting.
    + reflexivity.
    + reflexivity.
    + left. reflexivity.
    + reflexivity.
Defined.
